(** * The data-shape inference and transformation pipeline

    A shallow embedding of the pipeline's pure core:
    - [ExcelTransformer.ts]: [detectHeaderRow] with its fallback heuristics,
      [processSheetWithCustomHeaders];
    - [TransformationPage.tsx]: [detectColumnType], the formatters, the
      sanitisation effect ([sanitizeData]), [applyFilters], [handleFileUpload]
      and [handleColumnSelectionChange];
    - [DataSanitizers.ts]: the ZIP, SSN, policy-number and special-character
      sanitizers, and [BaseTransformer.applySanitizers], which runs them;
    - [DataPreview.tsx]: the column selection with its undo history;
    - [PresetManager.tsx]: loading, saving and deleting the stored presets.

    JavaScript strings are sequences of UTF-16 code units, numbers are IEEE
    doubles (the kernel's primitive floats), objects used as records of cells
    are finite maps keyed by strings; the row objects the loader builds by
    assignment also carry their prototype. *)

From Stdlib Require Import ZArith NArith List String Ascii Bool Lia.
From Stdlib Require Import PrimFloat Uint63 FloatOps SpecFloat FloatAxioms.
From stdpp Require Import gmap list.
Import ListNotations.

(* Decimal literals such as 0.6 denote the nearest double, as in the source. *)
Set Warnings "-inexact-float,-clear-no-such-hyp,-register-all".

(** ** JavaScript strings and primitive values *)

Module JS.

(** A string is the list of its UTF-16 code units. *)
Definition jsstring : Type := list N.

(** ASCII string literals of the source, as code units. *)
Definition js (s : string) : jsstring := List.map N_of_ascii (list_ascii_of_string s).

Definition is_digit (c : N) : bool := ((48 <=? c) && (c <=? 57))%N.
Definition is_upper (c : N) : bool := ((65 <=? c) && (c <=? 90))%N.
Definition is_lower (c : N) : bool := ((97 <=? c) && (c <=? 122))%N.
Definition is_alnum (c : N) : bool := is_lower c || is_upper c || is_digit c.

(** [\w] is [[A-Za-z0-9_]]. *)
Definition is_word (c : N) : bool := is_alnum c || (c =? 95)%N.

(** [\s], and what [trim] strips: WhiteSpace and LineTerminator code points. *)
Definition is_space (c : N) : bool :=
  (((9 <=? c) && (c <=? 13)) || (c =? 32) || (c =? 160) || (c =? 5760)
   || ((8192 <=? c) && (c <=? 8202)) || (c =? 8232) || (c =? 8233)
   || (c =? 8239) || (c =? 8287) || (c =? 12288) || (c =? 65279))%N.

Definition is_empty (s : jsstring) : bool :=
  match s with [] => true | _ :: _ => false end.

Fixpoint trimStart (s : jsstring) : jsstring :=
  match s with
  | [] => []
  | c :: s' => if is_space c then trimStart s' else s
  end.

Definition trimEnd (s : jsstring) : jsstring := rev (trimStart (rev s)).

Definition trim (s : jsstring) : jsstring := trimEnd (trimStart s).

(** [s.padStart(n, c)] and [s.padEnd(n, c)] for a one-unit filler. *)
Definition padStart (n : nat) (c : N) (s : jsstring) : jsstring :=
  repeat c (n - length s) ++ s.

Definition padEnd (n : nat) (c : N) (s : jsstring) : jsstring :=
  s ++ repeat c (n - length s).

(** [s.substring(a, b)] and [s.slice(a, b)] for [0 <= a <= b]; [substringFrom]
    is the one-argument form. *)
Definition substring (a b : nat) (s : jsstring) : jsstring :=
  firstn (b - a) (skipn a s).

Definition substringFrom (a : nat) (s : jsstring) : jsstring := skipn a s.

(** [s.slice(-n)]: the last [n] units (the whole string when shorter). *)
Definition sliceLast (n : nat) (s : jsstring) : jsstring :=
  skipn (length s - n) s.

(** [s.slice(-a, -b)] for [a >= b]: from [a] before the end to [b] before it. *)
Definition sliceNeg (a b : nat) (s : jsstring) : jsstring :=
  firstn ((length s - b) - (length s - a)) (skipn (length s - a) s).

(** [s.slice(0, -b)]. *)
Definition sliceUpToNeg (b : nat) (s : jsstring) : jsstring :=
  firstn (length s - b) s.

Definition str_eqb (a b : jsstring) : bool := bool_decide (a = b).

Fixpoint startsWith (s p : jsstring) : bool :=
  match p, s with
  | [], _ => true
  | _ :: _, [] => false
  | c :: p', d :: s' => (c =? d)%N && startsWith s' p'
  end.

Definition endsWith (s p : jsstring) : bool := startsWith (rev s) (rev p).

Fixpoint includes (s p : jsstring) : bool :=
  startsWith s p || match s with [] => false | _ :: s' => includes s' p end.

(** Decimal rendering of a natural number (template literals such as
    [`Column${index + 1}`]); a number has fewer decimal digits than bits. *)
Fixpoint N_digits (fuel : nat) (n : N) (acc : jsstring) : jsstring :=
  match fuel with
  | O => acc
  | S fuel' =>
      let acc' := (48 + n mod 10)%N :: acc in
      if (n <? 10)%N then acc' else N_digits fuel' (n / 10)%N acc'
  end.

Definition N_to_string (n : N) : jsstring := N_digits (S (N.size_nat n)) n [].

Definition nat_to_string (n : nat) : jsstring := N_to_string (N.of_nat n).

(** Primitive values: what a worksheet cell, a row-object field or a scalar
    filter operand can hold. *)
Inductive value : Type :=
| VUndefined
| VNull
| VBool (b : bool)
| VNum (x : float)
| VStr (s : jsstring).

Definition is_string (v : value) : bool :=
  match v with VStr _ => true | _ => false end.

Definition is_number (v : value) : bool :=
  match v with VNum _ => true | _ => false end.

(** [v !== ""]. *)
Definition not_empty_string (v : value) : bool :=
  match v with VStr [] => false | _ => true end.

(** [Boolean(v)]: the falsy values are [undefined], [null], [false], [0],
    [-0], [NaN] and [""]. *)
Definition truthy (v : value) : bool :=
  match v with
  | VUndefined | VNull => false
  | VBool b => b
  | VNum x => negb (PrimFloat.eqb x 0 || PrimFloat.is_nan x)
  | VStr s => negb (is_empty s)
  end.

(** An array index or a length as a number. *)
Definition of_nat (n : nat) : float := PrimFloat.of_uint63 (Uint63.of_Z (Z.of_nat n)).

(** The built-in conversions the pipeline calls and the language or its host
    defines: Unicode case mapping, the two conversions between numbers and
    strings, and the time value of [new Date(v)] ([NaN] for an invalid date).
    The pipeline is modelled over any implementation of them. *)
Record Builtins : Type := {
  toLowerCase : jsstring -> jsstring;
  NumberToString : float -> jsstring;
  StringToNumber : jsstring -> float;
  DateValue : value -> float
}.

(** [String(v)] *)
Definition ToString (B : Builtins) (v : value) : jsstring :=
  match v with
  | VUndefined => js "undefined"
  | VNull => js "null"
  | VBool true => js "true"
  | VBool false => js "false"
  | VNum x => NumberToString B x
  | VStr s => s
  end.

(** [Number(v)] *)
Definition ToNumber (B : Builtins) (v : value) : float :=
  match v with
  | VUndefined => PrimFloat.nan
  | VNull => 0%float
  | VBool true => 1%float
  | VBool false => 0%float
  | VNum x => x
  | VStr s => StringToNumber B s
  end.

(** *** An instance of the built-ins for evaluating examples

    Exact on ASCII text, on integer-valued numbers below 10^21 and on
    decimal integer numerals of at most 15 digits; no text is recognised as
    a date. The theorems below hold for every instance; this one only
    evaluates their examples. *)

Definition ascii_lower (c : N) : N := if is_upper c then (c + 32)%N else c.
Definition ascii_upper (c : N) : N := if is_lower c then (c - 32)%N else c.

Definition integer_to_string (z : Z) : jsstring :=
  if (z <? 0)%Z then 45%N :: N_to_string (Z.to_N (- z)) else N_to_string (Z.to_N z).

Definition example_NumberToString (x : float) : jsstring :=
  match FloatOps.Prim2SF x with
  | SpecFloat.S754_nan => js "NaN"
  | SpecFloat.S754_infinity false => js "Infinity"
  | SpecFloat.S754_infinity true => js "-Infinity"
  | SpecFloat.S754_zero _ => js "0"
  | SpecFloat.S754_finite sign m e =>
      let magnitude := (if (0 <=? e)%Z then Z.pos m * 2 ^ e else Z.pos m / 2 ^ (- e))%Z in
      integer_to_string (if sign then (- magnitude)%Z else magnitude)
  end.

Definition digits_value (s : jsstring) : Z :=
  fold_left (fun acc c => (10 * acc + (Z.of_N c - 48))%Z) s 0%Z.

Definition example_StringToNumber (s : jsstring) : float :=
  let t := trim s in
  let (negative, ds) :=
    match t with
    | 45%N :: ds => (true, ds)
    | 43%N :: ds => (false, ds)
    | _ => (false, t)
    end in
  match t with
  | [] => 0%float
  | _ =>
      if negb (is_empty ds) && forallb is_digit ds && (length ds <=? 15)%nat then
        let x := PrimFloat.of_uint63 (Uint63.of_Z (digits_value ds)) in
        if negative then PrimFloat.opp x else x
      else PrimFloat.nan
  end.

Definition example_DateValue (v : value) : float :=
  match v with
  | VNum x => x
  | _ => PrimFloat.nan
  end.

Definition example_builtins : Builtins :=
  {| toLowerCase := List.map ascii_lower;
     NumberToString := example_NumberToString;
     StringToNumber := example_StringToNumber;
     DateValue := example_DateValue |}.

(** *** Facts about lists and character classes *)

Lemma in_firstn {A : Type} (n : nat) (l : list A) (x : A) :
  In x (firstn n l) -> In x l.
Proof.
  intros H. rewrite <- (firstn_skipn n l). apply in_or_app. now left.
Qed.

Lemma firstn_repeat {A : Type} (c : A) (n k : nat) :
  firstn n (repeat c k) = repeat c (Nat.min n k).
Proof.
  revert k. induction n as [| n IH]; intros [| k]; simpl; try reflexivity.
  now rewrite IH.
Qed.

Lemma filter_all {A : Type} (p : A -> bool) (l : list A) :
  Forall (fun c => p c = true) l -> List.filter p l = l.
Proof.
  induction 1 as [| c l Hc _ IH]; simpl; [reflexivity |]. now rewrite Hc, IH.
Qed.

Lemma filter_none {A : Type} (p : A -> bool) (l : list A) :
  Forall (fun c => p c = false) l -> List.filter p l = [].
Proof.
  induction 1 as [| c l Hc _ IH]; simpl; [reflexivity |]. now rewrite Hc.
Qed.

Lemma filter_Forall {A : Type} (p : A -> bool) (l : list A) :
  Forall (fun c => p c = true) (List.filter p l).
Proof.
  apply List.Forall_forall. intros c Hc. now apply List.filter_In in Hc.
Qed.

Lemma Forall_firstn {A : Type} (P : A -> Prop) (n : nat) (l : list A) :
  Forall P l -> Forall P (firstn n l).
Proof.
  intros H. revert n. induction H as [| c l Hc _ IH]; intros [| n]; simpl;
    constructor; auto.
Qed.

Lemma Forall_skipn {A : Type} (P : A -> Prop) (n : nat) (l : list A) :
  Forall P l -> Forall P (skipn n l).
Proof.
  intros H. revert n. induction H as [| c l Hc Hl IH]; intros [| n]; simpl; auto.
Qed.

Lemma Forall_repeat {A : Type} (P : A -> Prop) (c : A) (n : nat) :
  P c -> Forall P (repeat c n).
Proof. intros Hc. induction n; simpl; constructor; auto. Qed.

Lemma is_lower_range (c : N) : is_lower c = true <-> (97 <= c <= 122)%N.
Proof. unfold is_lower. rewrite andb_true_iff, !N.leb_le. tauto. Qed.

Lemma is_upper_range (c : N) : is_upper c = true <-> (65 <= c <= 90)%N.
Proof. unfold is_upper. rewrite andb_true_iff, !N.leb_le. tauto. Qed.

Lemma is_digit_range (c : N) : is_digit c = true <-> (48 <= c <= 57)%N.
Proof. unfold is_digit. rewrite andb_true_iff, !N.leb_le. tauto. Qed.

Lemma is_alnum_range (c : N) :
  is_alnum c = true <-> ((97 <= c <= 122) \/ (65 <= c <= 90) \/ (48 <= c <= 57))%N.
Proof.
  unfold is_alnum.
  rewrite !orb_true_iff, is_lower_range, is_upper_range, is_digit_range. tauto.
Qed.

(** Splits a [Forall] over a written-out list into the facts about its elements. *)
Ltac split_Forall :=
  repeat match goal with
         | H : Forall _ (_ :: _) |- _ => inversion H; subst; clear H
         end.

(** Rewrites with every fact [p c = true] about an element. *)
Ltac use_class p :=
  repeat match goal with
         | H : p _ = true |- _ => rewrite !H; clear H
         end.

(** Decides the comparisons of a class predicate on a code unit whose range
    is known. *)
Ltac decide_class :=
  repeat match goal with
         | |- context [(?a <=? ?b)%N] => destruct (N.leb_spec a b); try lia
         | |- context [(?a =? ?b)%N] => destruct (N.eqb_spec a b); try lia
         end; reflexivity.

Lemma digit_not_space (c : N) : is_digit c = true -> is_space c = false.
Proof.
  intros H. apply is_digit_range in H. unfold is_space. decide_class.
Qed.

(** *** Facts about slices and filters *)

Lemma substring_rest (a b : nat) (d : jsstring) :
  a <= b -> substring a b d ++ skipn b d = skipn a d.
Proof.
  intros Hab. unfold substring.
  replace (skipn b d) with (skipn (b - a) (skipn a d)).
  - apply firstn_skipn.
  - rewrite List.skipn_skipn. f_equal. lia.
Qed.

Lemma filter_filter_andb {A : Type} (p q : A -> bool) (l : list A) :
  List.filter q (List.filter p l) = List.filter (fun x => p x && q x) l.
Proof.
  induction l as [| x l IH]; [reflexivity |]. simpl.
  destruct (p x); simpl; [destruct (q x) |]; now rewrite IH.
Qed.

Lemma filter_sublist_of {A : Type} (p : A -> bool) (l : list A) :
  sublist (List.filter p l) l.
Proof.
  induction l as [| x l IH]; simpl; [constructor |].
  destruct (p x); now constructor.
Qed.

Lemma filter_twice {A : Type} (p : A -> bool) (l : list A) :
  List.filter p (List.filter p l) = List.filter p l.
Proof. apply filter_all, filter_Forall. Qed.

End JS.

(** ** Regular expressions

    The patterns of the source are regular (no back-references, no
    look-around), so [RegExp.prototype.test] on [/^r$/] is membership of the
    whole string in the language of [r]; it is decided here by derivatives. *)

Module Regex.

Inductive regex : Type :=
| Void
| Eps
| Class (p : N -> bool)
| Seq (r1 r2 : regex)
| Alt (r1 r2 : regex)
| Star (r : regex).

Fixpoint nullable (r : regex) : bool :=
  match r with
  | Void => false
  | Eps => true
  | Class _ => false
  | Seq r1 r2 => nullable r1 && nullable r2
  | Alt r1 r2 => nullable r1 || nullable r2
  | Star _ => true
  end.

Fixpoint deriv (c : N) (r : regex) : regex :=
  match r with
  | Void => Void
  | Eps => Void
  | Class p => if p c then Eps else Void
  | Seq r1 r2 =>
      if nullable r1 then Alt (Seq (deriv c r1) r2) (deriv c r2)
      else Seq (deriv c r1) r2
  | Alt r1 r2 => Alt (deriv c r1) (deriv c r2)
  | Star r1 => Seq (deriv c r1) (Star r1)
  end.

Fixpoint matches (r : regex) (s : JS.jsstring) : bool :=
  match s with
  | [] => nullable r
  | c :: s' => matches (deriv c r) s'
  end.

(** The language of a regular expression, against which [matches] is checked. *)
Inductive lang : regex -> JS.jsstring -> Prop :=
| lang_eps : lang Eps []
| lang_class p c : p c = true -> lang (Class p) [c]
| lang_seq r1 r2 s1 s2 : lang r1 s1 -> lang r2 s2 -> lang (Seq r1 r2) (s1 ++ s2)
| lang_alt_l r1 r2 s : lang r1 s -> lang (Alt r1 r2) s
| lang_alt_r r1 r2 s : lang r2 s -> lang (Alt r1 r2) s
| lang_star_nil r : lang (Star r) []
| lang_star_cons r s1 s2 : lang r s1 -> lang (Star r) s2 -> lang (Star r) (s1 ++ s2).

(** Syntax of the source's patterns. *)
Definition chr (c : N) : regex := Class (N.eqb c).
Definition digit : regex := Class JS.is_digit.
Definition opt (r : regex) : regex := Alt r Eps.
Definition plus (r : regex) : regex := Seq r (Star r).

(** [r{n}] *)
Fixpoint rep (n : nat) (r : regex) : regex :=
  match n with
  | O => Eps
  | S n' => Seq r (rep n' r)
  end.

(** [r{0,n}] *)
Fixpoint upto (n : nat) (r : regex) : regex :=
  match n with
  | O => Eps
  | S n' => opt (Seq r (upto n' r))
  end.

(** [r{lo,hi}] *)
Definition between (lo hi : nat) (r : regex) : regex := Seq (rep lo r) (upto (hi - lo) r).

(** [r{n,}] *)
Definition atleast (n : nat) (r : regex) : regex := Seq (rep n r) (Star r).

(** Any run of code units: the part of the input an unanchored side of a
    pattern leaves unconstrained. *)
Definition anything : regex := Star (Class (fun _ => true)).

(** The class predicates occurring in a pattern. *)
Fixpoint classes (r : regex) : list (N -> bool) :=
  match r with
  | Void | Eps => []
  | Class p => [p]
  | Seq r1 r2 | Alt r1 r2 => classes r1 ++ classes r2
  | Star r1 => classes r1
  end.

(** Two code units no class of [r] tells apart. *)
Definition alike (r : regex) (c c' : N) : Prop :=
  Forall (fun p : N -> bool => p c = p c') (classes r).

(** No class of [r] tells one digit from another. *)
Definition digit_blind (r : regex) : Prop :=
  forall d, JS.is_digit d = true -> alike r d 48.

(** *** The matcher decides the language *)

Lemma nullable_lang (r : regex) : nullable r = true <-> lang r [].
Proof.
  split.
  - induction r as [| | p | r1 IH1 r2 IH2 | r1 IH1 r2 IH2 | r1 IH1]; simpl; intros H;
      try discriminate.
    + constructor.
    + apply andb_prop in H as [H1 H2].
      change (@nil N) with (@nil N ++ @nil N). constructor; auto.
    + apply orb_prop in H as [H | H]; [apply lang_alt_l | apply lang_alt_r]; auto.
    + constructor.
  - intros H. remember (@nil N) as s eqn:Es.
    induction H as [ | p c Hp | r1 r2 s1 s2 H1 IH1 H2 IH2 | r1 r2 s H IH | r1 r2 s H IH
                   | r | r s1 s2 H1 IH1 H2 IH2 ]; simpl; auto.
    + discriminate.
    + apply app_eq_nil in Es as [E1 E2]. rewrite IH1, IH2; auto.
    + rewrite IH; auto.
    + rewrite IH; auto using orb_true_r.
Qed.

Lemma lang_deriv_sound (c : N) (r : regex) :
  forall s, lang (deriv c r) s -> lang r (c :: s).
Proof.
  induction r as [| | p | r1 IH1 r2 IH2 | r1 IH1 r2 IH2 | r1 IH1]; simpl; intros s H.
  - inversion H.
  - inversion H.
  - destruct (p c) eqn:Hp; inversion H; subst. now constructor.
  - destruct (nullable r1) eqn:Hn.
    + inversion H as [ | | | ? ? ? H' | ? ? ? H' | | ]; subst.
      * inversion H' as [ | | ? ? s1 s2 Ha Hb | | | | ]; subst.
        change (c :: s1 ++ s2) with ((c :: s1) ++ s2). constructor; auto.
      * change (c :: s) with ([] ++ c :: s). constructor; auto.
        now apply nullable_lang.
    + inversion H as [ | | ? ? s1 s2 Ha Hb | | | | ]; subst.
      change (c :: s1 ++ s2) with ((c :: s1) ++ s2). constructor; auto.
  - inversion H; subst; [apply lang_alt_l | apply lang_alt_r]; auto.
  - inversion H as [ | | ? ? s1 s2 Ha Hb | | | | ]; subst.
    change (c :: s1 ++ s2) with ((c :: s1) ++ s2). constructor; auto.
Qed.

Lemma lang_deriv_complete (r : regex) (w : JS.jsstring) :
  lang r w -> forall c s, w = c :: s -> lang (deriv c r) s.
Proof.
  induction 1 as [ | p c' Hp | r1 r2 s1 s2 H1 IH1 H2 IH2 | r1 r2 s' H IH | r1 r2 s' H IH
                 | r | r s1 s2 H1 IH1 H2 IH2 ]; intros c s E; simpl.
  - discriminate.
  - injection E as -> <-. rewrite Hp. constructor.
  - destruct s1 as [| c1 s1']; simpl in E.
    + apply nullable_lang in H1. rewrite H1. apply lang_alt_r. eauto.
    + injection E as -> <-.
      assert (lang (Seq (deriv c r1) r2) (s1' ++ s2)) by (constructor; eauto).
      destruct (nullable r1); [now apply lang_alt_l | assumption].
  - apply lang_alt_l. eauto.
  - apply lang_alt_r. eauto.
  - discriminate.
  - destruct s1 as [| c1 s1']; simpl in E.
    + apply (IH2 c s E).
    + injection E as -> <-. constructor; eauto.
Qed.

Lemma matches_lang (s : JS.jsstring) : forall r, matches r s = true <-> lang r s.
Proof.
  induction s as [| c s IH]; intros r; simpl.
  - apply nullable_lang.
  - rewrite IH. split.
    + apply lang_deriv_sound.
    + intros H. now apply (lang_deriv_complete r (c :: s)).
Qed.

(** A word of [p{n}] is [n] units of the class [p]. *)
Lemma lang_rep_class (p : N -> bool) (n : nat) :
  forall s, lang (rep n (Class p)) s -> length s = n /\ Forall (fun c => p c = true) s.
Proof.
  induction n as [| n IH]; simpl; intros s H.
  - inversion H; subst. split; [reflexivity | constructor].
  - inversion H as [ | | ? ? s1 s2 H1 H2 | | | | ]; subst.
    inversion H1; subst. apply IH in H2 as [Hlen Hall].
    split; [simpl; now rewrite Hlen | now constructor].
Qed.

(** *** Code units that no class of a pattern separates are interchangeable *)

Lemma alike_refl (r : regex) (c : N) : alike r c c.
Proof. unfold alike. apply List.Forall_forall. reflexivity. Qed.

Lemma deriv_alike (r : regex) (c c' : N) : alike r c c' -> deriv c r = deriv c' r.
Proof.
  unfold alike.
  induction r as [| | p | r1 IH1 r2 IH2 | r1 IH1 r2 IH2 | r1 IH1]; simpl; intros H; auto.
  - apply Forall_inv in H. now rewrite H.
  - apply Forall_app in H as [H1 H2]. now rewrite IH1, IH2.
  - apply Forall_app in H as [H1 H2]. now rewrite IH1, IH2.
  - now rewrite IH1.
Qed.

Lemma classes_deriv (P : (N -> bool) -> Prop) (c : N) (r : regex) :
  Forall P (classes r) -> Forall P (classes (deriv c r)).
Proof.
  induction r as [| | p | r1 IH1 r2 IH2 | r1 IH1 r2 IH2 | r1 IH1]; simpl; intros H; auto.
  - destruct (p c); constructor.
  - apply Forall_app in H as [H1 H2].
    destruct (nullable r1); simpl; repeat (apply Forall_app; split); auto.
  - apply Forall_app in H as [H1 H2]. apply Forall_app; split; auto.
  - apply Forall_app; split; auto.
Qed.

Lemma matches_alike (s s' : JS.jsstring) :
  forall r, Forall2 (alike r) s s' -> matches r s = matches r s'.
Proof.
  revert s'. induction s as [| c s IH]; intros s' r H; inversion H as [| ? c' ? t' Hc Ht]; subst.
  - reflexivity.
  - simpl. rewrite (deriv_alike r c c' Hc). apply IH.
    eapply Forall2_impl; [exact Ht |].
    intros a b Hab. now apply classes_deriv.
Qed.

End Regex.

(** ** Column type inference ([detectColumnType], TransformationPage.tsx) *)

Module TypeInference.
Import JS Regex.

Inductive ColumnType : Type :=
| Auto | Text | Number | Date | Zipcode | Phone | Email | Currency | Ssn.

(** [[\s.-]] *)
Definition is_separator (c : N) : bool := is_space c || (c =? 46)%N || (c =? 45)%N.
(** [[a-zA-Z0-9._%+-]] *)
Definition is_local_part (c : N) : bool :=
  is_alnum c || (c =? 46)%N || (c =? 95)%N || (c =? 37)%N || (c =? 43)%N || (c =? 45)%N.
(** [[a-zA-Z0-9.-]] *)
Definition is_domain (c : N) : bool := is_alnum c || (c =? 46)%N || (c =? 45)%N.
(** [[a-zA-Z]] *)
Definition is_alpha (c : N) : bool := is_lower c || is_upper c.
(** [[£$€¥]] *)
Definition is_currency_symbol (c : N) : bool :=
  (c =? 163)%N || (c =? 36)%N || (c =? 8364)%N || (c =? 165)%N.
(** [[\d,.]] *)
Definition is_amount (c : N) : bool := is_digit c || (c =? 44)%N || (c =? 46)%N.
(** [[-/\.]] *)
Definition is_date_separator (c : N) : bool := (c =? 45)%N || (c =? 47)%N || (c =? 46)%N.

(** [/^\d{5}(-\d{4})?$/] *)
Definition zipPattern : regex :=
  Seq (rep 5 digit) (opt (Seq (chr 45) (rep 4 digit))).

(** [/^(\+\d{1,3}[\s.-]?)?\(?\d{3}\)?[\s.-]?\d{3}[\s.-]?\d{4}$/] *)
Definition phonePattern : regex :=
  Seq (opt (Seq (chr 43) (Seq (between 1 3 digit) (opt (Class is_separator)))))
  (Seq (opt (chr 40)) (Seq (rep 3 digit) (Seq (opt (chr 41))
  (Seq (opt (Class is_separator)) (Seq (rep 3 digit)
  (Seq (opt (Class is_separator)) (rep 4 digit))))))).

(** [/^[a-zA-Z0-9._%+-]+@[a-zA-Z0-9.-]+\.[a-zA-Z]{2,}$/] *)
Definition emailPattern : regex :=
  Seq (plus (Class is_local_part)) (Seq (chr 64)
  (Seq (plus (Class is_domain)) (Seq (chr 46) (atleast 2 (Class is_alpha))))).

(** [/^\s*[£$€¥]?\s*[\d,.]+\s*$/] *)
Definition currencyPattern : regex :=
  Seq (Star (Class is_space)) (Seq (opt (Class is_currency_symbol))
  (Seq (Star (Class is_space)) (Seq (plus (Class is_amount)) (Star (Class is_space))))).

(** [/^\d{3}-\d{2}-\d{4}$/] *)
Definition ssnPattern : regex :=
  Seq (rep 3 digit) (Seq (chr 45) (Seq (rep 2 digit) (Seq (chr 45) (rep 4 digit)))).

(** [/^(\d{1,4}[-/\.]\d{1,2}[-/\.]\d{1,4})|(\d{1,2}[-/\.]\d{1,2}[-/\.]\d{2,4})$/]:
    the alternation binds weaker than the anchors, so the first branch is
    anchored at the start only and the second at the end only. *)
Definition datePattern : regex :=
  Alt (Seq (Seq (between 1 4 digit) (Seq (Class is_date_separator)
           (Seq (between 1 2 digit) (Seq (Class is_date_separator) (between 1 4 digit)))))
           anything)
      (Seq anything
           (Seq (between 1 2 digit) (Seq (Class is_date_separator)
           (Seq (between 1 2 digit) (Seq (Class is_date_separator) (between 2 4 digit)))))).

(** [/^-?\d+(\.\d+)?$/] *)
Definition numberPattern : regex :=
  Seq (opt (chr 45)) (Seq (plus digit) (opt (Seq (chr 46) (plus digit)))).

(** [pattern.test(value)] *)
Definition test (pattern : regex) (value : jsstring) : bool := matches pattern value.

(** The predicate of the sampling filter:
    [v && typeof v === "string" && v.trim() !== ""]. *)
Definition sampled (v : value) : bool :=
  truthy v && is_string v &&
  match v with VStr s => negb (is_empty (trim s)) | _ => false end.

Definition string_of (v : value) : jsstring :=
  match v with VStr s => s | _ => [] end.

(** [columnValues.filter(...).slice(0, 100)] *)
Definition sampleValues (columnValues : list value) : list jsstring :=
  firstn 100 (List.map string_of (List.filter sampled columnValues)).

(** The seven counters the [forEach] loop increments. *)
Record counters : Type := {
  zipMatches : nat;
  phoneMatches : nat;
  emailMatches : nat;
  currencyMatches : nat;
  ssnMatches : nat;
  dateMatches : nat;
  numberMatches : nat
}.

Definition bump (hit : bool) (n : nat) : nat := if hit then S n else n.

(** One iteration of the loop body. *)
Definition tally (c : counters) (value : jsstring) : counters :=
  {| zipMatches := bump (test zipPattern value) (zipMatches c);
     phoneMatches := bump (test phonePattern value) (phoneMatches c);
     emailMatches := bump (test emailPattern value) (emailMatches c);
     currencyMatches := bump (test currencyPattern value) (currencyMatches c);
     ssnMatches := bump (test ssnPattern value) (ssnMatches c);
     dateMatches := bump (test datePattern value) (dateMatches c);
     numberMatches := bump (test numberPattern value) (numberMatches c) |}.

Definition zero_counters : counters :=
  {| zipMatches := 0; phoneMatches := 0; emailMatches := 0; currencyMatches := 0;
     ssnMatches := 0; dateMatches := 0; numberMatches := 0 |}.

(** [(matches / total) * 100], in double arithmetic. *)
Definition percent (matched total : nat) : float :=
  PrimFloat.mul (PrimFloat.div (of_nat matched) (of_nat total)) 100.

Definition threshold : float := 60.

(** [percent >= threshold] *)
Definition clears (p : float) : bool := PrimFloat.leb threshold p.

Definition detectColumnType (columnValues : list value) : ColumnType :=
  if (length columnValues =? 0)%nat then Auto
  else
    let sample := sampleValues columnValues in
    if (length sample =? 0)%nat then Auto
    else
      let c := fold_left tally sample zero_counters in
      let total := length sample in
      let zipPercent := percent (zipMatches c) total in
      let phonePercent := percent (phoneMatches c) total in
      let emailPercent := percent (emailMatches c) total in
      let currencyPercent := percent (currencyMatches c) total in
      let ssnPercent := percent (ssnMatches c) total in
      let datePercent := percent (dateMatches c) total in
      let numberPercent := percent (numberMatches c) total in
      if clears emailPercent then Email
      else if clears zipPercent then Zipcode
      else if clears phonePercent then Phone
      else if clears ssnPercent then Ssn
      else if clears currencyPercent then Currency
      else if clears datePercent then Date
      else if clears numberPercent then Number
      else Text.

(** *** The inference rule as the specification words it *)

(** The types in priority order, each with its pattern. *)
Definition priority : list (ColumnType * regex) :=
  [ (Email, emailPattern); (Zipcode, zipPattern); (Phone, phonePattern);
    (Ssn, ssnPattern); (Currency, currencyPattern); (Date, datePattern);
    (Number, numberPattern) ].

(** How many values of the sample a pattern matches. *)
Definition matching (pattern : regex) (sample : list jsstring) : nat :=
  length (List.filter (test pattern) sample).

(** The match-rate over the sample is at least 60%, exactly:
    [matching / |sample| >= 60 / 100]. *)
Definition rate_at_least_60 (pattern : regex) (sample : list jsstring) : bool :=
  (60 * length sample <=? 100 * matching pattern sample)%nat.

(** The non-empty string values of a column, in their order: the values that
    are strings and hold something other than white space. *)
Fixpoint nonEmptyStrings (values : list value) : list jsstring :=
  match values with
  | [] => []
  | VStr s :: rest =>
      if is_empty (trim s) then nonEmptyStrings rest else s :: nonEmptyStrings rest
  | _ :: rest => nonEmptyStrings rest
  end.

(** Up to 100 non-empty string values, the first ones; the first type in
    priority order whose rate over them is at least 60%; [Text] when none is;
    [Auto] on an empty sample. *)
Definition inferType (values : list value) : ColumnType :=
  match firstn 100 (nonEmptyStrings values) with
  | [] => Auto
  | sample =>
      match List.find (fun tp => rate_at_least_60 (snd tp) sample) priority with
      | Some tp => fst tp
      | None => Text
      end
  end.

(** The double comparison and the exact one agree on [matched] out of [total]. *)
Definition threshold_agrees (matched total : nat) : bool :=
  Bool.eqb (clears (percent matched total)) (60 * total <=? 100 * matched)%nat.

(** *** Proofs *)

(** The loop adds, to each counter, the number of sample values its pattern matches. *)
Lemma fold_tally (sample : list jsstring) :
  forall c,
    fold_left tally sample c =
    {| zipMatches := zipMatches c + matching zipPattern sample;
       phoneMatches := phoneMatches c + matching phonePattern sample;
       emailMatches := emailMatches c + matching emailPattern sample;
       currencyMatches := currencyMatches c + matching currencyPattern sample;
       ssnMatches := ssnMatches c + matching ssnPattern sample;
       dateMatches := dateMatches c + matching datePattern sample;
       numberMatches := numberMatches c + matching numberPattern sample |}.
Proof.
  unfold matching.
  induction sample as [| v sample IH]; intros c.
  - destruct c; simpl. f_equal; lia.
  - simpl fold_left. rewrite IH. unfold tally, bump; simpl.
    f_equal;
      match goal with |- context [test ?p v] => destruct (test p v) end; simpl; lia.
Qed.

Lemma matching_le (pattern : regex) (sample : list jsstring) :
  matching pattern sample <= length sample.
Proof. unfold matching. apply List.filter_length_le. Qed.

Lemma sampleValues_length (columnValues : list value) :
  length (sampleValues columnValues) <= 100.
Proof. unfold sampleValues. apply firstn_le_length. Qed.

Lemma sampleValues_in (columnValues : list value) (s : jsstring) :
  In s (sampleValues columnValues) -> In (VStr s) columnValues /\ trim s <> [].
Proof.
  unfold sampleValues. intros H.
  apply in_firstn, in_map_iff in H as (v & <- & Hv).
  apply List.filter_In in Hv as [Hin Hs].
  unfold sampled in Hs.
  destruct v as [| | b | x | t]; simpl in Hs; rewrite ?andb_false_r in Hs;
    try discriminate.
  split; [exact Hin |].
  simpl. intros E. rewrite E in Hs. simpl in Hs. now rewrite andb_false_r in Hs.
Qed.

(** The sampling filter keeps the strings that are not blank. *)
Lemma sampled_string (v : value) :
  sampled v = match v with VStr s => negb (is_empty (trim s)) | _ => false end.
Proof.
  unfold sampled. destruct v as [| | b | x | s]; cbn [truthy is_string andb];
    rewrite ?andb_false_r; try reflexivity.
  destruct s; reflexivity.
Qed.

(** The sample is the first 100 of the non-empty string values. *)
Lemma sampleValues_nonEmptyStrings (columnValues : list value) :
  sampleValues columnValues = firstn 100 (nonEmptyStrings columnValues).
Proof.
  unfold sampleValues. f_equal.
  induction columnValues as [| v vs IH]; [reflexivity |].
  cbn [List.filter nonEmptyStrings]. rewrite sampled_string.
  destruct v as [| | b | x | s]; try exact IH.
  destruct (is_empty (trim s)); cbn [negb map string_of]; [exact IH | now rewrite IH].
Qed.

Lemma nonEmptyStrings_In (values : list value) (s : jsstring) :
  In s (nonEmptyStrings values) <-> In (VStr s) values /\ trim s <> [].
Proof.
  induction values as [| v vs IH]; cbn [nonEmptyStrings In]; [tauto |].
  destruct v as [| | b | x | t]; try (rewrite IH; intuition congruence).
  destruct (is_empty (trim t)) eqn:Et.
  - rewrite IH. split; [tauto |]. intros [[[= ->] | Hin] Hs]; [| tauto].
    destruct (trim s); [congruence | discriminate].
  - cbn [In]. rewrite IH. split.
    + intros [-> | H]; [| tauto]. split; [now left |]. intros E. now rewrite E in Et.
    + intros [[[= ->] | Hin] Hs]; tauto.
Qed.

(** Every sample the function can draw has between 1 and 100 values, and on
    all of them the double computation of the threshold is exact. *)
Lemma threshold_table :
  forallb (fun total => forallb (fun matched => threshold_agrees matched total)
                                (seq 0 (S total)))
          (seq 1 100) = true.
Proof. vm_compute. reflexivity. Qed.

Lemma clears_exact (matched total : nat) :
  1 <= total <= 100 -> matched <= total ->
  clears (percent matched total) = (60 * total <=? 100 * matched)%nat.
Proof.
  intros Ht Hm.
  pose proof threshold_table as T.
  rewrite forallb_forall in T.
  specialize (T total). rewrite in_seq in T.
  assert (Hin : 1 <= total < 1 + 100) by lia.
  apply T in Hin. rewrite forallb_forall in Hin.
  specialize (Hin matched). rewrite in_seq in Hin.
  assert (Hm' : 0 <= matched < 0 + S total) by lia.
  apply Hin in Hm'. unfold threshold_agrees in Hm'.
  now apply Bool.eqb_prop in Hm'.
Qed.

Lemma detectColumnType_inferType (columnValues : list value) :
  detectColumnType columnValues = inferType columnValues.
Proof.
  unfold detectColumnType, inferType. rewrite <- sampleValues_nonEmptyStrings.
  destruct columnValues as [| v0 vs]; [reflexivity |].
  simpl (length (v0 :: vs) =? 0)%nat. cbv iota.
  pose proof (sampleValues_length (v0 :: vs)) as Hlen.
  destruct (sampleValues (v0 :: vs)) as [| s0 sample] eqn:Es; [reflexivity |].
  simpl (length (s0 :: sample) =? 0)%nat. cbv iota zeta.
  rewrite fold_tally. cbn [zipMatches phoneMatches emailMatches currencyMatches
    ssnMatches dateMatches numberMatches zero_counters Nat.add].
  assert (Hb : 1 <= length (s0 :: sample) <= 100) by (simpl in *; lia).
  rewrite !clears_exact by (auto using matching_le).
  unfold priority. cbn [List.find fst snd]. unfold rate_at_least_60.
  repeat match goal with
         | |- context [(?a <=? ?b)%nat] => destruct (a <=? b)%nat
         end; reflexivity.
Qed.

(** The answer depends on the non-empty strings among the values only. *)
Lemma detectColumnType_strings (values values' : list value) :
  nonEmptyStrings values = nonEmptyStrings values' ->
  detectColumnType values = detectColumnType values'.
Proof.
  intros H. rewrite !detectColumnType_inferType. unfold inferType. now rewrite H.
Qed.

(** The patterns on sample texts; the date pattern accepts a text that only
    starts, or only ends, with a date. *)
Example patterns_examples :
  test emailPattern (js "a.b@mail.example") = true /\
  test phonePattern (js "(123) 456-7890") = true /\
  test phonePattern (js "+44 123.456.7890") = true /\
  test ssnPattern (js "123-45-6789") = true /\
  test currencyPattern (js "1,234.50") = true /\
  test currencyPattern [36%N; 32%N; 53%N] = true /\
  test datePattern (js "2024-03-05") = true /\
  test datePattern (js "2024-03-05 (est.)") = true /\
  test datePattern (js "due 3/5/24") = true /\
  test datePattern (js "March 5") = false /\
  test numberPattern (js "-12.5") = true /\
  test numberPattern (js "12.") = false /\
  test zipPattern (js "10001-1234") = true /\
  test zipPattern (js "1000") = false.
Proof. repeat split; vm_compute; reflexivity. Qed.

(** C1. Type inference takes as its sample the first 100 of the column's
    non-empty string values (the strings that hold more than white space), in
    their order, or all of them when there are fewer; it returns the first
    type, in the priority order email, zipcode, phone, ssn, currency, date,
    number, whose match-rate over the sample is at least 60%, [Text] when no
    type reaches 60% and [Auto] when the sample is empty; the column
    ["12345"; "90210"; "10001-1234"] is inferred as [Zipcode]. *)
Theorem detectColumnType_spec :
  (forall columnValues,
      sampleValues columnValues = firstn 100 (nonEmptyStrings columnValues)) /\
  (forall columnValues s,
      In s (nonEmptyStrings columnValues) <-> In (VStr s) columnValues /\ trim s <> []) /\
  (forall columnValues s,
      length (sampleValues columnValues) <= 100 /\
      (In s (sampleValues columnValues) -> In (VStr s) columnValues /\ trim s <> [])) /\
  (forall columnValues, detectColumnType columnValues = inferType columnValues) /\
  List.map fst priority = [Email; Zipcode; Phone; Ssn; Currency; Date; Number] /\
  detectColumnType [VStr (js "12345"); VStr (js "90210"); VStr (js "10001-1234")] = Zipcode.
Proof.
  split; [| split; [| split; [| split; [| split]]]].
  - apply sampleValues_nonEmptyStrings.
  - apply nonEmptyStrings_In.
  - intros columnValues s. split.
    + apply sampleValues_length.
    + apply sampleValues_in.
  - apply detectColumnType_inferType.
  - reflexivity.
  - vm_compute. reflexivity.
Qed.

End TypeInference.

(** ** Header row detection ([ExcelTransformer.detectHeaderRow]) *)

Module HeaderDetection.
Import JS.

(** [rawData]: the sheet as an array of arrays ([sheet_to_json] with
    [header: 1], [defval: ""]). *)
Definition row : Type := list value.
Definition grid : Type := list row.

(** [row.filter(p).length] *)
Definition count (p : value -> bool) (r : row) : nat := length (List.filter p r).

(** [cell !== ""] *)
Definition nonEmptyCount (r : row) : nat := count not_empty_string r.

(** [typeof cell === "string" && cell !== ""] *)
Definition is_text (cell : value) : bool := is_string cell && not_empty_string cell.
Definition stringCells (r : row) : nat := count is_text r.

(** [typeof cell === "number"] *)
Definition numberCells (r : row) : nat := count is_number r.

(** [String(s).length] of a string cell. *)
Definition cell_length (cell : value) : nat :=
  match cell with VStr s => length s | _ => 0 end.

(** [(stringCells / nonEmptyCount) * 100] *)
Definition stringPercent (r : row) : float :=
  PrimFloat.mul (PrimFloat.div (of_nat (stringCells r)) (of_nat (nonEmptyCount r))) 100.

(** [nonEmptyCount / Math.max(1, row.length)] *)
Definition columnsWithValues (r : row) : float :=
  PrimFloat.div (of_nat (nonEmptyCount r)) (of_nat (Nat.max 1 (length r))).

(** [row.filter(...).map((s) => String(s).length).reduce((sum, len) => sum + len, 0)
    / Math.max(1, stringCells)] *)
Definition avgStringLength (r : row) : float :=
  PrimFloat.div
    (fold_left (fun sum len => PrimFloat.add sum (of_nat len))
               (List.map cell_length (List.filter is_text r)) 0%float)
    (of_nat (Nat.max 1 (stringCells r))).

Definition isLikelyHeader (r : row) : bool :=
  (3 <=? stringCells r)%nat
  && PrimFloat.ltb 65 (stringPercent r)
  && PrimFloat.ltb 0.5 (columnsWithValues r)
  && PrimFloat.ltb 0 (avgStringLength r)
  && PrimFloat.ltb (avgStringLength r) 30.

(** [for (let i = start; i < start + n; i++) body]: a body either returns
    from the function ([Some]) or falls through to the next iteration. *)
Fixpoint for_return (body : nat -> option nat) (n i : nat) : option nat :=
  match n with
  | O => None
  | S n' =>
      match body i with
      | Some r => Some r
      | None => for_return body n' (S i)
      end
  end.

(** [rawData[i]] for an index the loop bounds keep inside the array. *)
Definition at_index (rawData : grid) (i : nat) : row := nth i rawData [].

(** The next row has as much content and holds a number: the check that
    "confirms a header pattern". *)
Definition confirms (r nextRow : row) : bool :=
  (nonEmptyCount r <=? nonEmptyCount nextRow)%nat && (0 <? numberCells nextRow)%nat.

(** Body of the first loop ("IMPROVED HEURISTIC"). *)
Definition likelyHeaderAt (rawData : grid) (i : nat) : option nat :=
  let r := at_index rawData i in
  if (nonEmptyCount r <? 3)%nat then None
  else if isLikelyHeader r then
    if (i <? length rawData - 1)%nat && confirms r (at_index rawData (i + 1))
    then Some i
    else Some i
  else None.

Definition likelyHeader (rawData : grid) : option nat :=
  for_return (likelyHeaderAt rawData) (Nat.min 15 (length rawData)) 0.

(** [detectConsistentColumnStructure]: [None] stands for [-1]. *)
Definition detectConsistentColumnStructure (data : grid) : option nat :=
  if (length data <? 3)%nat then None
  else
    let nonEmptyCellsPerRow := List.map nonEmptyCount data in
    for_return
      (fun i =>
         let currentCount := nth i nonEmptyCellsPerRow 0 in
         if (currentCount <? 3)%nat then None
         else if (nth (i + 1) nonEmptyCellsPerRow 0 =? currentCount)%nat
                 && (nth (i + 2) nonEmptyCellsPerRow 0 =? currentCount)%nat
              then Some i
              else None)
      (length nonEmptyCellsPerRow - 2) 0.

(** [analyzeRowTypes] *)
Definition analyzeRowTypes (r : row) : float * float :=
  let nonEmpty := nonEmptyCount r in
  if (nonEmpty =? 0)%nat then (0%float, 0%float)
  else (PrimFloat.mul (PrimFloat.div (of_nat (stringCells r)) (of_nat nonEmpty)) 100,
        PrimFloat.mul (PrimFloat.div (of_nat (numberCells r)) (of_nat nonEmpty)) 100).

(** [detectHeaderByColumnTypes] *)
Definition detectHeaderByColumnTypes (data : grid) : option nat :=
  if (length data <? 3)%nat then None
  else
    for_return
      (fun i =>
         if (nonEmptyCount (at_index data i) <? 3)%nat then None
         else
           let currentRowTypes := analyzeRowTypes (at_index data i) in
           let nextRowTypes := analyzeRowTypes (at_index data (i + 1)) in
           let afterNextRowTypes := analyzeRowTypes (at_index data (i + 2)) in
           if PrimFloat.leb 70 (fst currentRowTypes)
              && (PrimFloat.ltb (snd currentRowTypes) (snd nextRowTypes)
                  || PrimFloat.ltb (snd currentRowTypes) (snd afterNextRowTypes))
           then Some i
           else None)
      (Nat.min 10 (length data - 2)) 0.

(** [strings / nonEmpty > 0.6] *)
Definition mostlyStrings (strings nonEmpty : nat) : bool :=
  PrimFloat.ltb 0.6 (PrimFloat.div (of_nat strings) (of_nat nonEmpty)).

(** The branch taken when a consistent column structure starts at [index]. *)
Definition headerNearStructure (rawData : grid) (index : nat) : nat :=
  let potentialHeaderRow := at_index rawData index in
  if mostlyStrings (stringCells potentialHeaderRow) (nonEmptyCount potentialHeaderRow)
  then index
  else if (0 <? index)%nat
          && mostlyStrings (stringCells (at_index rawData (index - 1)))
                           (Nat.max 1 (nonEmptyCount (at_index rawData (index - 1))))
          && (3 <=? nonEmptyCount (at_index rawData (index - 1)))%nat
       then index - 1
       else index.

(** "HEURISTIC 3" and the final fallback loop. *)
Definition firstMeaningfulRow (rawData : grid) : option nat :=
  for_return
    (fun i =>
       let nonEmptyCells := nonEmptyCount (at_index rawData i) in
       if (3 <=? nonEmptyCells)%nat
          && mostlyStrings (stringCells (at_index rawData i)) nonEmptyCells
       then Some i else None)
    (Nat.min 10 (length rawData)) 0.

Definition firstNonEmptyRow (rawData : grid) : option nat :=
  for_return
    (fun i => if (3 <=? nonEmptyCount (at_index rawData i))%nat then Some i else None)
    (Nat.min 10 (length rawData)) 0.

(** [detectHeaderRow], from the point where the sheet has been read. *)
Definition detectHeaderRow (rawData : grid) : nat :=
  if (length rawData =? 0)%nat then 0
  else
    match likelyHeader rawData with
    | Some i => i
    | None =>
        match detectConsistentColumnStructure rawData with
        | Some columnCountConsistencyIndex =>
            headerNearStructure rawData columnCountConsistencyIndex
        | None =>
            match detectHeaderByColumnTypes rawData with
            | Some headerByTypeIndex => headerByTypeIndex
            | None =>
                match firstMeaningfulRow rawData with
                | Some i => i
                | None =>
                    match firstNonEmptyRow rawData with
                    | Some i => i
                    | None => 0
                    end
                end
            end
        end
    end.

(** The acceptance test of the first pass, as the specification lists it:
    at least 3 non-empty cells, at least 3 string cells, string-percentage
    above 65, filled share of the width above 0.5, average string length
    strictly between 0 and 30. *)
Definition qualifies (r : row) : Prop :=
  3 <= nonEmptyCount r /\
  3 <= stringCells r /\
  PrimFloat.ltb 65 (stringPercent r) = true /\
  PrimFloat.ltb 0.5 (columnsWithValues r) = true /\
  PrimFloat.ltb 0 (avgStringLength r) = true /\
  PrimFloat.ltb (avgStringLength r) 30 = true.

(** The two ratio tests with exact arithmetic: more than 65 in 100 of the
    non-empty cells are strings; more than half of the cells are non-empty. *)
Definition mostly_text (r : row) : Prop := 65 * nonEmptyCount r < 100 * stringCells r.
Definition mostly_filled (r : row) : Prop := length r < 2 * nonEmptyCount r.

(** The double computation of a ratio test agrees with the exact one. *)
Definition percent_agrees (strings nonEmpty : nat) : bool :=
  Bool.eqb
    (PrimFloat.ltb 65 (PrimFloat.mul (PrimFloat.div (of_nat strings) (of_nat nonEmpty)) 100))
    (65 * nonEmpty <? 100 * strings)%nat.

Definition coverage_agrees (nonEmpty width : nat) : bool :=
  Bool.eqb
    (PrimFloat.ltb 0.5 (PrimFloat.div (of_nat nonEmpty) (of_nat (Nat.max 1 width))))
    (width <? 2 * nonEmpty)%nat.

(** The characters the string cells of a row hold together. *)
Definition textLength (r : row) : nat :=
  list_sum (List.map cell_length (List.filter is_text r)).

(** The average length of the string cells lies strictly between 0 and 30,
    with exact arithmetic. *)
Definition label_like (r : row) : Prop :=
  0 < textLength r /\ textLength r < 30 * stringCells r.

(** [p] holds of the [n] machine integers from [i] on. *)
Fixpoint all_from (n : nat) (i : int) (p : int -> bool) : bool :=
  match n with
  | O => true
  | S n' => p i && all_from n' (i + 1)%uint63 p
  end.

(** The double sum of two lengths is their sum. *)
Definition sum_agrees (a b : int) : bool :=
  PrimFloat.Leibniz.eqb (PrimFloat.add (PrimFloat.of_uint63 a) (PrimFloat.of_uint63 b))
                        (PrimFloat.of_uint63 (a + b)%uint63).

(** [sum_agrees] on a triangle of pairs: each of the [n] integers from [a]
    on, the [k]-th of them with every [b] below [n - k]. *)
Fixpoint sums_from (n : nat) (a : int) : bool :=
  match n with
  | O => true
  | S n' => all_from n 0%uint63 (sum_agrees a) && sums_from n' (a + 1)%uint63
  end.

(** The double tests of the average agree with the exact comparisons. *)
Definition average_agrees (count total : int) : bool :=
  let average := PrimFloat.div (PrimFloat.of_uint63 total) (PrimFloat.of_uint63 count) in
  Bool.eqb (PrimFloat.ltb 0 average) (0 <? total)%uint63
  && Bool.eqb (PrimFloat.ltb average 30) (total <? 30 * count)%uint63.

(** The most text, in code units, for which the tests of the average are
    checked against the exact comparisons: 100 cells of 100 units. *)
Definition text_bound : nat := 100 * 100.

(** The grid of the specification's example. *)
Definition example_grid : grid :=
  [ [VStr (js "Q1 Report"); VStr []; VStr []; VStr []];
    [VStr (js "Name"); VStr (js "Age"); VStr (js "Email"); VStr (js "Zip")];
    [VStr (js "Alice"); VNum 30; VStr (js "a@b.com"); VStr (js "12345")] ].

(** A row of three names of 30 letters each, and one whose first name has 29. *)
Definition long_names : row :=
  [VStr (repeat 65%N 30); VStr (repeat 66%N 30); VStr (repeat 67%N 30)].
Definition shorter_names : row :=
  [VStr (repeat 65%N 29); VStr (repeat 66%N 30); VStr (repeat 67%N 30)].

(** Three rows from [i] on with the same number of non-empty cells, at least
    three: what [detectConsistentColumnStructure] looks for. *)
Definition steady (data : grid) (i : nat) : Prop :=
  3 <= nonEmptyCount (at_index data i) /\
  nonEmptyCount (at_index data (i + 1)) = nonEmptyCount (at_index data i) /\
  nonEmptyCount (at_index data (i + 2)) = nonEmptyCount (at_index data i).

(** *** Proofs *)

(** A loop returns at the first index whose body returns. *)
Lemma for_return_Some (body : nat -> option nat) (n : nat) :
  forall start r,
    for_return body n start = Some r <->
    exists i, start <= i < start + n /\ body i = Some r /\
              forall j, start <= j < i -> body j = None.
Proof.
  induction n as [| n IH]; intros start r; simpl.
  - split; [discriminate | intros (i & Hi & _); lia].
  - destruct (body start) as [r0 |] eqn:Eb.
    + split.
      * intros [= <-]. exists start. split; [lia | split; [exact Eb |]].
        intros j Hj. lia.
      * intros (i & Hi & Hr & Hnone).
        destruct (Nat.eq_dec i start) as [-> | Hne]; [congruence |].
        rewrite (Hnone start) in Eb by lia. discriminate.
    + rewrite IH. split.
      * intros (i & Hi & Hr & Hnone). exists i. split; [lia | split; [exact Hr |]].
        intros j Hj. destruct (Nat.eq_dec j start) as [-> | Hne]; [exact Eb |].
        apply Hnone. lia.
      * intros (i & Hi & Hr & Hnone).
        assert (i <> start) by congruence.
        exists i. split; [lia | split; [exact Hr |]].
        intros j Hj. apply Hnone. lia.
Qed.

Lemma isLikelyHeader_true (r : row) :
  isLikelyHeader r = true <->
  3 <= stringCells r /\
  PrimFloat.ltb 65 (stringPercent r) = true /\
  PrimFloat.ltb 0.5 (columnsWithValues r) = true /\
  PrimFloat.ltb 0 (avgStringLength r) = true /\
  PrimFloat.ltb (avgStringLength r) 30 = true.
Proof.
  unfold isLikelyHeader. rewrite !andb_true_iff, Nat.leb_le. tauto.
Qed.

(** What one iteration of the first loop decides, whatever the next row holds. *)
Lemma likelyHeaderAt_Some (rawData : grid) (i r : nat) :
  likelyHeaderAt rawData i = Some r <-> r = i /\ qualifies (at_index rawData i).
Proof.
  unfold likelyHeaderAt, qualifies.
  destruct (nonEmptyCount (at_index rawData i) <? 3)%nat eqn:En.
  - apply Nat.ltb_lt in En. split; [discriminate | intros (_ & H & _); lia].
  - apply Nat.ltb_ge in En.
    destruct (isLikelyHeader (at_index rawData i)) eqn:El.
    + apply isLikelyHeader_true in El.
      destruct ((i <? length rawData - 1)%nat &&
                confirms (at_index rawData i) (at_index rawData (i + 1)));
        (split; [intros [= <-]; tauto | intros [-> _]; reflexivity]).
    + split; [discriminate |].
      intros (_ & _ & H). apply isLikelyHeader_true in H. congruence.
Qed.

Lemma likelyHeaderAt_None (rawData : grid) (i : nat) :
  likelyHeaderAt rawData i = None <-> ~ qualifies (at_index rawData i).
Proof.
  split.
  - intros E Hq.
    assert (H : likelyHeaderAt rawData i = Some i) by (apply likelyHeaderAt_Some; auto).
    congruence.
  - intros Hq. destruct (likelyHeaderAt rawData i) as [r |] eqn:E; [| reflexivity].
    apply likelyHeaderAt_Some in E. tauto.
Qed.

Lemma likelyHeader_Some (rawData : grid) (i : nat) :
  likelyHeader rawData = Some i <->
  i < Nat.min 15 (length rawData) /\ qualifies (at_index rawData i) /\
  forall j, j < i -> ~ qualifies (at_index rawData j).
Proof.
  unfold likelyHeader. rewrite for_return_Some. split.
  - intros (k & Hk & Hr & Hnone).
    apply likelyHeaderAt_Some in Hr as [-> Hq].
    split; [lia | split; [exact Hq |]].
    intros j Hj. apply likelyHeaderAt_None, Hnone. lia.
  - intros (Hi & Hq & Hnone). exists i.
    split; [lia | split; [now apply likelyHeaderAt_Some |]].
    intros j Hj. apply likelyHeaderAt_None, Hnone. lia.
Qed.

Lemma detectHeaderRow_likelyHeader (rawData : grid) (i : nat) :
  likelyHeader rawData = Some i -> detectHeaderRow rawData = i.
Proof.
  intros H. unfold detectHeaderRow. rewrite H.
  apply likelyHeader_Some in H as [Hi _].
  destruct rawData; [simpl in Hi; lia | reflexivity].
Qed.

Lemma at_index_prefix (above : grid) (r : row) (below : grid) (j : nat) :
  j <= length above ->
  at_index (above ++ r :: below) j = at_index (above ++ [r]) j.
Proof.
  intros Hj. unfold at_index.
  replace (above ++ r :: below) with ((above ++ [r]) ++ below)
    by (now rewrite <- app_assoc).
  apply app_nth1. rewrite length_app. simpl. lia.
Qed.

(** *** The ratio tests on rows of at most 100 cells are exact *)

Lemma ratio_tables :
  forallb (fun n => forallb (fun k => percent_agrees k n && coverage_agrees k n)
                            (seq 0 (S n)))
          (seq 0 101) = true.
Proof. vm_compute. reflexivity. Qed.

Lemma ratio_table_entry (k n : nat) :
  k <= n <= 100 -> percent_agrees k n = true /\ coverage_agrees k n = true.
Proof.
  intros H. pose proof ratio_tables as T.
  rewrite forallb_forall in T. specialize (T n).
  rewrite in_seq in T. assert (Hn : 0 <= n < 0 + 101) by lia.
  apply T in Hn. rewrite forallb_forall in Hn. specialize (Hn k).
  rewrite in_seq in Hn. assert (Hk : 0 <= k < 0 + S n) by lia.
  apply Hn in Hk. now apply andb_prop in Hk.
Qed.

Lemma count_le (p q : value -> bool) (r : row) :
  (forall c, p c = true -> q c = true) -> count p r <= count q r.
Proof.
  intros Hpq. unfold count. induction r as [| c r IH]; simpl; [lia |].
  destruct (p c) eqn:Ep.
  - rewrite (Hpq c Ep). simpl. lia.
  - destruct (q c); simpl; lia.
Qed.

Lemma counts_ordered (r : row) : stringCells r <= nonEmptyCount r <= length r.
Proof.
  split.
  - apply count_le. intros c H. unfold is_text in H. now apply andb_prop in H.
  - apply List.filter_length_le.
Qed.

Lemma stringPercent_exact (r : row) :
  length r <= 100 -> PrimFloat.ltb 65 (stringPercent r) = true <-> mostly_text r.
Proof.
  intros Hw. pose proof (counts_ordered r) as [Hs Hn].
  destruct (ratio_table_entry (stringCells r) (nonEmptyCount r)) as [Hp _]; [lia |].
  unfold percent_agrees in Hp. apply Bool.eqb_prop in Hp.
  unfold stringPercent, mostly_text. rewrite Hp. apply Nat.ltb_lt.
Qed.

Lemma columnsWithValues_exact (r : row) :
  length r <= 100 -> PrimFloat.ltb 0.5 (columnsWithValues r) = true <-> mostly_filled r.
Proof.
  intros Hw. pose proof (counts_ordered r) as [Hs Hn].
  destruct (ratio_table_entry (nonEmptyCount r) (length r)) as [_ Hc]; [lia |].
  unfold coverage_agrees in Hc. apply Bool.eqb_prop in Hc.
  unfold columnsWithValues, mostly_filled. rewrite Hc. apply Nat.ltb_lt.
Qed.

Lemma qualifies_exact (r : row) :
  length r <= 100 ->
  qualifies r <->
  3 <= nonEmptyCount r /\ 3 <= stringCells r /\ mostly_text r /\ mostly_filled r /\
  PrimFloat.ltb 0 (avgStringLength r) = true /\
  PrimFloat.ltb (avgStringLength r) 30 = true.
Proof.
  intros Hw. unfold qualifies.
  rewrite (stringPercent_exact r Hw), (columnsWithValues_exact r Hw). tauto.
Qed.

(** *** The tests of the average length are exact on rows within the bound *)

Lemma of_Z_succ (z : Z) : (of_Z z + 1)%uint63 = of_Z (z + 1).
Proof.
  apply to_Z_inj. rewrite Uint63.add_spec, !of_Z_spec, to_Z_1.
  now rewrite Zplus_mod_idemp_l.
Qed.

Lemma all_from_spec (p : int -> bool) (n : nat) :
  forall z, all_from n (of_Z z) p = true ->
            forall k, (z <= k < z + Z.of_nat n)%Z -> p (of_Z k) = true.
Proof.
  induction n as [| n IH]; intros z H k Hk; [lia |].
  cbn [all_from] in H. apply andb_prop in H as [Hz Hrest].
  destruct (Z.eq_dec k z) as [-> | Hne]; [exact Hz |].
  rewrite of_Z_succ in Hrest. apply (IH (z + 1)%Z Hrest). lia.
Qed.

Lemma sums_from_spec (n : nat) :
  forall z, sums_from n (of_Z z) = true ->
            forall a b, (z <= a)%Z -> (0 <= b)%Z -> (a + b < z + Z.of_nat n)%Z ->
                        sum_agrees (of_Z a) (of_Z b) = true.
Proof.
  induction n as [| n IH]; intros z H a b Ha Hb Hab; [lia |].
  cbn [sums_from] in H. apply andb_prop in H as [Hz Hrest].
  destruct (Z.eq_dec a z) as [-> | Hne].
  - apply (all_from_spec _ _ 0%Z Hz). lia.
  - rewrite of_Z_succ in Hrest. apply (IH (z + 1)%Z Hrest); lia.
Qed.

Lemma sum_table : sums_from (S text_bound) 0%uint63 = true.
Proof. vm_compute. reflexivity. Qed.

Lemma average_table :
  all_from 100 1%uint63
    (fun count => all_from (S text_bound) 0%uint63 (average_agrees count)) = true.
Proof. vm_compute. reflexivity. Qed.

Lemma of_nat_of_Z (n : nat) : of_nat n = PrimFloat.of_uint63 (of_Z (Z.of_nat n)).
Proof. reflexivity. Qed.

Lemma to_Z_of_nat (n : nat) :
  (Z.of_nat n <= 1000000)%Z -> to_Z (of_Z (Z.of_nat n)) = Z.of_nat n.
Proof.
  intros H. rewrite of_Z_spec. apply Z.mod_small.
  assert (1000000 < wB)%Z by reflexivity. lia.
Qed.

Lemma sum_exact (a b : nat) :
  a + b <= text_bound ->
  PrimFloat.add (of_nat a) (of_nat b) = of_nat (a + b).
Proof.
  intros H. pose proof (sums_from_spec _ 0%Z sum_table (Z.of_nat a) (Z.of_nat b)) as T.
  unfold sum_agrees in T. rewrite Leibniz.eqb_spec in T.
  rewrite !of_nat_of_Z, T by (unfold text_bound in *; lia).
  f_equal. apply to_Z_inj.
  unfold text_bound in H.
  rewrite Uint63.add_spec, !to_Z_of_nat by lia.
  rewrite Z.mod_small; [lia |]. assert (1000000 < wB)%Z by reflexivity. lia.
Qed.

(** The [reduce] of the lengths, in doubles, adds them up exactly. *)
Lemma fold_sum_exact (lens : list nat) :
  forall acc,
    acc + list_sum lens <= text_bound ->
    fold_left (fun sum len => PrimFloat.add sum (of_nat len)) lens (of_nat acc)
    = of_nat (acc + list_sum lens).
Proof.
  induction lens as [| len lens IH]; intros acc H; cbn [fold_left].
  - cbn [list_sum fold_right]. now rewrite Nat.add_0_r.
  - change (list_sum (len :: lens)) with (len + list_sum lens) in *.
    rewrite sum_exact by (unfold text_bound in *; lia).
    rewrite IH by (unfold text_bound in *; lia). f_equal. lia.
Qed.

Lemma reduce_exact (lens : list nat) :
  list_sum lens <= text_bound ->
  fold_left (fun sum len => PrimFloat.add sum (of_nat len)) lens 0%float
  = of_nat (list_sum lens).
Proof. intros H. now apply (fold_sum_exact lens 0). Qed.

Lemma average_exact (count total : nat) :
  1 <= count <= 100 -> total <= text_bound ->
  PrimFloat.ltb 0 (PrimFloat.div (of_nat total) (of_nat count)) = (0 <? total)%nat /\
  PrimFloat.ltb (PrimFloat.div (of_nat total) (of_nat count)) 30 = (total <? 30 * count)%nat.
Proof.
  intros Hc Ht. unfold text_bound in Ht.
  pose proof (all_from_spec _ _ 1%Z average_table (Z.of_nat count)) as T.
  cbv beta in T. specialize (T ltac:(lia)).
  pose proof (all_from_spec _ _ 0%Z T (Z.of_nat total)) as T'.
  specialize (T' ltac:(unfold text_bound; lia)).
  unfold average_agrees in T'. cbv zeta in T'.
  apply andb_prop in T' as [T0 T30].
  apply Bool.eqb_prop in T0, T30. rewrite !of_nat_of_Z, T0, T30.
  assert (Hw : (1000000 < wB)%Z) by reflexivity.
  split.
  - apply eq_true_iff_eq. rewrite Uint63.ltb_spec, Nat.ltb_lt.
    rewrite to_Z_of_nat, to_Z_0 by lia. lia.
  - apply eq_true_iff_eq. rewrite Uint63.ltb_spec, Nat.ltb_lt.
    rewrite Uint63.mul_spec, !to_Z_of_nat by lia.
    change (to_Z 30) with 30%Z. rewrite Z.mod_small by lia. lia.
Qed.

Lemma textLength_none (r : row) : stringCells r = 0 -> textLength r = 0.
Proof.
  unfold stringCells, count, textLength. intros H.
  apply length_zero_iff_nil in H. now rewrite H.
Qed.

(** On a row of at most 100 cells with at most [text_bound] code units of
    text, the two tests of the average length are the exact comparisons. *)
Lemma avgStringLength_exact (r : row) :
  length r <= 100 -> textLength r <= text_bound ->
  PrimFloat.ltb 0 (avgStringLength r) = true /\
  PrimFloat.ltb (avgStringLength r) 30 = true <-> label_like r.
Proof.
  intros Hw Ht. pose proof (counts_ordered r) as [Hs Hn].
  unfold avgStringLength, label_like.
  rewrite reduce_exact by exact Ht. fold (textLength r).
  destruct (average_exact (Nat.max 1 (stringCells r)) (textLength r)) as [-> ->];
    [lia | exact Ht |].
  rewrite Nat.ltb_lt, Nat.ltb_lt.
  destruct (stringCells r) as [| k] eqn:Ek.
  - rewrite (textLength_none r Ek). cbn. lia.
  - replace (Nat.max 1 (S k)) with (S k) by lia. tauto.
Qed.

Lemma qualifies_exact_text (r : row) :
  length r <= 100 -> textLength r <= text_bound ->
  qualifies r <->
  3 <= nonEmptyCount r /\ 3 <= stringCells r /\ mostly_text r /\ mostly_filled r /\
  0 < textLength r /\ textLength r < 30 * stringCells r.
Proof.
  intros Hw Ht. rewrite (qualifies_exact r Hw).
  pose proof (avgStringLength_exact r Hw Ht) as Ha. unfold label_like in Ha. tauto.
Qed.

(** C2. In the first pass over the first 15 rows, a candidate row (at least 3
    non-empty cells) is accepted as the header iff it has at least 3 string
    cells, string-percentage above 65, filled share above 0.5 and an average
    string length strictly between 0 and 30, the earliest such row winning;
    the rows below it play no part in its acceptance, so the confirming
    check on the next row is not required. On rows of at most 100 cells the
    two ratio tests, computed in doubles, are the exact comparisons, and when
    such a row holds at most [text_bound] code units of text so are the two
    tests of the average: the text is not empty and is shorter than 30 times
    the number of string cells. The example grid yields row 1, in this first
    pass; three names of 30 letters are not accepted, names of 29, 30 and 30
    letters are. *)
Theorem detectHeaderRow_first_pass :
  (forall rawData i,
      likelyHeader rawData = Some i <->
      i < Nat.min 15 (length rawData) /\ qualifies (at_index rawData i) /\
      forall j, j < i -> ~ qualifies (at_index rawData j)) /\
  (forall rawData i, likelyHeader rawData = Some i -> detectHeaderRow rawData = i) /\
  (forall above r below below',
      likelyHeader (above ++ r :: below) = Some (length above) ->
      detectHeaderRow (above ++ r :: below') = length above) /\
  (forall r, length r <= 100 ->
      qualifies r <->
      3 <= nonEmptyCount r /\ 3 <= stringCells r /\ mostly_text r /\ mostly_filled r /\
      PrimFloat.ltb 0 (avgStringLength r) = true /\
      PrimFloat.ltb (avgStringLength r) 30 = true) /\
  (forall r, length r <= 100 -> textLength r <= text_bound ->
      qualifies r <->
      3 <= nonEmptyCount r /\ 3 <= stringCells r /\ mostly_text r /\ mostly_filled r /\
      0 < textLength r /\ textLength r < 30 * stringCells r) /\
  likelyHeader example_grid = Some 1 /\
  detectHeaderRow example_grid = 1 /\
  likelyHeader [long_names] = None /\
  likelyHeader [shorter_names] = Some 0.
Proof.
  split; [| split; [| split; [| split; [| split]]]];
    [| | | apply qualifies_exact | apply qualifies_exact_text |].
  - apply likelyHeader_Some.
  - apply detectHeaderRow_likelyHeader.
  - intros above r below below' H.
    apply detectHeaderRow_likelyHeader.
    apply likelyHeader_Some in H as (Hi & Hq & Hnone).
    apply likelyHeader_Some.
    rewrite length_app in Hi |- *. cbn [length] in Hi |- *.
    split; [lia |].
    rewrite at_index_prefix in Hq |- * by lia.
    split; [exact Hq |].
    intros j Hj. specialize (Hnone j Hj).
    rewrite at_index_prefix in Hnone |- * by lia. exact Hnone.
  - repeat split; vm_compute; reflexivity.
Qed.

(** *** The fallback heuristics *)

Lemma nth_nonEmptyCount (data : grid) (i : nat) :
  nth i (List.map nonEmptyCount data) 0 = nonEmptyCount (at_index data i).
Proof. unfold at_index. apply (map_nth nonEmptyCount data [] i). Qed.

Lemma consistent_body (data : grid) (i r : nat) :
  (let currentCount := nth i (List.map nonEmptyCount data) 0 in
   if (currentCount <? 3)%nat then None
   else if (nth (i + 1) (List.map nonEmptyCount data) 0 =? currentCount)%nat
           && (nth (i + 2) (List.map nonEmptyCount data) 0 =? currentCount)%nat
        then Some i else None) = Some r <-> r = i /\ steady data i.
Proof.
  cbv zeta. rewrite !nth_nonEmptyCount. unfold steady.
  destruct (nonEmptyCount (at_index data i) <? 3)%nat eqn:E3.
  - apply Nat.ltb_lt in E3. split; [discriminate | lia].
  - apply Nat.ltb_ge in E3.
    destruct (_ && _) eqn:E.
    + apply andb_true_iff in E as [E1 E2]. apply Nat.eqb_eq in E1, E2.
      split; [intros [= <-] | intros [-> _]]; auto.
    + apply andb_false_iff in E. rewrite !Nat.eqb_neq in E.
      split; [discriminate | tauto].
Qed.

Lemma consistent_body_None (data : grid) (i : nat) :
  (let currentCount := nth i (List.map nonEmptyCount data) 0 in
   if (currentCount <? 3)%nat then None
   else if (nth (i + 1) (List.map nonEmptyCount data) 0 =? currentCount)%nat
           && (nth (i + 2) (List.map nonEmptyCount data) 0 =? currentCount)%nat
        then Some i else None) = None <-> ~ steady data i.
Proof.
  match goal with |- ?b = None <-> _ => destruct b as [r |] eqn:E end.
  - apply consistent_body in E as [_ Hs]. split; [discriminate | tauto].
  - split; [| reflexivity]. intros _ Hs.
    assert (H : None = Some i) by (rewrite <- E; apply consistent_body; auto).
    discriminate.
Qed.

(** X7. [detectConsistentColumnStructure] returns the earliest row that starts
    three consecutive rows with the same number of non-empty cells, that
    number being at least three, and returns nothing ([-1]) when there is no
    such row; sheets of fewer than three rows have none. *)
Theorem detectConsistentColumnStructure_Some (data : grid) (i : nat) :
  detectConsistentColumnStructure data = Some i <->
  i + 2 < length data /\ steady data i /\ forall j, j < i -> ~ steady data j.
Proof.
  unfold detectConsistentColumnStructure.
  destruct (length data <? 3)%nat eqn:El.
  - apply Nat.ltb_lt in El. split; [discriminate | lia].
  - apply Nat.ltb_ge in El. cbv zeta. rewrite for_return_Some, length_map. split.
    + intros (k & Hk & Hr & Hnone).
      apply (consistent_body data k i) in Hr as [-> Hs].
      split; [lia | split; [exact Hs |]].
      intros j Hj. apply consistent_body_None, Hnone. lia.
    + intros (Hi & Hs & Hnone). exists i.
      split; [lia | split; [now apply (consistent_body data i i) |]].
      intros j Hj. apply (consistent_body_None data j), Hnone. lia.
Qed.

Lemma for_return_found (body : nat -> option nat) (n start r : nat) :
  for_return body n start = Some r ->
  exists i, start <= i < start + n /\ body i = Some r.
Proof. intros H. apply for_return_Some in H as (i & Hi & Hr & _). eauto. Qed.

Lemma for_return_None (body : nat -> option nat) (n : nat) :
  forall start, for_return body n start = None ->
                forall i, start <= i < start + n -> body i = None.
Proof.
  induction n as [| n IH]; intros start H i Hi; [lia |].
  simpl in H. destruct (body start) eqn:Eb; [discriminate |].
  destruct (Nat.eq_dec i start) as [-> | Hne]; [exact Eb |].
  apply (IH (S start) H). lia.
Qed.

Lemma detectConsistentColumnStructure_bounds (data : grid) (i : nat) :
  detectConsistentColumnStructure data = Some i ->
  i + 2 < length data /\ 3 <= nonEmptyCount (at_index data i).
Proof.
  unfold detectConsistentColumnStructure.
  destruct (length data <? 3)%nat eqn:El; [discriminate |].
  apply Nat.ltb_ge in El. cbv zeta. rewrite length_map. intros H.
  apply for_return_found in H as (k & Hk & Hr).
  apply (consistent_body data k i) in Hr as [-> [H3 _]]. split; [lia | exact H3].
Qed.

Lemma headerNearStructure_near (rawData : grid) (index : nat) :
  3 <= nonEmptyCount (at_index rawData index) ->
  headerNearStructure rawData index <= index /\
  3 <= nonEmptyCount (at_index rawData (headerNearStructure rawData index)).
Proof.
  intros H3. unfold headerNearStructure.
  destruct (mostlyStrings _ _); [split; [lia | exact H3] |].
  destruct (_ && _) eqn:E; [| split; [lia | exact H3]].
  apply andb_prop in E as [_ E]. apply Nat.leb_le in E. split; [lia | exact E].
Qed.

Lemma detectHeaderByColumnTypes_Some (data : grid) (i : nat) :
  detectHeaderByColumnTypes data = Some i ->
  i + 2 < length data /\ 3 <= nonEmptyCount (at_index data i).
Proof.
  unfold detectHeaderByColumnTypes.
  destruct (length data <? 3)%nat eqn:El; [discriminate |].
  apply Nat.ltb_ge in El. intros H.
  apply for_return_found in H as (k & Hk & Hr).
  destruct (nonEmptyCount (at_index data k) <? 3)%nat eqn:E3; [discriminate |].
  apply Nat.ltb_ge in E3.
  destruct (_ && _); [| discriminate].
  injection Hr as <-. split; [lia | exact E3].
Qed.

Lemma firstMeaningfulRow_Some (rawData : grid) (i : nat) :
  firstMeaningfulRow rawData = Some i ->
  i < length rawData /\ 3 <= nonEmptyCount (at_index rawData i).
Proof.
  unfold firstMeaningfulRow. intros H.
  apply for_return_found in H as (k & Hk & Hr).
  destruct (_ && _) eqn:E; [| discriminate].
  injection Hr as <-. apply andb_prop in E as [E _]. apply Nat.leb_le in E.
  split; [lia | exact E].
Qed.

Lemma firstNonEmptyRow_Some (rawData : grid) (i : nat) :
  firstNonEmptyRow rawData = Some i ->
  i < length rawData /\ 3 <= nonEmptyCount (at_index rawData i).
Proof.
  unfold firstNonEmptyRow. intros H.
  apply for_return_found in H as (k & Hk & Hr).
  destruct (3 <=? _)%nat eqn:E; [| discriminate].
  injection Hr as <-. apply Nat.leb_le in E. split; [lia | exact E].
Qed.

Lemma firstNonEmptyRow_None (rawData : grid) (i : nat) :
  firstNonEmptyRow rawData = None -> i < Nat.min 10 (length rawData) ->
  nonEmptyCount (at_index rawData i) < 3.
Proof.
  unfold firstNonEmptyRow. intros H Hi.
  pose proof (for_return_None _ _ _ H i) as Hb. cbv beta in Hb.
  specialize (Hb ltac:(lia)).
  destruct (3 <=? _)%nat eqn:E; [discriminate |]. now apply Nat.leb_gt in E.
Qed.

(** X8. Whatever heuristic answers, the detected header row is a row of the
    sheet that holds at least three non-empty cells; the only other outcome is
    row 0, when none of the first ten rows holds three non-empty cells. *)
Theorem detectHeaderRow_choice (rawData : grid) :
  (detectHeaderRow rawData < length rawData /\
   3 <= nonEmptyCount (at_index rawData (detectHeaderRow rawData))) \/
  (detectHeaderRow rawData = 0 /\
   forall i, i < Nat.min 10 (length rawData) -> nonEmptyCount (at_index rawData i) < 3).
Proof.
  unfold detectHeaderRow.
  destruct (length rawData =? 0)%nat eqn:E0.
  { right. apply Nat.eqb_eq in E0. split; [reflexivity |]. intros i Hi. lia. }
  destruct (likelyHeader rawData) as [i |] eqn:E1.
  { left. apply likelyHeader_Some in E1 as (Hi & Hq & _).
    split; [lia | apply Hq]. }
  destruct (detectConsistentColumnStructure rawData) as [c |] eqn:E2.
  { left. apply detectConsistentColumnStructure_bounds in E2 as (Hi & H3).
    destruct (headerNearStructure_near rawData c H3) as [Hle Hn].
    split; [lia | exact Hn]. }
  destruct (detectHeaderByColumnTypes rawData) as [t |] eqn:E3.
  { left. apply detectHeaderByColumnTypes_Some in E3 as [Hi H3]. split; [lia | exact H3]. }
  destruct (firstMeaningfulRow rawData) as [m |] eqn:E4.
  { left. now apply firstMeaningfulRow_Some. }
  destruct (firstNonEmptyRow rawData) as [n |] eqn:E5.
  { left. now apply firstNonEmptyRow_Some. }
  right. split; [reflexivity |]. intros i. now apply firstNonEmptyRow_None.
Qed.

Lemma detectHeaderRow_lt (rawData : grid) :
  rawData <> [] -> detectHeaderRow rawData < length rawData.
Proof.
  intros Hne. unfold detectHeaderRow.
  assert (Hlen : 0 < length rawData) by (destruct rawData; [congruence | simpl; lia]).
  destruct (length rawData =? 0)%nat; [exact Hlen |].
  destruct (likelyHeader rawData) as [i |] eqn:E1.
  { apply likelyHeader_Some in E1 as (Hi & _). lia. }
  destruct (detectConsistentColumnStructure rawData) as [c |] eqn:E2.
  { apply detectConsistentColumnStructure_bounds in E2 as (Hi & H3).
    destruct (headerNearStructure_near rawData c H3) as [Hle _]. lia. }
  destruct (detectHeaderByColumnTypes rawData) as [t |] eqn:E3.
  { apply detectHeaderByColumnTypes_Some in E3 as [Hi _]. lia. }
  destruct (firstMeaningfulRow rawData) as [m |] eqn:E4.
  { now apply firstMeaningfulRow_Some in E4. }
  destruct (firstNonEmptyRow rawData) as [n |] eqn:E5.
  { now apply firstNonEmptyRow_Some in E5. }
  exact Hlen.
Qed.

End HeaderDetection.

(** ** Table materialisation ([ExcelTransformer.processSheetWithCustomHeaders]) *)

Module Materialize.
Import JS.

(** The fields of [ExcelLoadOptions] the function reads. *)
Record ExcelLoadOptions : Type := {
  headerRow : option nat;
  skipRows : option nat
}.

(** Either the value returned or the index reported by
    [throw new Error(`Header row index ${headerRowIndex} is out of bounds`)]. *)
Inductive result (A : Type) : Type :=
| Returned (a : A)
| OutOfBounds (headerRowIndex : nat).
Arguments Returned {A} a.
Arguments OutOfBounds {A} headerRowIndex.

(** [j < row.length ? row[j] : ""] *)
Definition cellAt (r : list value) (j : nat) : value :=
  if (j <? length r)%nat then nth j r (VStr []) else VStr [].

(** A row object: the properties of its own, and whether its prototype is
    still [Object.prototype], as it is for the literal [{}], or [null]. *)
Record object : Type := {
  own : gmap jsstring value;
  inherits : bool
}.

(** [{}] *)
Definition emptyObject : object := {| own := ∅; inherits := true |}.

(** [Object.keys(obj)], as a set. *)
Definition keys (obj : object) : gset jsstring := dom (own obj).

(** The name under which [Object.prototype] holds the accessor of an
    object's prototype. *)
Definition proto : jsstring := js "__proto__".

(** [obj[key] = cell], for a cell of a sheet. A property the object has of
    its own is overwritten. For one it has not, the assignment goes up the
    prototype chain: under ["__proto__"] it finds the setter of
    [Object.prototype], which sets the prototype of [obj] to [null] when the
    cell is [null] and ignores a cell that is not an object; under any other
    name, and for an object whose prototype is [null], it creates the
    property. *)
Definition setProperty (key : jsstring) (cell : value) (obj : object) : object :=
  match own obj !! key with
  | Some _ => {| own := <[key := cell]> (own obj); inherits := inherits obj |}
  | None =>
      if inherits obj && str_eqb key proto then
        match cell with
        | VNull => {| own := own obj; inherits := false |}
        | _ => obj
        end
      else {| own := <[key := cell]> (own obj); inherits := inherits obj |}
  end.

(** The inner loop from column [j] on: [obj[headers[j]] = ...] for each
    remaining header. *)
Fixpoint assign (headers : list jsstring) (j : nat) (r : list value)
    (obj : object) : object :=
  match headers with
  | [] => obj
  | h :: headers' => assign headers' (S j) r (setProperty h (cellAt r j) obj)
  end.

(** The object built for one data row. *)
Definition rowObject (headers : list jsstring) (r : list value) : object :=
  assign headers 0 r emptyObject.

Section WithBuiltins.
Context (B : Builtins).

(** [header ? String(header).trim() : `Column${index + 1}`] *)
Definition headerName (index : nat) (header : value) : jsstring :=
  if truthy header then trim (ToString B header)
  else js "Column" ++ nat_to_string (index + 1).

(** [rawData[headerRowIndex].map((header, index) => ...)] *)
Definition headersOf (r : list value) : list jsstring := imap headerName r.

Definition processSheetWithCustomHeaders (rawData : list (list value))
    (options : ExcelLoadOptions) : result (list object) :=
  if (length rawData =? 0)%nat then Returned []
  else
    let headerRowIndex :=
      match headerRow options with
      | Some h => h
      | None => match skipRows options with Some n => n | None => 0 end
      end in
    if (length rawData <=? headerRowIndex)%nat then OutOfBounds headerRowIndex
    else
      let headers := headersOf (nth headerRowIndex rawData []) in
      let dataStartRow := headerRowIndex + 1 in
      Returned (List.map (rowObject headers) (skipn dataStartRow rawData)).

(** [materialize(G, h)]: the table for grid [G] with the header at row [h]. *)
Definition materialize (G : list (list value)) (h : nat) : result (list object) :=
  processSheetWithCustomHeaders G {| headerRow := Some h; skipRows := None |}.

End WithBuiltins.

(** Two example grids: the one of the specification's header example, cut at
    its header row, with a short last row; and one with a repeated header. *)
Definition people_grid : list (list value) :=
  [ [VStr (js "Name"); VStr (js "Age"); VStr (js "Email"); VStr (js "Zip")];
    [VStr (js "Alice"); VNum 30; VStr (js "a@b.com"); VStr (js "12345")];
    [VStr (js "Bob"); VNum 41] ].

Definition repeated_header_grid : list (list value) :=
  [ [VStr (js "a"); VStr (js "a")];
    [VStr (js "x"); VStr (js "y")] ].

(** A sheet with two columns headed ["__proto__"], the first of them holding
    a [null] cell in the first data row. *)
Definition proto_header_grid : list (list value) :=
  [ [VStr proto; VStr proto; VStr (js "a")];
    [VNull; VStr (js "p"); VStr (js "x")];
    [VStr (js "q"); VStr (js "r"); VStr (js "y")] ].

(** *** Proofs *)

(** An assignment touches no property but the one it names. *)
Lemma setProperty_other (key key' : jsstring) (cell : value) (obj : object) :
  key' <> key -> own (setProperty key cell obj) !! key' = own obj !! key'.
Proof.
  intros Hne. unfold setProperty.
  destruct (own obj !! key); cbn [own].
  - now rewrite lookup_insert_ne.
  - destruct (inherits obj && str_eqb key proto).
    + now destruct cell.
    + cbn [own]. now rewrite lookup_insert_ne.
Qed.

(** Under a name other than ["__proto__"] the property holds the cell. *)
Lemma setProperty_same (key : jsstring) (cell : value) (obj : object) :
  key <> proto -> own (setProperty key cell obj) !! key = Some cell.
Proof.
  intros Hne. unfold setProperty.
  assert (E : str_eqb key proto = false) by now apply bool_decide_eq_false.
  rewrite E, andb_false_r.
  destruct (own obj !! key); cbn [own]; apply lookup_insert_eq.
Qed.

Lemma keys_setProperty_subseteq (key : jsstring) (cell : value) (obj : object) :
  keys (setProperty key cell obj) ⊆ {[key]} ∪ keys obj.
Proof.
  unfold keys, setProperty.
  destruct (own obj !! key); cbn [own].
  - rewrite dom_insert_L. set_solver.
  - destruct (inherits obj && str_eqb key proto).
    + destruct cell; cbn [own]; set_solver.
    + cbn [own]. rewrite dom_insert_L. set_solver.
Qed.

Lemma keys_setProperty (key : jsstring) (cell : value) (obj : object) :
  key <> proto -> keys (setProperty key cell obj) = {[key]} ∪ keys obj.
Proof.
  intros Hne. unfold keys, setProperty.
  assert (E : str_eqb key proto = false) by now apply bool_decide_eq_false.
  rewrite E, andb_false_r.
  destruct (own obj !! key); cbn [own]; now rewrite dom_insert_L.
Qed.

Lemma keys_assign_subseteq (headers : list jsstring) (r : list value) :
  forall j (obj : object),
    keys (assign headers j r obj) ⊆ keys obj ∪ list_to_set headers.
Proof.
  induction headers as [| h headers IH]; intros j obj; cbn [assign].
  - set_solver.
  - etransitivity; [apply IH |].
    pose proof (keys_setProperty_subseteq h (cellAt r j) obj). set_solver.
Qed.

Lemma keys_assign (headers : list jsstring) (r : list value) :
  forall j (obj : object),
    ~ In proto headers ->
    keys (assign headers j r obj) = keys obj ∪ list_to_set headers.
Proof.
  induction headers as [| h headers IH]; intros j obj Hp; cbn [assign].
  - set_solver.
  - rewrite IH by (intros Hin; apply Hp; now right).
    rewrite keys_setProperty by (intros ->; apply Hp; now left).
    set_solver.
Qed.

Lemma assign_app (pre post : list jsstring) (r : list value) :
  forall j (obj : object),
    assign (pre ++ post) j r obj = assign post (j + length pre) r (assign pre j r obj).
Proof.
  induction pre as [| h pre IH]; intros j obj; simpl.
  - now rewrite Nat.add_0_r.
  - rewrite IH. f_equal. lia.
Qed.

Lemma assign_notin (headers : list jsstring) (r : list value) (key : jsstring) :
  forall j (obj : object),
    ~ In key headers -> own (assign headers j r obj) !! key = own obj !! key.
Proof.
  induction headers as [| h headers IH]; intros j obj Hnot; simpl.
  - reflexivity.
  - rewrite IH by (intros Hin; apply Hnot; now right).
    apply setProperty_other. intros ->. apply Hnot. now left.
Qed.

(** Past the end of the data row every assignment writes the empty string. *)
Lemma assign_padding (headers : list jsstring) (r : list value) (key : jsstring) :
  forall j (obj : object),
    key <> proto ->
    length r <= j ->
    In key headers \/ own obj !! key = Some (VStr []) ->
    own (assign headers j r obj) !! key = Some (VStr []).
Proof.
  induction headers as [| h headers IH]; intros j obj Hp Hj Hkey; simpl.
  - destruct Hkey as [[] | Hobj]. exact Hobj.
  - apply IH; [exact Hp | lia |].
    assert (Hcell : cellAt r j = VStr []).
    { unfold cellAt. destruct (j <? length r)%nat eqn:E; [| reflexivity].
      apply Nat.ltb_lt in E. lia. }
    destruct (decide (h = key)) as [-> | Hne].
    + right. rewrite setProperty_same by exact Hp. now rewrite Hcell.
    + destruct Hkey as [[Heq | Hin] | Hobj]; [congruence | now left |].
      right. now rewrite setProperty_other by congruence.
Qed.

(** With pairwise distinct headers, each key other than ["__proto__"] holds
    its own column's cell. *)
Lemma assign_NoDup (headers : list jsstring) (r : list value) :
  forall j (obj : object) k key,
    NoDup headers -> headers !! k = Some key -> key <> proto ->
    own (assign headers j r obj) !! key = Some (cellAt r (j + k)).
Proof.
  induction headers as [| h headers IH]; intros j obj k key Hnd Hk Hp; [discriminate |].
  apply NoDup_cons in Hnd as [Hnot Hnd]. simpl.
  destruct k as [| k]; simpl in Hk.
  - injection Hk as ->. rewrite assign_notin.
    + rewrite setProperty_same by exact Hp. now rewrite Nat.add_0_r.
    + now rewrite <- list_elem_of_In.
  - rewrite (IH (S j) _ k key Hnd Hk Hp). f_equal. f_equal. lia.
Qed.

Lemma rowObject_padding (headers : list jsstring) (r : list value) (j : nat)
    (key : jsstring) :
  headers !! j = Some key -> length r <= j -> key <> proto ->
  own (rowObject headers r) !! key = Some (VStr []).
Proof.
  intros Hj Hlen Hp. unfold rowObject.
  rewrite <- (take_drop j headers), assign_app.
  apply assign_padding; [exact Hp | |].
  - rewrite length_take. apply lookup_lt_Some in Hj. lia.
  - left. rewrite (drop_S _ _ _ Hj). now left.
Qed.

Lemma keys_rowObject_subseteq (headers : list jsstring) (r : list value) :
  keys (rowObject headers r) ⊆ list_to_set headers.
Proof.
  unfold rowObject. etransitivity; [apply keys_assign_subseteq |].
  unfold keys, emptyObject. cbn [own]. set_solver.
Qed.

Lemma keys_rowObject (headers : list jsstring) (r : list value) :
  ~ In proto headers -> keys (rowObject headers r) = list_to_set headers.
Proof.
  intros Hp. unfold rowObject. rewrite keys_assign by exact Hp.
  unfold keys, emptyObject. cbn [own]. set_solver.
Qed.

(** A list has at least as many elements as distinct ones. *)
Lemma size_list_to_set_le (l : list jsstring) :
  size (list_to_set l : gset jsstring) <= length l.
Proof.
  induction l as [| key l IH]; cbn [length].
  - now rewrite list_to_set_nil, size_empty.
  - rewrite list_to_set_cons.
    destruct (decide (key ∈ (list_to_set l : gset jsstring))) as [Hin | Hnot].
    + replace ({[key]} ∪ list_to_set l) with (list_to_set l : gset jsstring)
        by set_solver.
      lia.
    + rewrite size_union by set_solver. rewrite size_singleton. lia.
Qed.

(** An assignment under another name leaves the prototype as it is. *)
Lemma setProperty_inherits (key : jsstring) (cell : value) (obj : object) :
  key <> proto -> inherits (setProperty key cell obj) = inherits obj.
Proof.
  intros Hne. unfold setProperty.
  assert (E : str_eqb key proto = false) by now apply bool_decide_eq_false.
  rewrite E, andb_false_r. now destruct (own obj !! key).
Qed.

(** No assignment removes a property. *)
Lemma setProperty_keeps (key key' : jsstring) (cell : value) (obj : object) :
  is_Some (own obj !! key') -> is_Some (own (setProperty key cell obj) !! key').
Proof.
  intros Hk. destruct (decide (key' = key)) as [-> | Hne].
  - unfold setProperty. destruct Hk as [v Hv]. rewrite Hv. cbn [own].
    rewrite lookup_insert_eq. eauto.
  - now rewrite setProperty_other.
Qed.

Lemma assign_keeps (headers : list jsstring) (r : list value) (key : jsstring) :
  forall j (obj : object),
    is_Some (own obj !! key) -> is_Some (own (assign headers j r obj) !! key).
Proof.
  induction headers as [| h headers IH]; intros j obj Hk; cbn [assign]; [exact Hk |].
  apply IH. now apply setProperty_keeps.
Qed.

(** The keys other than ["__proto__"] are those the object had and the headers. *)
Lemma assign_keys_other (headers : list jsstring) (r : list value) (key : jsstring) :
  key <> proto ->
  forall j (obj : object),
    is_Some (own (assign headers j r obj) !! key) <->
    is_Some (own obj !! key) \/ In key headers.
Proof.
  intros Hp. induction headers as [| h headers IH]; intros j obj; cbn [assign In].
  - tauto.
  - rewrite IH. destruct (decide (h = key)) as [-> | Hne].
    + rewrite setProperty_same by exact Hp. split; [intros _; right; now left |].
      intros _. left. eauto.
    + rewrite setProperty_other by congruence. tauto.
Qed.

(** Once the prototype is [null], the first column headed ["__proto__"]
    creates the key. *)
Lemma assign_proto_loose (headers : list jsstring) (r : list value) :
  forall j (obj : object),
    inherits obj = false -> own obj !! proto = None ->
    is_Some (own (assign headers j r obj) !! proto) <-> In proto headers.
Proof.
  induction headers as [| h headers IH]; intros j obj Hi Hn; cbn [assign In].
  - rewrite Hn. split; [intros [v Hv]; discriminate | tauto].
  - destruct (decide (h = proto)) as [-> | Hne].
    + split; [intros _; now left | intros _].
      apply assign_keeps. unfold setProperty. rewrite Hn, Hi. cbn [andb own].
      rewrite lookup_insert_eq. eauto.
    + rewrite IH.
      * split; [tauto | intros [E | H]; [congruence | exact H]].
      * now rewrite setProperty_inherits.
      * now rewrite setProperty_other by congruence.
Qed.

(** On an object that inherits from [Object.prototype], ["__proto__"] becomes
    a key when a column so headed holds [null] and another such column follows. *)
Lemma assign_proto_key (headers : list jsstring) (r : list value) :
  forall j (obj : object),
    inherits obj = true -> own obj !! proto = None ->
    is_Some (own (assign headers j r obj) !! proto) <->
    exists j0 j1, j0 < j1 /\ headers !! j0 = Some proto /\ headers !! j1 = Some proto /\
                  cellAt r (j + j0) = VNull.
Proof.
  induction headers as [| h headers IH]; intros j obj Hi Hn; cbn [assign].
  - rewrite Hn. split; [intros [v Hv]; discriminate |].
    intros (j0 & j1 & _ & H & _). discriminate.
  - assert (Hshift : (exists j0 j1, j0 < j1 /\ headers !! j0 = Some proto /\
                        headers !! j1 = Some proto /\ cellAt r (S j + j0) = VNull) ->
                     exists j0 j1, j0 < j1 /\ (h :: headers) !! j0 = Some proto /\
                        (h :: headers) !! j1 = Some proto /\ cellAt r (j + j0) = VNull).
    { intros (j0 & j1 & Hlt & H0 & H1 & Hc). exists (S j0), (S j1).
      split; [lia |]. split; [exact H0 |]. split; [exact H1 |].
      now replace (j + S j0) with (S j + j0) by lia. }
    destruct (decide (h = proto)) as [-> | Hne].
    + unfold setProperty. rewrite Hn, Hi.
      assert (Ep : str_eqb proto proto = true) by now apply bool_decide_eq_true.
      rewrite Ep. cbn [andb].
      destruct (cellAt r j) eqn:Ec;
        try (rewrite (IH (S j) obj Hi Hn); split; [exact Hshift |];
             intros (j0 & j1 & Hlt & H0 & H1 & Hc);
             destruct j0 as [| j0];
               [rewrite Nat.add_0_r in Hc; congruence |];
             destruct j1 as [| j1]; [lia |];
             exists j0, j1; split; [lia |]; split; [exact H0 |]; split; [exact H1 |];
             now replace (S j + j0) with (j + S j0) by lia).
      rewrite assign_proto_loose by (cbn [inherits own]; auto).
      split.
      * intros Hin. apply list_elem_of_In, list_elem_of_lookup in Hin as [j1 H1].
        exists 0, (S j1). split; [lia |]. split; [reflexivity |]. split; [exact H1 |].
        now rewrite Nat.add_0_r.
      * intros (j0 & j1 & Hlt & _ & H1 & _). destruct j1 as [| j1]; [lia |].
        apply list_elem_of_In, list_elem_of_lookup. now exists j1.
    + rewrite IH.
      * split; [exact Hshift |].
        intros (j0 & j1 & Hlt & H0 & H1 & Hc).
        destruct j0 as [| j0]; [simpl in H0; congruence |].
        destruct j1 as [| j1]; [lia |].
        exists j0, j1. split; [lia |]. split; [exact H0 |]. split; [exact H1 |].
        now replace (S j + j0) with (j + S j0) by lia.
      * now rewrite setProperty_inherits.
      * now rewrite setProperty_other by congruence.
Qed.

(** The keys of a row object: every header but ["__proto__"], and that one
    when a column so headed holds [null] in the row and another follows it. *)
Lemma keys_rowObject_iff (headers : list jsstring) (r : list value) (key : jsstring) :
  key ∈ keys (rowObject headers r) <->
  if str_eqb key proto
  then exists j0 j1, j0 < j1 /\ headers !! j0 = Some proto /\ headers !! j1 = Some proto /\
                     cellAt r j0 = VNull
  else In key headers.
Proof.
  unfold keys, rowObject. rewrite elem_of_dom.
  unfold str_eqb. destruct (bool_decide (key = proto)) eqn:E.
  - apply bool_decide_eq_true in E as ->.
    now rewrite assign_proto_key by reflexivity.
  - apply bool_decide_eq_false in E.
    rewrite assign_keys_other by exact E.
    unfold emptyObject. cbn [own]. rewrite lookup_empty.
    split; [intros [[v Hv] | H]; [discriminate | exact H] | tauto].
Qed.

Lemma headersOf_length (B : Builtins) (r : list value) :
  length (headersOf B r) = length r.
Proof. unfold headersOf. apply length_imap. Qed.

Lemma headersOf_lookup (B : Builtins) (r : list value) (i : nat) (header : value) :
  r !! i = Some header -> headersOf B r !! i = Some (headerName B i header).
Proof. intros H. unfold headersOf. now rewrite list_lookup_imap, H. Qed.

Lemma materialize_Returned (B : Builtins) (G : list (list value)) (h : nat) :
  h < length G ->
  materialize B G h =
  Returned (List.map (rowObject (headersOf B (nth h G []))) (skipn (h + 1) G)).
Proof.
  intros Hh. unfold materialize, processSheetWithCustomHeaders. simpl.
  destruct G as [| r0 G']; [simpl in Hh; lia |].
  simpl (length (r0 :: G') =? 0)%nat. cbv iota.
  destruct (length (r0 :: G') <=? h)%nat eqn:E; [| reflexivity].
  apply Nat.leb_le in E. lia.
Qed.

Lemma cellAt_null (r : list value) (j : nat) :
  cellAt r j = VNull <-> r !! j = Some VNull.
Proof.
  unfold cellAt. split.
  - destruct (j <? length r)%nat eqn:E; [| discriminate].
    apply Nat.ltb_lt, lookup_lt_is_Some in E as [x Hx].
    rewrite (nth_lookup_Some _ _ _ _ Hx). now intros ->.
  - intros H. pose proof (lookup_lt_Some _ _ _ H) as Hlt.
    apply Nat.ltb_lt in Hlt. rewrite Hlt. now apply nth_lookup_Some.
Qed.

(** C3 (amended). For a header index within bounds, materialising returns one
    row object per grid row below the header. Every row object has every key
    derived from the header row other than ["__proto__"], and no other key
    but, possibly, ["__proto__"]: that one it has exactly when two columns
    derive it and the row holds [null] in one of them that another follows.
    So the keys of a row are among the derived keys, never more than the
    header row has cells. When no derived key is ["__proto__"], every row
    object has exactly the derived keys, so all rows share one key set, and
    the number of keys equals the header row's cell count when the derived
    keys are pairwise distinct. A key other than ["__proto__"] whose column
    lies past the end of a data row holds the empty string. *)
Theorem materialize_rows (B : Builtins) (G : list (list value)) (h : nat) :
  h < length G ->
  exists rows : list object,
    materialize B G h = Returned rows /\
    length rows = length G - (h + 1) /\
    (forall k r obj,
        skipn (h + 1) G !! k = Some r -> rows !! k = Some obj ->
        (forall key, key <> proto ->
                     key ∈ keys obj <-> In key (headersOf B (nth h G []))) /\
        (proto ∈ keys obj <->
         exists j0 j1, j0 < j1 /\
                       headersOf B (nth h G []) !! j0 = Some proto /\
                       headersOf B (nth h G []) !! j1 = Some proto /\
                       r !! j0 = Some VNull)) /\
    (forall obj, In obj rows -> keys obj ⊆ list_to_set (headersOf B (nth h G []))) /\
    (forall obj, In obj rows -> size (keys obj) <= length (nth h G [])) /\
    (~ In proto (headersOf B (nth h G [])) ->
     (forall obj, In obj rows -> keys obj = list_to_set (headersOf B (nth h G []))) /\
     (forall obj1 obj2, In obj1 rows -> In obj2 rows -> keys obj1 = keys obj2) /\
     (NoDup (headersOf B (nth h G [])) ->
      forall obj, In obj rows -> size (keys obj) = length (nth h G []))) /\
    (forall k r obj j key,
        skipn (h + 1) G !! k = Some r -> rows !! k = Some obj ->
        headersOf B (nth h G []) !! j = Some key -> length r <= j ->
        key <> proto ->
        own obj !! key = Some (VStr [])).
Proof.
  intros Hh. eexists. split; [now apply materialize_Returned |].
  set (headers := headersOf B (nth h G [])).
  assert (Hsub : forall obj, In obj (List.map (rowObject headers) (skipn (h + 1) G)) ->
                             keys obj ⊆ list_to_set headers).
  { intros obj Hin. apply in_map_iff in Hin as (r & <- & _).
    apply keys_rowObject_subseteq. }
  assert (Hdom : ~ In proto headers ->
                 forall obj, In obj (List.map (rowObject headers) (skipn (h + 1) G)) ->
                             keys obj = list_to_set headers).
  { intros Hp obj Hin. apply in_map_iff in Hin as (r & <- & _).
    now apply keys_rowObject. }
  split; [| split; [| split; [| split; [| split]]]].
  - rewrite length_map, length_skipn. reflexivity.
  - intros k r obj Hr Hobj.
    rewrite list_lookup_fmap, Hr in Hobj. injection Hobj as <-.
    split.
    + intros key Hp. rewrite keys_rowObject_iff.
      assert (E : str_eqb key proto = false) by now apply bool_decide_eq_false.
      now rewrite E.
    + rewrite keys_rowObject_iff.
      assert (E : str_eqb proto proto = true) by now apply bool_decide_eq_true.
      rewrite E. now setoid_rewrite cellAt_null.
  - exact Hsub.
  - intros obj Hin. rewrite <- (headersOf_length B (nth h G [])). fold headers.
    etransitivity; [apply subseteq_size, (Hsub obj Hin) | apply size_list_to_set_le].
  - intros Hp. split; [now apply Hdom | split].
    + intros obj1 obj2 H1 H2. now rewrite (Hdom Hp obj1 H1), (Hdom Hp obj2 H2).
    + intros Hnd obj Hin. rewrite (Hdom Hp obj Hin), size_list_to_set by exact Hnd.
      apply headersOf_length.
  - intros k r obj j key Hr Hobj Hkey Hlen Hp.
    rewrite list_lookup_fmap, Hr in Hobj. injection Hobj as <-.
    now apply (rowObject_padding headers r j key).
Qed.

(** X6. On a grid with rows, a header index at or past the row count is
    reported as out of bounds; on a grid without rows the result is the empty
    table, whatever the index. *)
Theorem materialize_out_of_bounds (B : Builtins) (G : list (list value)) (h : nat) :
  (G <> [] -> length G <= h -> materialize B G h = OutOfBounds h) /\
  materialize B [] h = Returned [].
Proof.
  split; [| reflexivity].
  intros Hne Hh. unfold materialize, processSheetWithCustomHeaders.
  destruct G as [| r0 G']; [congruence |].
  cbn [length Nat.eqb headerRow]. apply Nat.leb_le in Hh. cbn [length] in Hh.
  now rewrite Hh.
Qed.

(** The hypothesis of [materialize_rows] holds on the example grid, which
    yields two row objects. *)
Lemma materialize_rows_witness :
  0 < length people_grid /\
  exists rows : list object,
    materialize example_builtins people_grid 0 = Returned rows /\ length rows = 2.
Proof.
  assert (H : 0 < length people_grid) by (simpl; lia).
  split; [exact H |].
  destruct (materialize_rows example_builtins people_grid 0 H) as (rows & E & Hlen & _).
  exists rows. split; [exact E | exact Hlen].
Defined.

(** C3 as stated fails: with the header row [["a"; "a"]] the only row
    object has one key, not as many as the header row has cells. *)
Lemma materialize_repeated_header_key_count :
  exists obj : object,
    materialize example_builtins repeated_header_grid 0 = Returned [obj] /\
    size (keys obj) = 1 /\
    length (nth 0 repeated_header_grid []) = 2.
Proof.
  eexists. split; [reflexivity |]. split; vm_compute; reflexivity.
Qed.

(** C4 (amended). The key of column [i] is the header cell's string value
    trimmed whenever the cell is truthy (a non-empty string, a non-zero
    number, [true]), so a string cell that is not empty but blank gets the
    empty key; it is the synthetic key [Column{i+1}] when the cell is the
    empty string or otherwise falsy; cells that repeat a header keep the
    repeated key. *)
Theorem headersOf_keys (B : Builtins) (r : list value) (i : nat) (header : value) :
  r !! i = Some header ->
  exists key,
    headersOf B r !! i = Some key /\
    (truthy header = true -> key = trim (ToString B header)) /\
    (forall s, header = VStr s -> s <> [] -> key = trim s) /\
    (forall s, header = VStr s -> s <> [] -> trim s = [] -> key = []) /\
    (truthy header = false -> key = js "Column" ++ nat_to_string (i + 1)) /\
    (header = VStr [] -> key = js "Column" ++ nat_to_string (i + 1)) /\
    (forall i', truthy header = true -> r !! i' = Some header ->
                headersOf B r !! i' = Some key).
Proof.
  intros Hi. exists (headerName B i header).
  split; [now apply headersOf_lookup |].
  unfold headerName.
  split; [| split; [| split; [| split; [| split]]]].
  - intros ->. reflexivity.
  - intros s -> Hs. destruct s; [now elim Hs | reflexivity].
  - intros s -> Hs Hblank. destruct s; [now elim Hs |]. exact Hblank.
  - intros ->. reflexivity.
  - intros ->. reflexivity.
  - intros i' Ht Hi'. rewrite (headersOf_lookup B r i' header Hi').
    unfold headerName. now rewrite Ht.
Qed.

(** [headersOf_keys] at the example header row: column 1 is keyed ["Age"]. *)
Lemma headersOf_keys_witness :
  nth 0 people_grid [] !! 1 = Some (VStr (js "Age")) /\
  exists key, headersOf example_builtins (nth 0 people_grid []) !! 1 = Some key /\
              key = js "Age".
Proof.
  assert (H : nth 0 people_grid [] !! 1 = Some (VStr (js "Age"))) by reflexivity.
  split; [exact H |].
  destruct (headersOf_keys example_builtins (nth 0 people_grid []) 1 (VStr (js "Age")) H)
    as (key & E & _ & Hs & _).
  exists key. split; [exact E |].
  rewrite (Hs (js "Age") eq_refl); [reflexivity | discriminate].
Defined.

(** A header row with a padded name, an empty cell, a zero and a number. *)
Example headersOf_example (B : Builtins) :
  headersOf B [VStr (js " Zip "); VStr []; VNum 0; VStr (js "Name")]
  = [js "Zip"; js "Column2"; js "Column3"; js "Name"].
Proof. reflexivity. Qed.

(** C4 as stated fails: the second of two equal header cells keeps the key
    ["a"] and is not renamed to ["Column2"]; and a header cell holding one
    space, whose trimmed value is empty, gets the empty key and not
    ["Column1"]. *)
Lemma headersOf_repeated_header :
  headersOf example_builtins (nth 0 repeated_header_grid []) = [js "a"; js "a"] /\
  js "a" <> js "Column" ++ nat_to_string (1 + 1) /\
  trim (js " ") = [] /\
  headersOf example_builtins [VStr (js " ")] = [[]] /\
  [] <> js "Column" ++ nat_to_string (0 + 1).
Proof.
  repeat split; try reflexivity; discriminate.
Qed.

(** A column headed ["__proto__"] is assigned through the setter the row
    object inherits. Its text cells are dropped: the header row
    [["__proto__"; "b"]] over [["x"; "y"]] gives the one object [{b: "y"}].
    A [null] cell cuts the prototype loose, after which the name is a key
    like any other: in [proto_header_grid] the first row object has the keys
    ["__proto__"] and ["a"], the second only ["a"]. *)
Example materialize_proto_header :
  materialize example_builtins [[VStr proto; VStr (js "b")]; [VStr (js "x"); VStr (js "y")]] 0
  = Returned [ {| own := {[ js "b" := VStr (js "y") ]}; inherits := true |} ] /\
  materialize example_builtins proto_header_grid 0
  = Returned [ {| own := {[ proto := VStr (js "p"); js "a" := VStr (js "x") ]};
                  inherits := false |};
               {| own := {[ js "a" := VStr (js "y") ]}; inherits := true |} ].
Proof. split; vm_compute; reflexivity. Qed.

End Materialize.

(** ** Row filters ([applyFilters], TransformationPage.tsx) *)

Module Filters.
Import JS.

(** [FilterOperation]; [OpOther] stands for any other string, which the
    [switch] sends to its [default] case. *)
Inductive FilterOperation : Type :=
| OpEquals | OpNotEquals | OpContains | OpNotContains | OpStartsWith | OpEndsWith
| OpGreaterThan | OpLessThan | OpBetween | OpIn | OpNotIn | OpIsTrue | OpIsFalse
| OpDateRange | OpBefore | OpAfter | OpOther.

(** [FilterValue = string | number | boolean | string[] | number[]
    | { from: string; to: string }], the operand type of the filter editor
    that produces every filter the page receives. *)
Inductive FilterValue : Type :=
| FString (s : jsstring)
| FNumber (x : float)
| FBoolean (b : bool)
| FArray (vs : list value)
| FRange (from to : jsstring).

Record ColumnFilter : Type := {
  column : jsstring;
  operation : FilterOperation;
  value : FilterValue
}.

(** A row object; [row[column]] is [undefined] for a missing key. *)
Definition cellOf (r : gmap jsstring JS.value) (col : jsstring) : JS.value :=
  match r !! col with
  | Some v => v
  | None => VUndefined
  end.

(** A cell that is there: neither [undefined] nor [null]. *)
Definition present (r : gmap jsstring JS.value) (col : jsstring) : Prop :=
  cellOf r col <> VUndefined /\ cellOf r col <> VNull.

(** [Array.isArray(value)] *)
Definition isArray (v : FilterValue) : bool :=
  match v with FArray _ => true | _ => false end.

(** [value[i]] of an array operand: [undefined] past its end. *)
Definition element (v : FilterValue) (i : nat) : JS.value :=
  match v with
  | FArray vs => nth i vs VUndefined
  | _ => VUndefined
  end.

(** [!value] *)
Definition falsy (v : FilterValue) : bool :=
  match v with
  | FString s => is_empty s
  | FNumber x => negb (truthy (VNum x))
  | FBoolean b => negb b
  | FArray _ | FRange _ _ => false
  end.

(** [value.from] and [value.to]: [undefined] unless the operand is a range. *)
Definition from_of (v : FilterValue) : JS.value :=
  match v with FRange from _ => VStr from | _ => VUndefined end.
Definition to_of (v : FilterValue) : JS.value :=
  match v with FRange _ to => VStr to | _ => VUndefined end.

Section WithBuiltins.
Context (B : Builtins).

(** [Array.prototype.join(",")]: [undefined] and [null] elements render empty. *)
Fixpoint joinComma (vs : list JS.value) : jsstring :=
  let item v := match v with VUndefined | VNull => [] | _ => ToString B v end in
  match vs with
  | [] => []
  | [v] => item v
  | v :: vs' => item v ++ 44%N :: joinComma vs'
  end.

(** The operand as a primitive: arrays and objects convert to strings. *)
Definition ToPrimitive (v : FilterValue) : JS.value :=
  match v with
  | FString s => VStr s
  | FNumber x => VNum x
  | FBoolean b => VBool b
  | FArray vs => VStr (joinComma vs)
  | FRange _ _ => VStr (js "[object Object]")
  end.

(** [x == y] on primitives. *)
Definition looseEq (x y : JS.value) : bool :=
  match x, y with
  | (VUndefined | VNull), (VUndefined | VNull) => true
  | (VUndefined | VNull), _ => false
  | _, (VUndefined | VNull) => false
  | VStr a, VStr b => str_eqb a b
  | _, _ => PrimFloat.eqb (ToNumber B x) (ToNumber B y)
  end.

(** [String(v).toLowerCase()] *)
Definition lowered (v : JS.value) : jsstring := toLowerCase B (ToString B v).

(** [value.some((v) => String(v).toLowerCase() === String(cellValue).toLowerCase())] *)
Definition someEqual (vs : list JS.value) (cellValue : JS.value) : bool :=
  existsb (fun v => str_eqb (lowered v) (lowered cellValue)) vs.

(** The callback of [filters.every]. *)
Definition evalFilter (r : gmap jsstring JS.value) (f : ColumnFilter) : bool :=
  let cellValue := cellOf r (column f) in
  let value := value f in
  match cellValue with
  | VUndefined | VNull => false
  | _ =>
      match operation f with
      | OpEquals => looseEq cellValue (ToPrimitive value)
      | OpNotEquals => negb (looseEq cellValue (ToPrimitive value))
      | OpContains => includes (lowered cellValue) (lowered (ToPrimitive value))
      | OpNotContains => negb (includes (lowered cellValue) (lowered (ToPrimitive value)))
      | OpStartsWith => startsWith (lowered cellValue) (lowered (ToPrimitive value))
      | OpEndsWith => endsWith (lowered cellValue) (lowered (ToPrimitive value))
      | OpGreaterThan =>
          PrimFloat.ltb (ToNumber B (ToPrimitive value)) (ToNumber B cellValue)
      | OpLessThan =>
          PrimFloat.ltb (ToNumber B cellValue) (ToNumber B (ToPrimitive value))
      | OpBetween =>
          isArray value
          && PrimFloat.leb (ToNumber B (element value 0)) (ToNumber B cellValue)
          && PrimFloat.leb (ToNumber B cellValue) (ToNumber B (element value 1))
      | OpIn =>
          match value with FArray vs => someEqual vs cellValue | _ => false end
      | OpNotIn =>
          match value with FArray vs => negb (someEqual vs cellValue) | _ => false end
      | OpIsTrue => truthy cellValue
      | OpIsFalse => negb (truthy cellValue)
      | OpDateRange =>
          if negb (truthy (from_of value)) || negb (truthy (to_of value)) then true
          else
            let dateValue := DateValue B cellValue in
            let fromDate := DateValue B (from_of value) in
            let toDate := DateValue B (to_of value) in
            PrimFloat.leb fromDate dateValue && PrimFloat.leb dateValue toDate
      | OpBefore =>
          if falsy value then true
          else PrimFloat.ltb (DateValue B cellValue) (DateValue B (ToPrimitive value))
      | OpAfter =>
          if falsy value then true
          else PrimFloat.ltb (DateValue B (ToPrimitive value)) (DateValue B cellValue)
      | OpOther => true
      end
  end.

(** [applyFilters]: the value passed to [setFilteredData]. *)
Definition applyFilters (sanitizedData : list (gmap jsstring JS.value))
    (filters : list ColumnFilter) : list (gmap jsstring JS.value) :=
  if (length sanitizedData =? 0)%nat then []
  else if (length filters =? 0)%nat then sanitizedData
  else List.filter (fun r => forallb (evalFilter r) filters) sanitizedData.

End WithBuiltins.

(** Example data: one row with a number and a date text. *)
Definition order_row : gmap jsstring JS.value :=
  <[js "amount" := VNum 5]> (<[js "day" := VStr (js "2024-03-05")]> ∅).

(** [between] with only a lower bound, and [dateRange] with an empty [to]. *)
Definition between_from_0 : ColumnFilter :=
  {| column := js "amount"; operation := OpBetween; value := FArray [VNum 0] |}.

Definition dateRange_open : ColumnFilter :=
  {| column := js "day"; operation := OpDateRange;
     value := FRange (js "2024-01-01") [] |}.

(** The filter [f] with its operation replaced: what the editor's operation
    menu produces before the operand is touched. *)
Definition with_operation (f : ColumnFilter) (op : FilterOperation) : ColumnFilter :=
  {| column := column f; operation := op; value := value f |}.

(** *** Proofs *)

(** Comparisons with [NaN] are false. *)
Lemma leb_nan_l (x : float) : PrimFloat.leb PrimFloat.nan x = false.
Proof. rewrite leb_spec. reflexivity. Qed.

Lemma leb_nan_r (x : float) : PrimFloat.leb x PrimFloat.nan = false.
Proof.
  rewrite leb_spec. change (Prim2SF PrimFloat.nan) with S754_nan.
  unfold SFleb. now destruct (Prim2SF x).
Qed.

Lemma applyFilters_In (B : Builtins) (data : list (gmap jsstring JS.value))
    (filters : list ColumnFilter) (r : gmap jsstring JS.value) :
  In r (applyFilters B data filters) <->
  In r data /\ forall f, In f filters -> evalFilter B r f = true.
Proof.
  unfold applyFilters.
  destruct data as [| r0 data']; simpl (length _ =? 0)%nat; cbv iota.
  - simpl. tauto.
  - destruct filters as [| f0 filters']; simpl (length _ =? 0)%nat; cbv iota.
    + split; [intros H; split; [exact H | intros f []] | tauto].
    + rewrite List.filter_In, forallb_forall. tauto.
Qed.

Lemma evalFilter_missing (B : Builtins) (r : gmap jsstring JS.value) (f : ColumnFilter) :
  cellOf r (column f) = VUndefined \/ cellOf r (column f) = VNull ->
  evalFilter B r f = false.
Proof. unfold evalFilter. now intros [-> | ->]. Qed.

Lemma dateRange_open_range (B : Builtins) (r : gmap jsstring JS.value)
    (col from to : jsstring) :
  present r col -> from = [] \/ to = [] ->
  evalFilter B r {| column := col; operation := OpDateRange; value := FRange from to |}
  = true.
Proof.
  intros [Hu Hn] Hopen. unfold evalFilter. simpl.
  destruct (cellOf r col); try congruence;
    destruct Hopen as [-> | ->]; simpl; now rewrite ?orb_true_r.
Qed.

Lemma between_needs_both_bounds (B : Builtins) (r : gmap jsstring JS.value)
    (col : jsstring) (v : FilterValue) :
  evalFilter B r {| column := col; operation := OpBetween; value := v |} = true ->
  exists lo hi rest,
    v = FArray (lo :: hi :: rest) /\
    PrimFloat.leb (ToNumber B lo) (ToNumber B (cellOf r col)) = true /\
    PrimFloat.leb (ToNumber B (cellOf r col)) (ToNumber B hi) = true.
Proof.
  unfold evalFilter. simpl.
  destruct (cellOf r col) as [| | b | x | s] eqn:Ec; try discriminate;
    (destruct v as [s0 | x0 | b0 | vs | from to]; simpl; try discriminate;
     destruct vs as [| lo [| hi rest]]; simpl;
     rewrite ?leb_nan_l, ?leb_nan_r, ?andb_false_r; try discriminate;
     intros H; apply andb_prop in H as [H1 H2];
     exists lo, hi, rest; auto).
Qed.

(** C5 (amended). A row is admitted iff every active filter evaluates true on
    it; a filter on a cell that is [null] or [undefined] evaluates false;
    [dateRange] on a present cell evaluates true when either end of the range
    is empty; [between] evaluates true only for an array operand whose first
    two elements bound the cell's number, so it evaluates false when a bound
    is absent. *)
Theorem applyFilters_spec (B : Builtins) :
  (forall data filters r,
      In r (applyFilters B data filters) <->
      In r data /\ forall f, In f filters -> evalFilter B r f = true) /\
  (forall r f,
      cellOf r (column f) = VUndefined \/ cellOf r (column f) = VNull ->
      evalFilter B r f = false) /\
  (forall r col from to,
      present r col -> from = [] \/ to = [] ->
      evalFilter B r {| column := col; operation := OpDateRange;
                        value := FRange from to |} = true) /\
  (forall r col v,
      evalFilter B r {| column := col; operation := OpBetween; value := v |} = true ->
      exists lo hi rest,
        v = FArray (lo :: hi :: rest) /\
        PrimFloat.leb (ToNumber B lo) (ToNumber B (cellOf r col)) = true /\
        PrimFloat.leb (ToNumber B (cellOf r col)) (ToNumber B hi) = true) /\
  (forall r col vs,
      length vs < 2 ->
      evalFilter B r {| column := col; operation := OpBetween; value := FArray vs |}
      = false).
Proof.
  split; [| split; [| split; [| split]]].
  - apply applyFilters_In.
  - apply evalFilter_missing.
  - apply dateRange_open_range.
  - apply between_needs_both_bounds.
  - intros r col vs Hlen.
    destruct (evalFilter B r {| column := col; operation := OpBetween;
                                value := FArray vs |}) eqn:E; [| reflexivity].
    apply between_needs_both_bounds in E as (lo & hi & rest & [= ->] & _).
    simpl in Hlen. lia.
Qed.

(** C5 as stated fails for [between]: with the upper bound absent the row
    whose amount is 5 is rejected, not passed through. *)
Lemma between_open_range_rejects :
  evalFilter example_builtins order_row between_from_0 = false /\
  applyFilters example_builtins [order_row] [between_from_0] = [].
Proof. split; vm_compute; reflexivity. Qed.

(** The conjunction of the predicates does not depend on their order. *)
Lemma applyFilters_Permutation (B : Builtins) (data : list (gmap jsstring JS.value))
    (filters filters' : list ColumnFilter) :
  Permutation filters filters' ->
  applyFilters B data filters = applyFilters B data filters'.
Proof.
  intros HP. unfold applyFilters.
  rewrite <- (Permutation_length HP).
  destruct (length data =? 0)%nat; [reflexivity |].
  destruct (length filters =? 0)%nat; [reflexivity |].
  apply List.filter_ext. intros r.
  apply eq_true_iff_eq. rewrite !forallb_forall.
  split; intros H f Hf; apply H.
  - apply (Permutation_in f (Permutation_sym HP) Hf).
  - apply (Permutation_in f HP Hf).
Qed.

(** C8. For every table and every pair of filters, applying [[A; B]] admits
    exactly the rows that applying [[B; A]] admits, in the same order. *)
Theorem applyFilters_order_independent (B : Builtins)
    (data : list (gmap jsstring JS.value)) (filterA filterB : ColumnFilter) :
  applyFilters B data [filterA; filterB] = applyFilters B data [filterB; filterA] /\
  (forall r, In r (applyFilters B data [filterA; filterB]) <->
             In r data /\ evalFilter B r filterA = true /\ evalFilter B r filterB = true).
Proof.
  split.
  - apply applyFilters_Permutation. apply perm_swap.
  - intros r. rewrite applyFilters_In. split.
    + intros [Hr Hf]. split; [exact Hr |]. split; apply Hf; simpl; auto.
    + intros (Hr & HA & HB). split; [exact Hr |].
      intros f [<- | [<- | []]]; assumption.
Qed.

(** *** Filtering in stages *)

Lemma applyFilters_filter (B : Builtins) (data : list (gmap jsstring JS.value))
    (filters : list ColumnFilter) :
  applyFilters B data filters =
  List.filter (fun r => forallb (evalFilter B r) filters) data.
Proof.
  unfold applyFilters.
  destruct data as [| r0 data']; [reflexivity |]. simpl (length _ =? 0)%nat. cbv iota.
  destruct filters as [| f0 filters']; [| reflexivity].
  simpl (length _ =? 0)%nat. cbv iota.
  symmetry. apply filter_all. apply List.Forall_forall. reflexivity.
Qed.

(** X9. Filtering the result of a first filter list with a second one gives
    what filtering once with both lists gives; in particular applying the
    same filters again changes nothing. *)
Theorem applyFilters_staged (B : Builtins) (data : list (gmap jsstring JS.value))
    (first second : list ColumnFilter) :
  applyFilters B (applyFilters B data first) second
  = applyFilters B data (first ++ second) /\
  applyFilters B (applyFilters B data first) first = applyFilters B data first.
Proof.
  rewrite !applyFilters_filter, !filter_filter_andb. split.
  - apply List.filter_ext. intros r. now rewrite forallb_app.
  - apply List.filter_ext. intros r. now destruct (forallb _ _).
Qed.

(** X10. The filtered table is the input table with rows left out: no row is
    added, repeated or moved. *)
Theorem applyFilters_sublist (B : Builtins) (data : list (gmap jsstring JS.value))
    (filters : list ColumnFilter) :
  sublist (applyFilters B data filters) data /\
  length (applyFilters B data filters) <= length data.
Proof.
  rewrite applyFilters_filter.
  pose proof (filter_sublist_of (fun r => forallb (evalFilter B r) filters) data) as Hs.
  split; [exact Hs | now apply sublist_length].
Qed.

(** X11. On a cell that is present, [notEquals], [notContains] and [isFalse]
    admit exactly the rows that [equals], [contains] and [isTrue] reject, and
    so does [notIn] against [in] when the operand is a list; when the operand
    is not a list, [in] and [notIn] both reject the row. *)
Theorem evalFilter_negations (B : Builtins) (r : gmap jsstring JS.value)
    (f : ColumnFilter) :
  present r (column f) ->
  evalFilter B r (with_operation f OpNotEquals)
  = negb (evalFilter B r (with_operation f OpEquals)) /\
  evalFilter B r (with_operation f OpNotContains)
  = negb (evalFilter B r (with_operation f OpContains)) /\
  evalFilter B r (with_operation f OpIsFalse)
  = negb (evalFilter B r (with_operation f OpIsTrue)) /\
  (isArray (value f) = true ->
   evalFilter B r (with_operation f OpNotIn)
   = negb (evalFilter B r (with_operation f OpIn))) /\
  (isArray (value f) = false ->
   evalFilter B r (with_operation f OpIn) = false /\
   evalFilter B r (with_operation f OpNotIn) = false).
Proof.
  intros [Hu Hn]. unfold evalFilter, with_operation. simpl.
  destruct (cellOf r (column f)); try congruence;
    destruct (value f); simpl;
    repeat split; intros; try reflexivity; discriminate.
Qed.

(** [evalFilter_negations] on the example row, whose amount is present. *)
Lemma evalFilter_negations_witness :
  present order_row (js "amount") /\
  evalFilter example_builtins order_row
    (with_operation between_from_0 OpNotIn)
  = negb (evalFilter example_builtins order_row (with_operation between_from_0 OpIn)).
Proof.
  assert (H : present order_row (column between_from_0))
    by (split; vm_compute; discriminate).
  split; [exact H |].
  apply (evalFilter_negations example_builtins order_row between_from_0 H).
  reflexivity.
Defined.

End Filters.

(** ** Value sanitizers ([DataSanitizers.ts]) *)

Module Sanitizers.
Import JS.

(** [ZipCodeSanitizer]'s [countryFormat]. *)
Inductive CountryFormat : Type := US | CA | UK | OtherCountry.

(** [zip.replace(/[^a-zA-Z0-9]/g, "")] *)
Definition cleanAlnum (zip : jsstring) : jsstring := List.filter is_alnum zip.

(** [toUpperCase] on text made of [[a-zA-Z0-9 ]], where it is the ASCII mapping. *)
Definition upper (s : jsstring) : jsstring := List.map ascii_upper s.

(** The [switch] of [formatZipCode] over the country format, on [cleanZip]. *)
Definition formatCleanZip (countryFormat : CountryFormat) (keepExtendedFormat : bool)
    (cleanZip : jsstring) : jsstring :=
  match countryFormat with
  | US =>
      if (length cleanZip <=? 5)%nat then padStart 5 48 cleanZip
      else if keepExtendedFormat && (length cleanZip <=? 9)%nat then
        substring 0 5 cleanZip ++ js "-" ++ padEnd 4 48 (substringFrom 5 cleanZip)
      else if keepExtendedFormat then
        substring 0 5 cleanZip ++ js "-" ++ substring 5 9 cleanZip
      else substring 0 5 cleanZip
  | CA =>
      if (length cleanZip <=? 6)%nat then padEnd 6 48 (upper cleanZip)
      else
        let formatted := substring 0 6 (upper cleanZip) in
        substring 0 3 formatted ++ js " " ++ substringFrom 3 formatted
  | UK =>
      if (length cleanZip <=? 4)%nat then upper cleanZip
      else
        let outcode := substring 0 (length cleanZip - 3) cleanZip in
        let incode := substringFrom (length cleanZip - 3) cleanZip in
        upper (outcode ++ js " " ++ incode)
  | OtherCountry => cleanZip
  end.

(** [ZipCodeSanitizer.formatZipCode] *)
Definition formatZipCode (countryFormat : CountryFormat) (keepExtendedFormat : bool)
    (zip : jsstring) : jsstring :=
  if is_empty zip then []
  else formatCleanZip countryFormat keepExtendedFormat (cleanAlnum zip).

(** [SsnSanitizer]'s [format]: ["XXX-XX-XXXX"], ["XXXXXXXXX"], ["XXX-XX-****"]. *)
Inductive SsnFormat : Type := Dashed | DigitsOnly | Masked.

(** [ssn.replace(/\D/g, "")] *)
Definition digitsOf (ssn : jsstring) : jsstring := List.filter is_digit ssn.

(** The [switch] of [formatSSN] over the format, on the nine padded digits. *)
Definition renderSSN (format : SsnFormat) (paddedDigits : jsstring) : jsstring :=
  match format with
  | Dashed =>
      substring 0 3 paddedDigits ++ js "-" ++ substring 3 5 paddedDigits ++ js "-"
      ++ substringFrom 5 paddedDigits
  | DigitsOnly => paddedDigits
  | Masked =>
      substring 0 3 paddedDigits ++ js "-" ++ substring 3 5 paddedDigits ++ js "-****"
  end.

(** [SsnSanitizer.formatSSN] *)
Definition formatSSN (format : SsnFormat) (ssn : jsstring) : jsstring :=
  let digits := digitsOf ssn in
  if (length digits =? 0)%nat then ssn
  else
    let paddedDigits := substring 0 9 (padEnd 9 48 digits) in
    renderSSN format paddedDigits.

(** Text made of letters and digits only. *)
Definition alnum (s : jsstring) : Prop := Forall (fun c => is_alnum c = true) s.

(** [parts.join(separator)] *)
Fixpoint join (separator : jsstring) (parts : list jsstring) : jsstring :=
  match parts with
  | [] => []
  | [part] => part
  | part :: rest => part ++ separator ++ join separator rest
  end.

(** The loop of [formatPolicyNumber] over [partLengths] from index [i] on:
    the parts pushed and the final [currentPos]; it breaks once [currentPos]
    has reached the end of [cleanPolicy]. *)
Fixpoint takeParts (partLengths : list nat) (cleanPolicy : jsstring) (currentPos : nat)
    : list jsstring * nat :=
  match partLengths with
  | [] => ([], currentPos)
  | length :: rest =>
      if (List.length cleanPolicy <=? currentPos)%nat then ([], currentPos)
      else
        let part := substring currentPos (currentPos + length) cleanPolicy in
        let '(formattedParts, finalPos) :=
          takeParts rest cleanPolicy (currentPos + length) in
        (part :: formattedParts, finalPos)
  end.

(** [PolicyNumberSanitizer.formatPolicyNumber] for a sanitizer built with
    [separator] and [autoDetect]. *)
Definition formatPolicyNumber (separator : jsstring) (autoDetect : bool)
    (policy : jsstring) (partLengths : list nat) : jsstring :=
  let cleanPolicy := List.filter is_alnum policy in
  if (length cleanPolicy =? 0)%nat then []
  else if autoDetect && (length cleanPolicy =? 10)%nat && forallb is_digit cleanPolicy
  then substring 0 3 cleanPolicy ++ js "-" ++ substring 3 6 cleanPolicy ++ js "-"
       ++ substringFrom 6 cleanPolicy
  else
    let '(formattedParts, currentPos) := takeParts partLengths cleanPolicy 0 in
    join separator
      (if (currentPos <? length cleanPolicy)%nat
       then formattedParts ++ [substringFrom currentPos cleanPolicy]
       else formattedParts).

(** [format.split(separator)]: [skip] counts the units of a matched separator
    still to pass, [part] holds the current part in reverse. *)
Fixpoint splitFrom (separator : jsstring) (skip : nat) (part : jsstring) (s : jsstring)
    : list jsstring :=
  match s with
  | [] => [rev part]
  | c :: s' =>
      match skip with
      | S skip' => splitFrom separator skip' part s'
      | O =>
          if startsWith s separator
          then rev part :: splitFrom separator (length separator - 1) [] s'
          else splitFrom separator 0 (c :: part) s'
      end
  end.

Definition split (separator s : jsstring) : list jsstring :=
  match separator with
  | [] => List.map (fun c => [c]) s
  | _ :: _ => splitFrom separator 0 [] s
  end.

(** [this.format.split(this.separator).map((part) => part.length)] *)
Definition partLengthsOf (format separator : jsstring) : list nat :=
  List.map (@length N) (split separator format).

(** *** Proofs: lists and characters *)

Lemma is_alnum_upper (c : N) : is_alnum c = true -> is_alnum (ascii_upper c) = true.
Proof.
  unfold ascii_upper. destruct (is_lower c) eqn:E; [| auto].
  apply is_lower_range in E. intros _. apply is_alnum_range. lia.
Qed.

Lemma ascii_upper_idem (c : N) : ascii_upper (ascii_upper c) = ascii_upper c.
Proof.
  unfold ascii_upper. destruct (is_lower c) eqn:E; [| now rewrite E].
  apply is_lower_range in E.
  destruct (is_lower (c - 32)) eqn:E'; [| reflexivity].
  apply is_lower_range in E'. lia.
Qed.

Lemma upper_idem (s : jsstring) : upper (upper s) = upper s.
Proof.
  unfold upper. rewrite List.map_map. apply List.map_ext, ascii_upper_idem.
Qed.

Lemma upper_alnum (s : jsstring) : alnum s -> alnum (upper s).
Proof.
  intros H. unfold upper. apply List.Forall_map.
  eapply List.Forall_impl; [| exact H]. apply is_alnum_upper.
Qed.

Lemma upper_app (a b : jsstring) : upper (a ++ b) = upper a ++ upper b.
Proof. apply List.map_app. Qed.

Lemma upper_length (s : jsstring) : length (upper s) = length s.
Proof. apply length_map. Qed.

Lemma upper_firstn (n : nat) (s : jsstring) : firstn n (upper s) = upper (firstn n s).
Proof. apply firstn_map. Qed.

Lemma upper_skipn (n : nat) (s : jsstring) : skipn n (upper s) = upper (skipn n s).
Proof. apply skipn_map. Qed.

Lemma cleanAlnum_app (a b : jsstring) : cleanAlnum (a ++ b) = cleanAlnum a ++ cleanAlnum b.
Proof. apply List.filter_app. Qed.

Lemma cleanAlnum_alnum (s : jsstring) : alnum s -> cleanAlnum s = s.
Proof. apply filter_all. Qed.

(** *** Proofs: the SSN sanitizer *)

(** The nine digits [formatSSN] works on: the digits of the input, padded with
    zeros on the right and cut to nine. *)
Lemma paddedDigits_firstn (digits : jsstring) :
  substring 0 9 (padEnd 9 48 digits) = firstn 9 (digits ++ repeat 48%N 9).
Proof.
  unfold substring, padEnd. rewrite Nat.sub_0_r, skipn_O, !firstn_app, !firstn_repeat.
  do 2 f_equal. lia.
Qed.

Lemma paddedDigits_length (digits : jsstring) :
  length (firstn 9 (digits ++ repeat 48%N 9)) = 9.
Proof. rewrite length_firstn, length_app, repeat_length. lia. Qed.

Lemma paddedDigits_digits (ssn : jsstring) :
  Forall (fun c => is_digit c = true) (firstn 9 (digitsOf ssn ++ repeat 48%N 9)).
Proof.
  apply Forall_firstn, Forall_app. split.
  - apply filter_Forall.
  - now apply Forall_repeat.
Qed.

(** C10. An input without digit characters is returned unchanged; an input
    with at least one digit is reduced to its digits, padded with zeros or
    truncated to exactly nine, and laid out in the configured format. *)
Theorem formatSSN_spec (format : SsnFormat) (ssn : jsstring) :
  (Forall (fun c => is_digit c = false) ssn -> formatSSN format ssn = ssn) /\
  (Exists (fun c => is_digit c = true) ssn ->
   exists d : jsstring,
     d = firstn 9 (digitsOf ssn ++ repeat 48%N 9) /\
     length d = 9 /\
     Forall (fun c => is_digit c = true) d /\
     formatSSN format ssn =
       match format with
       | Dashed => firstn 3 d ++ js "-" ++ firstn 2 (skipn 3 d) ++ js "-" ++ skipn 5 d
       | DigitsOnly => d
       | Masked => firstn 3 d ++ js "-" ++ firstn 2 (skipn 3 d) ++ js "-****"
       end) /\
  formatSSN Dashed (js "n/a") = js "n/a" /\
  formatSSN Masked (js "123456789") = js "123-45-****".
Proof.
  split; [| split; [| split; reflexivity]].
  - intros Hnone. unfold formatSSN, digitsOf. now rewrite filter_none.
  - intros Hsome. exists (firstn 9 (digitsOf ssn ++ repeat 48%N 9)).
    split; [reflexivity |].
    split; [apply paddedDigits_length |].
    split; [apply paddedDigits_digits |].
    unfold formatSSN.
    destruct (length (digitsOf ssn) =? 0)%nat eqn:E.
    + apply Nat.eqb_eq, length_zero_iff_nil in E.
      apply List.Exists_exists in Hsome as (c & Hin & Hc).
      assert (Hd : In c (digitsOf ssn)) by (apply List.filter_In; auto).
      rewrite E in Hd. destruct Hd.
    + rewrite paddedDigits_firstn. destruct format; reflexivity.
Qed.

Lemma renderSSN_stable (format : SsnFormat) (d : jsstring) :
  length d = 9 -> Forall (fun c => is_digit c = true) d ->
  formatSSN format (renderSSN format d) = renderSSN format d.
Proof.
  intros Hlen Hd.
  do 9 (destruct d as [| ? d]; [discriminate Hlen |]).
  destruct d; [| discriminate Hlen].
  split_Forall.
  destruct format; unfold formatSSN, renderSSN, digitsOf; simpl;
    use_class is_digit; reflexivity.
Qed.

(** X1. Reformatting an SSN that [formatSSN] produced, in the same format,
    leaves it unchanged. *)
Theorem formatSSN_idempotent (format : SsnFormat) (ssn : jsstring) :
  formatSSN format (formatSSN format ssn) = formatSSN format ssn.
Proof.
  unfold formatSSN at 2 3.
  destruct (length (digitsOf ssn) =? 0)%nat eqn:E.
  - unfold formatSSN. now rewrite E.
  - rewrite paddedDigits_firstn.
    apply renderSSN_stable; [apply paddedDigits_length | apply paddedDigits_digits].
Qed.

(** *** Proofs: the ZIP sanitizer *)

Lemma formatZipCode_nonempty (countryFormat : CountryFormat) (keep : bool) (zip : jsstring) :
  zip <> [] ->
  formatZipCode countryFormat keep zip = formatCleanZip countryFormat keep (cleanAlnum zip).
Proof. destruct zip; [congruence | reflexivity]. Qed.

Lemma formatCleanZip_US_stable (keep : bool) (c : jsstring) :
  alnum c ->
  formatZipCode US keep (formatCleanZip US keep c) = formatCleanZip US keep c.
Proof.
  intros Hc. unfold alnum in Hc.
  do 10 (destruct c as [| ? c];
         [ split_Forall; destruct keep; unfold formatZipCode, formatCleanZip, cleanAlnum;
           simpl; use_class is_alnum; reflexivity |]).
  split_Forall; destruct keep; unfold formatZipCode, formatCleanZip, cleanAlnum;
    simpl; use_class is_alnum; reflexivity.
Qed.

Lemma formatCleanZip_other_stable (keep : bool) (c : jsstring) :
  alnum c ->
  formatZipCode OtherCountry keep (formatCleanZip OtherCountry keep c)
  = formatCleanZip OtherCountry keep c.
Proof.
  intros Hc. unfold formatCleanZip. destruct c as [| c0 c]; [reflexivity |].
  rewrite formatZipCode_nonempty by discriminate. unfold formatCleanZip.
  now apply cleanAlnum_alnum.
Qed.

Lemma formatCleanZip_UK_stable (keep : bool) (c : jsstring) :
  alnum c ->
  formatZipCode UK keep (formatCleanZip UK keep c) = formatCleanZip UK keep c.
Proof.
  intros Hc. unfold formatCleanZip.
  destruct (length c <=? 4)%nat eqn:E.
  - destruct c as [| c0 c]; [reflexivity |].
    rewrite formatZipCode_nonempty by discriminate.
    rewrite cleanAlnum_alnum by now apply upper_alnum.
    unfold formatCleanZip. rewrite upper_length, E. apply upper_idem.
  - cbv zeta. unfold substring, substringFrom. rewrite Nat.sub_0_r, skipn_O.
    set (n := length c - 3).
    assert (Hout : cleanAlnum (upper (firstn n c ++ js " " ++ skipn n c)) = upper c).
    { rewrite !upper_app, !cleanAlnum_app.
      rewrite (cleanAlnum_alnum (upper (firstn n c)))
        by now apply upper_alnum, Forall_firstn.
      rewrite (cleanAlnum_alnum (upper (skipn n c)))
        by now apply upper_alnum, Forall_skipn.
      change (cleanAlnum (upper (js " "))) with (@nil N).
      now rewrite app_nil_l, <- upper_app, firstn_skipn. }
    rewrite formatZipCode_nonempty
      by (rewrite !upper_app; destruct (upper (firstn n c)); discriminate).
    rewrite Hout. unfold formatCleanZip. rewrite upper_length, E. cbv zeta.
    unfold substring, substringFrom. rewrite Nat.sub_0_r, skipn_O. fold n.
    now rewrite upper_firstn, upper_skipn, !upper_app, !upper_idem.
Qed.

Lemma formatCleanZip_CA_stable (keep : bool) (c : jsstring) :
  alnum c -> length c <= 6 ->
  formatZipCode CA keep (formatCleanZip CA keep c) = formatCleanZip CA keep c.
Proof.
  intros Hc Hlen. unfold formatCleanZip.
  apply Nat.leb_le in Hlen. rewrite Hlen. apply Nat.leb_le in Hlen.
  assert (Hpad : alnum (padEnd 6 48 (upper c))).
  { apply Forall_app. split; [now apply upper_alnum | now apply Forall_repeat]. }
  assert (Hsix : length (padEnd 6 48 (upper c)) = 6).
  { unfold padEnd. rewrite length_app, repeat_length, upper_length. lia. }
  rewrite formatZipCode_nonempty by (intros E; rewrite E in Hsix; discriminate).
  rewrite cleanAlnum_alnum by exact Hpad.
  unfold formatCleanZip. rewrite Hsix. simpl (6 <=? 6)%nat. cbv iota.
  unfold padEnd at 1. rewrite upper_length, Hsix. simpl repeat. rewrite app_nil_r.
  unfold padEnd. rewrite upper_app, upper_idem. f_equal.
  unfold upper. rewrite List.map_repeat. reflexivity.
Qed.

(** X2. Sanitizing a ZIP code that [formatZipCode] produced, with the same
    options, leaves it unchanged, for every country format but the Canadian
    one on inputs holding more than six letters and digits. *)
Theorem formatZipCode_idempotent (countryFormat : CountryFormat) (keep : bool)
    (zip : jsstring) :
  countryFormat <> CA \/ length (cleanAlnum zip) <= 6 ->
  formatZipCode countryFormat keep (formatZipCode countryFormat keep zip)
  = formatZipCode countryFormat keep zip.
Proof.
  intros Hcase.
  destruct zip as [| z zip]; [reflexivity |].
  rewrite (formatZipCode_nonempty countryFormat keep (z :: zip)) by discriminate.
  assert (Hc : alnum (cleanAlnum (z :: zip))) by apply filter_Forall.
  destruct countryFormat.
  - now apply formatCleanZip_US_stable.
  - destruct Hcase as [Hne | Hlen]; [congruence |].
    now apply formatCleanZip_CA_stable.
  - now apply formatCleanZip_UK_stable.
  - now apply formatCleanZip_other_stable.
Qed.

(** The hypothesis of [formatZipCode_idempotent] holds for the ZIP+4 example,
    kept in extended form. *)
Lemma formatZipCode_idempotent_witness :
  (US <> CA \/ length (cleanAlnum (js "12345-6789")) <= 6) /\
  formatZipCode US true (formatZipCode US true (js "12345-6789"))
  = formatZipCode US true (js "12345-6789").
Proof.
  assert (H : US <> CA \/ length (cleanAlnum (js "12345-6789")) <= 6)
    by (left; discriminate).
  split; [exact H |].
  exact (formatZipCode_idempotent US true (js "12345-6789") H).
Defined.

(** X3. Under the US format without the extended flag a non-empty input
    yields exactly five letters or digits: a short input padded with zeros on
    the left, a long one cut to its first five. *)
Theorem formatZipCode_US_five (zip : jsstring) :
  zip <> [] ->
  length (formatZipCode US false zip) = 5 /\
  alnum (formatZipCode US false zip) /\
  (length (cleanAlnum zip) <= 5 ->
   exists zeros, Forall (eq 48%N) zeros /\
                 formatZipCode US false zip = zeros ++ cleanAlnum zip) /\
  (5 <= length (cleanAlnum zip) -> formatZipCode US false zip = firstn 5 (cleanAlnum zip)).
Proof.
  intros Hne. rewrite formatZipCode_nonempty by exact Hne.
  pose proof (filter_Forall is_alnum zip : alnum (cleanAlnum zip)) as Hc.
  unfold formatCleanZip. cbn [andb].
  destruct (length (cleanAlnum zip) <=? 5)%nat eqn:E.
  - apply Nat.leb_le in E. unfold padStart. repeat split.
    + rewrite length_app, repeat_length. lia.
    + apply Forall_app. split; [now apply Forall_repeat | exact Hc].
    + intros _. eexists. split; [| reflexivity]. now apply Forall_repeat.
    + intros H5. replace (5 - length (cleanAlnum zip)) with 0 by lia.
      rewrite firstn_all2 by lia. reflexivity.
  - apply Nat.leb_gt in E. unfold substring. rewrite Nat.sub_0_r, skipn_O. repeat split.
    + rewrite length_firstn. lia.
    + now apply Forall_firstn.
    + intros H. lia.
Qed.

(** [formatZipCode_US_five] on the specification's example: ["12345-6789"]
    becomes ["12345"]; with the extended flag it stays ["12345-6789"]. *)
Lemma formatZipCode_US_five_witness :
  js "12345-6789" <> [] /\
  formatZipCode US false (js "12345-6789") = js "12345" /\
  formatZipCode US true (js "12345-6789") = js "12345-6789".
Proof.
  assert (Hne : js "12345-6789" <> []) by discriminate.
  split; [exact Hne |].
  destruct (formatZipCode_US_five (js "12345-6789") Hne) as (_ & _ & _ & Hcut).
  split; [| reflexivity].
  rewrite Hcut; [reflexivity | vm_compute; lia].
Defined.

(** C7, the failing input: under the Canadian format a seven-character code is
    sanitized to ["K1A 0B1"], and sanitizing that result again with the same
    options yields ["K1A0B1"]; the specification's two examples hold. *)
Theorem formatZipCode_CA_resanitized :
  formatZipCode CA false (js "K1A0B1X") = js "K1A 0B1" /\
  formatZipCode CA false (js "K1A 0B1") = js "K1A0B1" /\
  formatZipCode US false (js "12345") = js "12345" /\
  formatSSN Dashed (js "123-45-6789") = js "123-45-6789".
Proof. repeat split; vm_compute; reflexivity. Qed.

(** *** Proofs: the policy-number sanitizer *)

(** The default format, and four policy numbers. *)
Example partLengths_default :
  partLengthsOf (js "XXX-XX-XXXX") (js "-") = [3; 2; 4] /\
  formatPolicyNumber (js "-") true (js "ab 12/34-5678 z") [3; 2; 4] = js "ab1-23-4567-8z" /\
  formatPolicyNumber (js "-") true (js "(123) 456 7890") [3; 2; 4] = js "123-456-7890" /\
  formatPolicyNumber (js "-") false (js "(123) 456 7890") [3; 2; 4] = js "123-45-6789-0" /\
  formatPolicyNumber (js "-") true (js "AB") [3; 2; 4] = js "AB".
Proof. repeat split; vm_compute; reflexivity. Qed.

Lemma takeParts_concat (partLengths : list nat) (cleanPolicy : jsstring) :
  forall currentPos formattedParts finalPos,
    takeParts partLengths cleanPolicy currentPos = (formattedParts, finalPos) ->
    List.concat formattedParts ++ skipn finalPos cleanPolicy = skipn currentPos cleanPolicy.
Proof.
  induction partLengths as [| len rest IH]; intros pos parts final H; simpl in H.
  - now injection H as <- <-.
  - destruct (length cleanPolicy <=? pos)%nat; [now injection H as <- <- |].
    destruct (takeParts rest cleanPolicy (pos + len)) as [parts' final'] eqn:E.
    injection H as <- <-. apply IH in E. simpl.
    rewrite <- app_assoc, E. apply substring_rest. lia.
Qed.

Lemma cleanAlnum_join (separator : jsstring) (parts : list jsstring) :
  cleanAlnum separator = [] ->
  cleanAlnum (join separator parts) = cleanAlnum (List.concat parts).
Proof.
  intros Hs. induction parts as [| part rest IH]; [reflexivity |].
  destruct rest as [| part' rest].
  - simpl. now rewrite app_nil_r.
  - change (join separator (part :: part' :: rest))
      with (part ++ separator ++ join separator (part' :: rest)).
    rewrite !cleanAlnum_app, Hs, IH. simpl. now rewrite !cleanAlnum_app.
Qed.

Lemma cleanAlnum_idem (s : jsstring) : cleanAlnum (cleanAlnum s) = cleanAlnum s.
Proof. apply filter_all, filter_Forall. Qed.

Lemma formatPolicyNumber_clean (separator : jsstring) (autoDetect : bool)
    (policy : jsstring) (partLengths : list nat) :
  cleanAlnum separator = [] ->
  cleanAlnum (formatPolicyNumber separator autoDetect policy partLengths)
  = cleanAlnum policy.
Proof.
  intros Hs. unfold formatPolicyNumber. fold (cleanAlnum policy).
  pose proof (cleanAlnum_idem policy) as Hc.
  set (c := cleanAlnum policy) in *.
  destruct (length c =? 0)%nat eqn:E0.
  { apply Nat.eqb_eq in E0. destruct c; [reflexivity | discriminate]. }
  destruct (autoDetect && (length c =? 10)%nat && forallb is_digit c) eqn:Ea.
  { unfold substringFrom.
    rewrite <- Hc at 4. rewrite <- (skipn_O c) at 4.
    rewrite <- (substring_rest 0 3 c), <- (substring_rest 3 6 c) by lia.
    rewrite !cleanAlnum_app. reflexivity. }
  destruct (takeParts partLengths c 0) as [parts final] eqn:Et.
  apply takeParts_concat in Et. rewrite skipn_O in Et.
  rewrite cleanAlnum_join by exact Hs.
  destruct (final <? length c)%nat eqn:Ef.
  - unfold substringFrom. rewrite concat_app. simpl. rewrite app_nil_r.
    now rewrite Et.
  - apply Nat.ltb_ge in Ef. rewrite skipn_all2 in Et by exact Ef.
    rewrite app_nil_r in Et. now rewrite Et.
Qed.

Lemma formatPolicyNumber_of_clean (separator : jsstring) (autoDetect : bool)
    (policy : jsstring) (partLengths : list nat) :
  formatPolicyNumber separator autoDetect (cleanAlnum policy) partLengths
  = formatPolicyNumber separator autoDetect policy partLengths.
Proof.
  unfold formatPolicyNumber. fold (cleanAlnum (cleanAlnum policy)) (cleanAlnum policy).
  now rewrite cleanAlnum_idem.
Qed.

(** X19. With a separator that holds no letter or digit, the formatted policy
    number holds exactly the letters and digits of the input, in their
    order: none is lost, whatever the part lengths are; and formatting the
    result again changes nothing. *)
Theorem formatPolicyNumber_keeps_characters (separator : jsstring) (autoDetect : bool)
    (policy : jsstring) (partLengths : list nat) :
  cleanAlnum separator = [] ->
  cleanAlnum (formatPolicyNumber separator autoDetect policy partLengths)
  = cleanAlnum policy /\
  formatPolicyNumber separator autoDetect
    (formatPolicyNumber separator autoDetect policy partLengths) partLengths
  = formatPolicyNumber separator autoDetect policy partLengths.
Proof.
  intros Hs. split; [now apply formatPolicyNumber_clean |].
  rewrite <- (formatPolicyNumber_of_clean separator autoDetect
                (formatPolicyNumber separator autoDetect policy partLengths)).
  rewrite formatPolicyNumber_clean by exact Hs.
  apply formatPolicyNumber_of_clean.
Qed.

(** [formatPolicyNumber_keeps_characters] for the default separator. *)
Lemma formatPolicyNumber_keeps_characters_witness :
  cleanAlnum (formatPolicyNumber (js "-") true (js "ab 12/34-5678 z") [3; 2; 4])
  = js "ab12345678z".
Proof.
  apply (formatPolicyNumber_keeps_characters (js "-") true (js "ab 12/34-5678 z")
           [3; 2; 4]).
  reflexivity.
Defined.

End Sanitizers.

(** ** The sanitisation pass ([sanitizeData], TransformationPage.tsx) *)

Module Sanitization.
Import JS Regex TypeInference.

(** [value.replace(/\D/g, "")] *)
Definition digitsOnly (value : jsstring) : jsstring := List.filter is_digit value.

(** [formatPhoneNumber] *)
Definition formatPhoneNumber (value : jsstring) : jsstring :=
  let d := digitsOnly value in
  if (length d =? 10)%nat then
    substring 0 3 d ++ js "-" ++ substring 3 6 d ++ js "-" ++ substringFrom 6 d
  else if (length d =? 11)%nat && startsWith d (js "1") then
    substring 1 4 d ++ js "-" ++ substring 4 7 d ++ js "-" ++ substringFrom 7 d
  else if (7 <=? length d)%nat then
    let localNumber := sliceLast 7 d in
    let areaCode := sliceNeg 10 7 d in
    let countryCode := sliceUpToNeg 10 d in
    if negb (is_empty areaCode) then
      if negb (is_empty countryCode) then
        countryCode ++ js "-" ++ areaCode ++ js "-" ++ substring 0 3 localNumber
        ++ js "-" ++ substringFrom 3 localNumber
      else areaCode ++ js "-" ++ substring 0 3 localNumber ++ js "-"
           ++ substringFrom 3 localNumber
    else substring 0 3 localNumber ++ js "-" ++ substringFrom 3 localNumber
  else d.

(** [formatZipCode(value, truncate)] of the page (not the sanitizer class). *)
Definition formatZipCode (value : jsstring) (truncate : bool) : jsstring :=
  let d := digitsOnly value in
  if truncate || (length d <=? 5)%nat then padEnd 5 48 (substring 0 5 d)
  else if (length d <=? 9)%nat then substring 0 5 d ++ js "-" ++ substringFrom 5 d
  else substring 0 5 d ++ js "-" ++ substring 5 9 d.

(** [formatCurrency]: [/^[$¥€£]/] tests the first code unit. *)
Definition formatCurrency (value : jsstring) : jsstring :=
  match value with
  | c :: _ => if is_currency_symbol c then value else 36%N :: value
  | [] => 36%N :: value
  end.

(** [formatSSN] of the page. *)
Definition formatSSN (value : jsstring) : jsstring :=
  let d := digitsOnly value in
  if (length d <=? 3)%nat then d
  else if (length d <=? 5)%nat then substring 0 3 d ++ js "-" ++ substringFrom 3 d
  else substring 0 3 d ++ js "-" ++ substring 3 5 d ++ js "-" ++ substring 5 9 d.

(** [/^\s*[£$€¥]\s*[\d,.]+\s*$/]: the symbol is required here. *)
Definition currencyValuePattern : regex :=
  Seq (Star (Class is_space)) (Seq (Class is_currency_symbol)
  (Seq (Star (Class is_space)) (Seq (plus (Class is_amount)) (Star (Class is_space))))).

(** [/^(\d{5})-\d{4}$/] *)
Definition zipPlus4Pattern : regex := Seq (rep 5 digit) (Seq (chr 45) (rep 4 digit)).

(** The class [[^\w\s<preserved>]] built from the escaped preserved
    characters: the escapes make each of them a literal member. *)
Definition is_special (preservedChars : jsstring) (c : N) : bool :=
  negb (is_word c || is_space c || existsb (N.eqb c) preservedChars).

(** [.replace(/\s+/g, " ")]; [inRun] tells that the previous unit was blank. *)
Fixpoint collapseSpaces (inRun : bool) (s : jsstring) : jsstring :=
  match s with
  | [] => []
  | c :: s' =>
      if is_space c then
        if inRun then collapseSpaces true s' else 32%N :: collapseSpaces true s'
      else c :: collapseSpaces false s'
  end.

Record SanitizationOptions : Type := {
  removeSpecialChars : bool;
  replaceWithSpace : bool;
  sanitizeZipCodes : bool
}.

Record ColumnSanitizationSettings : Type := {
  enableSanitization : bool;
  preserveCharacters : option jsstring;
  columnType : option ColumnType
}.

(** [JSON.parse(JSON.stringify(data))] on a cell: an [undefined] field is
    dropped, a number that is not finite becomes [null], [-0] becomes [0]. *)
Definition jsonCell (v : value) : option value :=
  match v with
  | VUndefined => None
  | VNum x =>
      if PrimFloat.is_finite x
      then Some (VNum (if PrimFloat.eqb x 0 then 0%float else x))
      else Some VNull
  | _ => Some v
  end.

Section WithState.
Context (B : Builtins).
Context (sanitizationOptions : SanitizationOptions).
Context (columnSanitizationSettings : gmap jsstring ColumnSanitizationSettings).
Context (selectedColumns : list jsstring).

(** [formatEmailAddress] *)
Definition formatEmailAddress (value : jsstring) : jsstring :=
  toLowerCase B (trim value).

(** [columnSanitizationSettings[key]?.enableSanitization === false] *)
Definition disabled (key : jsstring) : bool :=
  match columnSanitizationSettings !! key with
  | Some settings => negb (enableSanitization settings)
  | None => false
  end.

(** [columnSanitizationSettings[key]?.columnType] *)
Definition declaredType (key : jsstring) : option ColumnType :=
  match columnSanitizationSettings !! key with
  | Some settings => columnType settings
  | None => None
  end.

(** [columnSanitizationSettings[key]?.preserveCharacters || ""] *)
Definition preservedChars (key : jsstring) : jsstring :=
  match columnSanitizationSettings !! key with
  | Some settings =>
      match preserveCharacters settings with Some s => s | None => [] end
  | None => []
  end.

(** [selectedColumns.includes(key)] *)
Definition selected (key : jsstring) : bool :=
  existsb (str_eqb key) selectedColumns.

(** The [default] case of the [switch] on the column type. *)
Definition sanitizeUntyped (key : jsstring) (columnType : ColumnType) (s : jsstring)
    : jsstring :=
  let isAuto := match columnType with Auto => true | _ => false end in
  let isEmail := isAuto && test emailPattern s in
  let isCurrency := isAuto && test currencyValuePattern s in
  let isPhone := isAuto && test phonePattern s in
  let isZip := isAuto && test zipPattern s in
  if isEmail then formatEmailAddress s
  else if isCurrency then formatCurrency s
  else if isPhone then formatPhoneNumber s
  else if isZip then formatZipCode s (sanitizeZipCodes sanitizationOptions)
  else if removeSpecialChars sanitizationOptions then
    if replaceWithSpace sanitizationOptions then
      trim (collapseSpaces false
              (List.map (fun c => if is_special (preservedChars key) c then 32%N else c) s))
    else List.filter (fun c => negb (is_special (preservedChars key) c)) s
  else s.

(** The callback of the first [Object.keys(row).forEach]: the new [row[key]]. *)
Definition sanitizeCell (key : jsstring) (v : value) : value :=
  if disabled key || negb (selected key) then v
  else
    let columnType := match declaredType key with Some t => t | None => Auto end in
    match v with
    | VStr s =>
        if is_empty (trim s) then v
        else
          VStr match columnType with
               | Zipcode => formatZipCode s (sanitizeZipCodes sanitizationOptions)
               | Phone => formatPhoneNumber s
               | Email => formatEmailAddress s
               | Currency => formatCurrency s
               | Ssn => formatSSN s
               | _ => sanitizeUntyped key columnType s
               end
    | _ => v
    end.

(** The callback of the second loop, "for columns without special type". *)
Definition truncateZipCell (key : jsstring) (v : value) : value :=
  if match declaredType key with Some _ => true | None => false end
     || disabled key || negb (selected key)
  then v
  else
    match v with
    | VStr s => if test zipPlus4Pattern s then VStr (firstn 5 s) else v
    | _ => v
    end.

(** What the effect does to one row of the copied data. *)
Definition sanitizeRow (r : gmap jsstring value) : gmap jsstring value :=
  let copy := omap jsonCell r in
  let formatted := map_imap (fun key v => Some (sanitizeCell key v)) copy in
  if sanitizeZipCodes sanitizationOptions
  then map_imap (fun key v => Some (truncateZipCell key v)) formatted
  else formatted.

(** The value passed to [setSanitizedData]. *)
Definition sanitizeData (data : list (gmap jsstring value)) : list (gmap jsstring value) :=
  if (length data =? 0)%nat then [] else List.map sanitizeRow data.

End WithState.

(** The shape [NNNNN-NNNN]: five digits, a hyphen, four digits. *)
Definition zipPlus4 (s : jsstring) : Prop :=
  exists a b, s = a ++ 45%N :: b /\ length a = 5 /\ length b = 4 /\
              Forall (fun c => is_digit c = true) a /\
              Forall (fun c => is_digit c = true) b.

(** The columns a cell is guaranteed to be cut in: selected, sanitisation not
    switched off, and no declared type or one of [Auto], [Zipcode]. *)
Definition zipScoped (settings : gmap jsstring ColumnSanitizationSettings)
    (selectedColumns : list jsstring) (key : jsstring) : Prop :=
  selected selectedColumns key = true /\
  disabled settings key = false /\
  (declaredType settings key = None \/ declaredType settings key = Some Auto
   \/ declaredType settings key = Some Zipcode).

(** The other columns: not selected, sanitisation switched off, or declared
    of a type other than [Auto] and [Zipcode]. *)
Definition zipExempt (settings : gmap jsstring ColumnSanitizationSettings)
    (selectedColumns : list jsstring) (key : jsstring) : Prop :=
  selected selectedColumns key = false \/
  disabled settings key = true \/
  exists t, declaredType settings key = Some t /\ t <> Auto /\ t <> Zipcode.

(** The options with the sanitize-ZIP-codes switch set to [zip]. *)
Definition with_sanitizeZipCodes (zip : bool) (options : SanitizationOptions)
    : SanitizationOptions :=
  {| removeSpecialChars := removeSpecialChars options;
     replaceWithSpace := replaceWithSpace options;
     sanitizeZipCodes := zip |}.

(** Example state: the option on, every column selected, the column ["ref"]
    declared as text. *)
Definition zip_on : SanitizationOptions :=
  {| removeSpecialChars := false; replaceWithSpace := true; sanitizeZipCodes := true |}.

Definition ref_is_text : gmap jsstring ColumnSanitizationSettings :=
  {[ js "ref" := {| enableSanitization := true; preserveCharacters := None;
                    columnType := Some Text |} ]}.

Definition zip_row : gmap jsstring value :=
  <[js "ref" := VStr (js "12345-6789")]> (<[js "zip" := VStr (js "12345-6789")]> ∅).

(** Text made of digits only. *)
Definition digits (s : jsstring) : Prop := Forall (fun c => is_digit c = true) s.

(** Text made of digits and hyphens only. *)
Definition hyphenated (s : jsstring) : Prop :=
  Forall (fun c => is_digit c = true \/ c = 45%N) s.

(** [regex] replaced by a space, as in [row[key].replace(regex, " ")]. *)
Definition blanked (preserved : jsstring) (s : jsstring) : jsstring :=
  List.map (fun c => if is_special preserved c then 32%N else c) s.

(** A unit the removal leaves in place. *)
Definition kept (preserved : jsstring) (c : N) : Prop := is_special preserved c = false.

(** Blanks are single plain spaces; [afterBlank] tells that the unit before
    was one. *)
Fixpoint spaced (afterBlank : bool) (s : jsstring) : bool :=
  match s with
  | [] => true
  | c :: s' =>
      if is_space c then (c =? 32)%N && negb afterBlank && spaced true s'
      else spaced false s'
  end.

(** No blank at either end, every blank a plain space followed by a unit that
    is not blank. *)
Definition tidy (s : jsstring) : Prop :=
  (forall c rest, s = c :: rest -> is_space c = false) /\
  (forall front c, s = front ++ [c] -> is_space c = false) /\
  (forall front a b rest, s = front ++ a :: b :: rest -> is_space a = true ->
                          a = 32%N /\ is_space b = false).

(** The replace-with-space branch. *)
Definition respaced (preserved s : jsstring) : jsstring :=
  trim (collapseSpaces false (blanked preserved s)).

(** The declared types that take the [default] case of the [switch] without
    the automatic detection. *)
Definition plain (t : ColumnType) : Prop := t = Text \/ t = Number \/ t = Date.

(** Example options: special characters replaced by spaces. *)
Definition strip_on : SanitizationOptions :=
  {| removeSpecialChars := true; replaceWithSpace := true; sanitizeZipCodes := false |}.

(** *** Proofs *)

(** Unfolds a pattern's classes and decides each on a digit. *)
Ltac digit_blind_tac :=
  intros d Hd; apply is_digit_range in Hd; unfold alike;
  cbn [classes app rep between upto opt plus atleast chr digit];
  repeat (apply Forall_cons; split); try apply Forall_nil;
  cbv [is_local_part is_domain is_alpha is_separator is_currency_symbol is_amount
       is_alnum is_lower is_upper is_digit is_space];
  decide_class.

Lemma emailPattern_digit_blind : digit_blind emailPattern.
Proof. unfold emailPattern. digit_blind_tac. Qed.

Lemma phonePattern_digit_blind : digit_blind phonePattern.
Proof. unfold phonePattern. digit_blind_tac. Qed.

Lemma currencyValuePattern_digit_blind : digit_blind currencyValuePattern.
Proof. unfold currencyValuePattern. digit_blind_tac. Qed.

Lemma zipPattern_digit_blind : digit_blind zipPattern.
Proof. unfold zipPattern. digit_blind_tac. Qed.

Lemma zipPlus4Pattern_digit_blind : digit_blind zipPlus4Pattern.
Proof. unfold zipPlus4Pattern. digit_blind_tac. Qed.

(** The pattern of the second loop matches exactly the shape [NNNNN-NNNN]. *)
Lemma zipPlus4_shape (s : jsstring) : test zipPlus4Pattern s = true -> zipPlus4 s.
Proof.
  unfold test. rewrite matches_lang. unfold zipPlus4Pattern, digit, chr. intros H.
  inversion H as [ | | ? ? a s2 Ha H2 | | | | ]; subst.
  inversion H2 as [ | | ? ? s3 b H3 Hb | | | | ]; subst.
  inversion H3 as [ | ? c Hc | | | | | ]; subst.
  apply N.eqb_eq in Hc as <-.
  apply (lang_rep_class is_digit 5) in Ha as [La Da].
  apply (lang_rep_class is_digit 4) in Hb as [Lb Db].
  exists a, b. auto.
Qed.

(** A string of the ZIP+4 shape, written out unit by unit. *)
Lemma zipPlus4_units (s : jsstring) :
  zipPlus4 s ->
  exists a1 a2 a3 a4 a5 b1 b2 b3 b4,
    s = [a1; a2; a3; a4; a5; 45%N; b1; b2; b3; b4] /\
    Forall (fun c => is_digit c = true) [a1; a2; a3; a4; a5; b1; b2; b3; b4].
Proof.
  intros (a & b & -> & La & Lb & Da & Db).
  do 5 (destruct a as [| ? a]; [discriminate La |]). destruct a; [| discriminate La].
  do 4 (destruct b as [| ? b]; [discriminate Lb |]). destruct b; [| discriminate Lb].
  split_Forall. do 9 eexists. split; [reflexivity |].
  repeat constructor; assumption.
Qed.

(** What the tests of the pass answer on a string of the ZIP+4 shape: every
    digit may be replaced by [0] without changing a pattern's answer. *)
Lemma zipPlus4_tests (s : jsstring) :
  zipPlus4 s ->
  is_empty (trim s) = false /\
  test emailPattern s = false /\
  test currencyValuePattern s = false /\
  test phonePattern s = false /\
  test zipPattern s = true /\
  digitsOnly s = firstn 5 s ++ skipn 6 s /\
  length (firstn 5 s) = 5 /\
  test zipPlus4Pattern (firstn 5 s) = false.
Proof.
  intros Hs. apply zipPlus4_units in Hs as (a1&a2&a3&a4&a5&b1&b2&b3&b4& -> & Hd).
  assert (Hlike : forall r, digit_blind r ->
            Forall2 (alike r) [a1; a2; a3; a4; a5; 45%N; b1; b2; b3; b4] (js "00000-0000")).
  { intros r Hr. split_Forall.
    repeat (apply List.Forall2_cons; [first [now apply Hr | apply alike_refl] |]).
    apply List.Forall2_nil. }
  assert (Hlike5 : forall r, digit_blind r ->
            Forall2 (alike r) [a1; a2; a3; a4; a5] (js "00000")).
  { intros r Hr. split_Forall.
    repeat (apply List.Forall2_cons; [now apply Hr |]). apply List.Forall2_nil. }
  unfold test.
  rewrite (matches_alike _ _ _ (Hlike _ emailPattern_digit_blind)).
  rewrite (matches_alike _ _ _ (Hlike _ currencyValuePattern_digit_blind)).
  rewrite (matches_alike _ _ _ (Hlike _ phonePattern_digit_blind)).
  rewrite (matches_alike _ _ _ (Hlike _ zipPattern_digit_blind)).
  cbn [firstn skipn].
  rewrite (matches_alike _ _ _ (Hlike5 _ zipPlus4Pattern_digit_blind)).
  split_Forall.
  repeat split; try (vm_compute; reflexivity).
  - unfold trim, trimEnd. cbn [trimStart]. rewrite (digit_not_space a1) by assumption.
    cbn [rev app trimStart]. rewrite (digit_not_space b4) by assumption. reflexivity.
  - unfold digitsOnly. cbn [List.filter]. use_class is_digit. reflexivity.
Qed.

Lemma formatZipCode_truncate_zipPlus4 (s : jsstring) :
  zipPlus4 s -> formatZipCode s true = firstn 5 s.
Proof.
  intros Hs. apply zipPlus4_tests in Hs as (_ & _ & _ & _ & _ & Hd & H5 & _).
  unfold formatZipCode. rewrite Hd. cbn [orb].
  unfold substring, padEnd. rewrite Nat.sub_0_r, skipn_O.
  rewrite firstn_app, H5, Nat.sub_diag, firstn_O, app_nil_r, firstn_firstn.
  cbn [Nat.min]. rewrite H5, Nat.sub_diag. cbn [repeat]. now rewrite app_nil_r.
Qed.

Section Pass.
Context (B : Builtins) (options : SanitizationOptions).
Context (settings : gmap jsstring ColumnSanitizationSettings).
Context (selectedColumns : list jsstring).

(** First loop: in a scoped column a ZIP+4 string is cut to five digits. *)
Lemma sanitizeCell_zipPlus4 (key s : jsstring) :
  sanitizeZipCodes options = true ->
  zipScoped settings selectedColumns key ->
  zipPlus4 s ->
  sanitizeCell B options settings selectedColumns key (VStr s) = VStr (firstn 5 s).
Proof.
  intros Hon (Hsel & Hdis & Htype) Hs.
  pose proof (formatZipCode_truncate_zipPlus4 s Hs) as Hcut.
  apply zipPlus4_tests in Hs as (Hblank & Hemail & Hcur & Hphone & Hzip & _).
  unfold sanitizeCell. rewrite Hsel, Hdis, Hblank. cbn [orb negb].
  f_equal.
  destruct Htype as [-> | [-> | ->]]; unfold sanitizeUntyped;
    rewrite ?Hemail, ?Hcur, ?Hphone, ?Hzip, ?Hon; cbn [andb]; exact Hcut.
Qed.

(** Second loop: the five digits no longer match its pattern. *)
Lemma truncateZipCell_five (key s : jsstring) :
  zipPlus4 s ->
  truncateZipCell settings selectedColumns key (VStr (firstn 5 s)) = VStr (firstn 5 s).
Proof.
  intros Hs. apply zipPlus4_tests in Hs as (_ & _ & _ & _ & _ & _ & _ & Hno).
  unfold truncateZipCell. rewrite Hno. now destruct (_ || _).
Qed.

Lemma sanitizeRow_lookup (r : gmap jsstring value) (key : jsstring) :
  sanitizeRow B options settings selectedColumns r !! key =
  match r !! key ≫= jsonCell with
  | Some v =>
      let v' := sanitizeCell B options settings selectedColumns key v in
      Some (if sanitizeZipCodes options
            then truncateZipCell settings selectedColumns key v' else v')
  | None => None
  end.
Proof.
  unfold sanitizeRow.
  destruct (sanitizeZipCodes options);
    rewrite ?map_lookup_imap, lookup_omap; destruct (r !! key ≫= jsonCell); reflexivity.
Qed.

End Pass.

Lemma digitsOnly_digits (value : jsstring) :
  Forall (fun c => is_digit c = true) (digitsOnly value).
Proof. apply filter_Forall. Qed.

(** X4. The phone formatter groups ten digits as [NNN-NNN-NNNN], and on
    eleven digits that start with [1] drops that digit and groups the other
    ten. *)
Theorem formatPhoneNumber_grouping (value : jsstring) :
  (length (digitsOnly value) = 10 ->
   formatPhoneNumber value =
   firstn 3 (digitsOnly value) ++ js "-" ++ firstn 3 (skipn 3 (digitsOnly value))
   ++ js "-" ++ skipn 6 (digitsOnly value)) /\
  (length (digitsOnly value) = 11 -> (exists rest, digitsOnly value = 49%N :: rest) ->
   formatPhoneNumber value = formatPhoneNumber (skipn 1 (digitsOnly value))) /\
  formatPhoneNumber (js "1234567890") = js "123-456-7890" /\
  formatPhoneNumber (js "11234567890") = js "123-456-7890".
Proof.
  split; [| split; [| split; reflexivity]].
  - intros H. unfold formatPhoneNumber. rewrite H. reflexivity.
  - intros H [rest E].
    pose proof (digitsOnly_digits value) as Hd.
    unfold formatPhoneNumber at 1. rewrite E in *. clear E.
    destruct rest as [| r1 rest]; [discriminate H |].
    do 9 (destruct rest as [| ? rest]; [discriminate H |]).
    destruct rest; [| discriminate H].
    split_Forall.
    unfold formatPhoneNumber, digitsOnly. cbn [skipn List.filter].
    use_class is_digit. reflexivity.
Qed.

(** Every column is in the scope of the option or exempt from it, never both. *)
Lemma zipScoped_or_zipExempt (settings : gmap jsstring ColumnSanitizationSettings)
    (selectedColumns : list jsstring) (key : jsstring) :
  zipScoped settings selectedColumns key \/ zipExempt settings selectedColumns key.
Proof.
  unfold zipScoped, zipExempt.
  destruct (selected selectedColumns key); [| right; now left].
  destruct (disabled settings key); [right; right; now left |].
  destruct (declaredType settings key) as [t |] eqn:Et; [| left; auto].
  destruct t; try (left; now auto);
    right; right; right; eexists; (split; [reflexivity | split; discriminate]).
Qed.

Lemma zipScoped_not_zipExempt (settings : gmap jsstring ColumnSanitizationSettings)
    (selectedColumns : list jsstring) (key : jsstring) :
  zipScoped settings selectedColumns key -> ~ zipExempt settings selectedColumns key.
Proof.
  intros (Hs & Hd & Ht) [He | [He | (t & Et & Ha & Hz)]]; try congruence.
  destruct Ht as [Ht | [Ht | Ht]]; congruence.
Qed.

Section Exempt.
Context (B : Builtins) (options : SanitizationOptions).
Context (settings : gmap jsstring ColumnSanitizationSettings).
Context (selectedColumns : list jsstring).

(** First loop: in an exempt column the switch plays no part. *)
Lemma sanitizeCell_exempt (key : jsstring) (v : value) (zip : bool) :
  zipExempt settings selectedColumns key ->
  sanitizeCell B (with_sanitizeZipCodes zip options) settings selectedColumns key v
  = sanitizeCell B options settings selectedColumns key v.
Proof.
  intros He. unfold sanitizeCell.
  destruct (disabled settings key || negb (selected selectedColumns key)) eqn:Eskip;
    [reflexivity |].
  apply orb_false_iff in Eskip as [Ed Es]. apply negb_false_iff in Es.
  destruct He as [He | [He | (t & -> & Ha & Hz)]]; [congruence | congruence |].
  destruct v as [| | b | x | s]; try reflexivity.
  destruct (is_empty (trim s)); [reflexivity |].
  destruct t; try congruence; reflexivity.
Qed.

(** Second loop: an exempt column is skipped. *)
Lemma truncateZipCell_exempt (key : jsstring) (v : value) :
  zipExempt settings selectedColumns key ->
  truncateZipCell settings selectedColumns key v = v.
Proof.
  intros [He | [He | (t & Et & _)]]; unfold truncateZipCell.
  - rewrite He. cbn [negb]. now rewrite !orb_true_r.
  - rewrite He. now rewrite orb_true_r.
  - now rewrite Et.
Qed.

Lemma sanitizeRow_exempt (r : gmap jsstring value) (key : jsstring) :
  zipExempt settings selectedColumns key ->
  sanitizeRow B options settings selectedColumns r !! key
  = sanitizeRow B (with_sanitizeZipCodes false options) settings selectedColumns r !! key.
Proof.
  intros He. rewrite !sanitizeRow_lookup.
  destruct (r !! key ≫= jsonCell) as [v |]; [| reflexivity].
  cbv zeta. cbn [with_sanitizeZipCodes sanitizeZipCodes].
  rewrite sanitizeCell_exempt by exact He.
  destruct (sanitizeZipCodes options); [| reflexivity].
  now rewrite truncateZipCell_exempt.
Qed.

End Exempt.

(** C6 (amended). With the sanitize-ZIP-codes option on, a string cell shaped
    [NNNNN-NNNN] is cut to its leading five digits in every selected column
    whose sanitisation is not switched off and whose type is undeclared,
    [Auto] or [Zipcode]. In every other column (one that is not selected, one
    with sanitisation switched off, one declared as text, number, date,
    phone, email, currency or ssn) the option has no effect: the pass leaves
    in the cell what it leaves there with the option off. *)
Theorem sanitizeZipCodes_scope (B : Builtins) (options : SanitizationOptions)
    (settings : gmap jsstring ColumnSanitizationSettings)
    (selectedColumns : list jsstring)
    (data : list (gmap jsstring value)) (i : nat) (r : gmap jsstring value)
    (key : jsstring) :
  data !! i = Some r ->
  (sanitizeZipCodes options = true ->
   zipScoped settings selectedColumns key ->
   forall s,
     r !! key = Some (VStr s) ->
     test zipPlus4Pattern s = true ->
     exists r',
       sanitizeData B options settings selectedColumns data !! i = Some r' /\
       r' !! key = Some (VStr (firstn 5 s)) /\
       length (firstn 5 s) = 5 /\ Forall (fun c => is_digit c = true) (firstn 5 s)) /\
  (zipExempt settings selectedColumns key ->
   exists r' r'',
     sanitizeData B options settings selectedColumns data !! i = Some r' /\
     sanitizeData B (with_sanitizeZipCodes false options) settings selectedColumns data !! i
     = Some r'' /\
     r' !! key = r'' !! key) /\
  (zipScoped settings selectedColumns key \/ zipExempt settings selectedColumns key) /\
  (zipScoped settings selectedColumns key -> ~ zipExempt settings selectedColumns key).
Proof.
  intros Hi.
  assert (Hrow : forall options',
             sanitizeData B options' settings selectedColumns data !! i
             = Some (sanitizeRow B options' settings selectedColumns r)).
  { intros options'. unfold sanitizeData. destruct data as [| r0 data]; [discriminate Hi |].
    cbn [length Nat.eqb]. now rewrite list_lookup_fmap, Hi. }
  split; [| split; [| split]].
  - intros Hon Hscope s Hkey Hshape.
    apply zipPlus4_shape in Hshape.
    exists (sanitizeRow B options settings selectedColumns r). split; [| split; [| split]].
    + apply Hrow.
    + rewrite sanitizeRow_lookup, Hkey. cbn [mbind option_bind jsonCell]. cbv zeta.
      rewrite Hon, sanitizeCell_zipPlus4 by assumption.
      now rewrite truncateZipCell_five.
    + now apply zipPlus4_tests in Hshape.
    + destruct Hshape as (a & b & -> & La & _ & Da & _).
      rewrite firstn_app, La, Nat.sub_diag, firstn_O, app_nil_r.
      now apply Forall_firstn.
  - intros He. do 2 eexists. split; [apply Hrow |]. split; [apply Hrow |].
    now apply sanitizeRow_exempt.
  - apply zipScoped_or_zipExempt.
  - apply zipScoped_not_zipExempt.
Qed.

(** The hypotheses of [sanitizeZipCodes_scope] hold for the undeclared column
    ["zip"] of the example row, whose cell becomes ["12345"]. *)
Lemma sanitizeZipCodes_scope_witness :
  exists r',
    sanitizeData example_builtins zip_on ref_is_text [js "ref"; js "zip"] [zip_row] !! 0
    = Some r' /\
    r' !! js "zip" = Some (VStr (js "12345")).
Proof.
  destruct (sanitizeZipCodes_scope example_builtins zip_on ref_is_text
              [js "ref"; js "zip"] [zip_row] 0 zip_row (js "zip") eq_refl)
    as (Hcut & _).
  destruct (Hcut eq_refl) with (s := js "12345-6789") as (r' & Hr & Hcell & _).
  - split; [vm_compute; reflexivity | split; [vm_compute; reflexivity |]].
    left. vm_compute. reflexivity.
  - vm_compute. reflexivity.
  - vm_compute. reflexivity.
  - exists r'. split; [exact Hr | exact Hcell].
Defined.

(** X5. In a column declared as text, number or date, with special-character
    removal off, the pass leaves every string cell as it is, whatever the
    sanitize-ZIP-codes option says. *)
Theorem sanitizeRow_typed_column (B : Builtins) (options : SanitizationOptions)
    (settings : gmap jsstring ColumnSanitizationSettings)
    (selectedColumns : list jsstring) (r : gmap jsstring value)
    (key s : jsstring) (t : ColumnType) :
  declaredType settings key = Some t ->
  t = Text \/ t = Number \/ t = Date ->
  removeSpecialChars options = false ->
  r !! key = Some (VStr s) ->
  sanitizeRow B options settings selectedColumns r !! key = Some (VStr s).
Proof.
  intros Htype Ht Hoff Hkey.
  rewrite sanitizeRow_lookup, Hkey. cbn [mbind option_bind jsonCell]. cbv zeta.
  assert (Hcell : sanitizeCell B options settings selectedColumns key (VStr s) = VStr s).
  { unfold sanitizeCell.
    destruct (disabled settings key || negb (selected selectedColumns key));
      [reflexivity |].
    rewrite Htype. destruct (is_empty (trim s)); [reflexivity |].
    destruct Ht as [-> | [-> | ->]]; unfold sanitizeUntyped; cbn [andb];
      now rewrite Hoff. }
  rewrite Hcell. unfold truncateZipCell. rewrite Htype. cbn [orb].
  now destruct (sanitizeZipCodes options).
Qed.

(** [sanitizeRow_typed_column] on the text column ["ref"] of the example row. *)
Lemma sanitizeRow_typed_column_witness :
  declaredType ref_is_text (js "ref") = Some Text /\
  sanitizeRow example_builtins zip_on ref_is_text [js "ref"; js "zip"] zip_row
    !! js "ref" = Some (VStr (js "12345-6789")).
Proof.
  assert (Htype : declaredType ref_is_text (js "ref") = Some Text)
    by (vm_compute; reflexivity).
  split; [exact Htype |].
  apply (sanitizeRow_typed_column example_builtins zip_on ref_is_text
           [js "ref"; js "zip"] zip_row (js "ref") (js "12345-6789") Text Htype).
  - now left.
  - reflexivity.
  - vm_compute. reflexivity.
Defined.

(** C6 as stated fails: with the option on, the cell ["12345-6789"] of the
    selected column ["ref"], declared as text and not as a ZIP code, keeps
    its nine digits. *)
Lemma sanitizeZipCodes_skips_typed_column :
  sanitizeZipCodes zip_on = true /\
  declaredType ref_is_text (js "ref") = Some Text /\
  test zipPlus4Pattern (js "12345-6789") = true /\
  sanitizeData example_builtins zip_on ref_is_text [js "ref"; js "zip"] [zip_row]
  = [ <[js "ref" := VStr (js "12345-6789")]> (<[js "zip" := VStr (js "12345")]> ∅) ].
Proof. repeat split; vm_compute; reflexivity. Qed.

(** *** The formatters are stable *)

Lemma digitsOnly_app (a b : jsstring) :
  digitsOnly (a ++ b) = digitsOnly a ++ digitsOnly b.
Proof. apply List.filter_app. Qed.

Lemma digitsOnly_id (s : jsstring) : digits s -> digitsOnly s = s.
Proof. apply filter_all. Qed.

Lemma digitsOnly_idem (s : jsstring) : digitsOnly (digitsOnly s) = digitsOnly s.
Proof. apply digitsOnly_id, digitsOnly_digits. Qed.

Lemma digitsOnly_hyphen (a b : jsstring) :
  digits a -> digitsOnly (a ++ js "-" ++ b) = a ++ digitsOnly b.
Proof. intros Ha. now rewrite !digitsOnly_app, (digitsOnly_id a Ha). Qed.

Lemma substring_digits (a b : nat) (d : jsstring) : digits d -> digits (substring a b d).
Proof. intros H. now apply Forall_firstn, Forall_skipn. Qed.

Lemma skipn_digits (n : nat) (d : jsstring) : digits d -> digits (skipn n d).
Proof. apply Forall_skipn. Qed.

Lemma firstn_digits (n : nat) (d : jsstring) : digits d -> digits (firstn n d).
Proof. apply Forall_firstn. Qed.

Ltac digits_tac :=
  repeat first [assumption | apply substring_digits | apply skipn_digits
                | apply firstn_digits].

(** The digits of a formatted phone number are those of the input, less the
    leading [1] of an eleven-digit number. *)
Lemma formatPhoneNumber_digits (value : jsstring) :
  digitsOnly (formatPhoneNumber value) =
  if (length (digitsOnly value) =? 11)%nat && startsWith (digitsOnly value) (js "1")
  then skipn 1 (digitsOnly value) else digitsOnly value.
Proof.
  pose proof (digitsOnly_digits value) as Hd. fold (digits (digitsOnly value)) in Hd.
  unfold formatPhoneNumber. set (d := digitsOnly value) in *.
  destruct (length d =? 10)%nat eqn:E10.
  { apply Nat.eqb_eq in E10.
    replace (length d =? 11)%nat with false by (symmetry; apply Nat.eqb_neq; lia).
    cbn [andb]. unfold substringFrom.
    rewrite !digitsOnly_hyphen, digitsOnly_id by digits_tac.
    rewrite substring_rest by lia. rewrite substring_rest by lia. apply skipn_O. }
  destruct ((length d =? 11)%nat && startsWith d (js "1")) eqn:E11.
  { unfold substringFrom.
    rewrite !digitsOnly_hyphen, digitsOnly_id by digits_tac.
    rewrite substring_rest by lia. now rewrite substring_rest by lia. }
  destruct (7 <=? length d)%nat eqn:E7; [| now apply digitsOnly_id].
  apply Nat.leb_le in E7. apply Nat.eqb_neq in E10.
  unfold sliceLast, sliceNeg, sliceUpToNeg, substringFrom.
  set (n := length d) in *.
  assert (Hlocal : substring 0 3 (skipn (n - 7) d) ++ skipn 3 (skipn (n - 7) d)
                   = skipn (n - 7) d).
  { rewrite substring_rest by lia. apply skipn_O. }
  assert (Hdl : digits (skipn (n - 7) d)) by now apply Forall_skipn.
  destruct (firstn (n - 7 - (n - 10)) (skipn (n - 10) d)) as [| a0 area] eqn:Ea;
    cbn [is_empty negb].
  - rewrite digitsOnly_hyphen, digitsOnly_id by digits_tac.
    rewrite Hlocal.
    assert (Hn : n = 7).
    { apply (f_equal (@length N)) in Ea.
      rewrite length_firstn, length_skipn in Ea. simpl in Ea. fold n in Ea. lia. }
    rewrite Hn. apply skipn_O.
  - rewrite <- Ea.
    assert (Hda : digits (firstn (n - 7 - (n - 10)) (skipn (n - 10) d)))
      by now apply Forall_firstn, Forall_skipn.
    assert (Harea : firstn (n - 7 - (n - 10)) (skipn (n - 10) d) ++ skipn (n - 7) d
                    = skipn (n - 10) d).
    { apply (substring_rest (n - 10) (n - 7) d). lia. }
    destruct (firstn (n - 10) d) as [| c0 country] eqn:Ec; cbn [is_empty negb].
    + rewrite !digitsOnly_hyphen, digitsOnly_id
        by digits_tac.
      rewrite Hlocal, Harea.
      assert (Hn : n - 10 = 0).
      { apply (f_equal (@length N)) in Ec. rewrite length_firstn in Ec.
        simpl in Ec. fold n in Ec. lia. }
      rewrite Hn. apply skipn_O.
    + rewrite <- Ec.
      rewrite !digitsOnly_hyphen, digitsOnly_id
        by digits_tac.
      rewrite Hlocal, Harea. apply firstn_skipn.
Qed.

Lemma formatPhoneNumber_of_digits (value : jsstring) :
  formatPhoneNumber (digitsOnly value) = formatPhoneNumber value.
Proof. unfold formatPhoneNumber. now rewrite digitsOnly_idem. Qed.

Lemma formatPhoneNumber_eleven (d : jsstring) :
  digits d -> length d = 11 -> startsWith d (js "1") = true ->
  formatPhoneNumber (skipn 1 d) = formatPhoneNumber d.
Proof.
  intros Hd Hl Hs.
  do 11 (destruct d as [| ? d]; [discriminate Hl |]).
  destruct d; [| discriminate Hl].
  cbn [startsWith js List.map list_ascii_of_string] in Hs.
  rewrite andb_true_r in Hs. apply N.eqb_eq in Hs. subst.
  unfold digits in Hd. split_Forall.
  unfold formatPhoneNumber, digitsOnly. cbn [skipn List.filter].
  use_class is_digit. reflexivity.
Qed.

Lemma formatPhoneNumber_twice_eq (value : jsstring) :
  formatPhoneNumber (formatPhoneNumber value) = formatPhoneNumber value.
Proof.
  rewrite <- (formatPhoneNumber_of_digits (formatPhoneNumber value)).
  rewrite formatPhoneNumber_digits.
  destruct (_ && _) eqn:E.
  - apply andb_prop in E as [El Es]. apply Nat.eqb_eq in El.
    rewrite formatPhoneNumber_eleven by (auto; apply digitsOnly_digits).
    apply formatPhoneNumber_of_digits.
  - apply formatPhoneNumber_of_digits.
Qed.

Lemma digits_hyphenated (d : jsstring) : digits d -> hyphenated d.
Proof. apply List.Forall_impl. intros c Hc. now left. Qed.

Lemma hyphenated_join (a b : jsstring) :
  digits a -> hyphenated b -> hyphenated (a ++ js "-" ++ b).
Proof.
  intros Ha Hb. apply Forall_app. split; [now apply digits_hyphenated |].
  apply Forall_cons. split; [now right | exact Hb].
Qed.

(** X12. Formatting a phone number that [formatPhoneNumber] produced leaves
    it unchanged; the digits of the result are those of the input, less the
    leading [1] of an eleven-digit number; and the result holds nothing but
    digits and hyphens. *)
Theorem formatPhoneNumber_stable (value : jsstring) :
  formatPhoneNumber (formatPhoneNumber value) = formatPhoneNumber value /\
  digitsOnly (formatPhoneNumber value) =
  (if (length (digitsOnly value) =? 11)%nat && startsWith (digitsOnly value) (js "1")
   then skipn 1 (digitsOnly value) else digitsOnly value) /\
  hyphenated (formatPhoneNumber value).
Proof.
  split; [apply formatPhoneNumber_twice_eq |].
  split; [apply formatPhoneNumber_digits |].
  pose proof (digitsOnly_digits value) as Hd. fold (digits (digitsOnly value)) in Hd.
  unfold formatPhoneNumber. set (d := digitsOnly value) in *.
  unfold sliceLast, sliceNeg, sliceUpToNeg, substringFrom.
  repeat match goal with
         | |- hyphenated (if ?b then _ else _) => destruct b
         end;
    repeat (apply hyphenated_join; [digits_tac |]);
    apply digits_hyphenated; digits_tac.
Qed.

Lemma padEnd_digits (d : jsstring) : digits d -> digits (padEnd 5 48 d).
Proof.
  intros H. unfold padEnd. apply Forall_app. split; [exact H |].
  now apply Forall_repeat.
Qed.

Lemma padEnd_length (d : jsstring) : length d <= 5 -> length (padEnd 5 48 d) = 5.
Proof. intros H. unfold padEnd. rewrite length_app, repeat_length. lia. Qed.

Lemma padEnd_full (d : jsstring) : length d = 5 -> padEnd 5 48 (substring 0 5 d) = d.
Proof.
  intros H. unfold padEnd, substring. rewrite skipn_O, Nat.sub_0_r.
  rewrite firstn_all2 by lia. rewrite H, Nat.sub_diag. apply app_nil_r.
Qed.

(** The digits of a formatted ZIP code. *)
Lemma formatZipCode_digits (value : jsstring) (truncate : bool) :
  digitsOnly (formatZipCode value truncate) =
  if truncate || (length (digitsOnly value) <=? 5)%nat
  then padEnd 5 48 (firstn 5 (digitsOnly value))
  else firstn 9 (digitsOnly value).
Proof.
  pose proof (digitsOnly_digits value) as Hd. fold (digits (digitsOnly value)) in Hd.
  unfold formatZipCode. set (d := digitsOnly value) in *.
  destruct (truncate || (length d <=? 5)%nat) eqn:E5.
  { unfold substring. rewrite skipn_O, Nat.sub_0_r.
    apply digitsOnly_id, padEnd_digits. digits_tac. }
  apply orb_false_iff in E5 as [_ E5]. apply Nat.leb_gt in E5.
  destruct (length d <=? 9)%nat eqn:E9.
  - apply Nat.leb_le in E9. unfold substringFrom.
    rewrite digitsOnly_hyphen, digitsOnly_id by digits_tac.
    rewrite substring_rest by lia. rewrite skipn_O. symmetry. apply firstn_all2. lia.
  - rewrite digitsOnly_hyphen, digitsOnly_id by digits_tac.
    unfold substring. rewrite skipn_O, !Nat.sub_0_r.
    change (9 - 5) with 4.
    rewrite <- (firstn_skipn 5 (firstn 9 d)). f_equal.
    + rewrite List.firstn_firstn. reflexivity.
    + rewrite List.skipn_firstn_comm. reflexivity.
Qed.

Lemma formatZipCode_of_digits (value : jsstring) (truncate : bool) :
  formatZipCode (digitsOnly value) truncate = formatZipCode value truncate.
Proof. unfold formatZipCode. now rewrite digitsOnly_idem. Qed.

Lemma formatZipCode_twice_eq (value : jsstring) (truncate : bool) :
  formatZipCode (formatZipCode value truncate) truncate = formatZipCode value truncate.
Proof.
  pose proof (digitsOnly_digits value) as Hd. fold (digits (digitsOnly value)) in Hd.
  rewrite <- (formatZipCode_of_digits (formatZipCode value truncate)).
  rewrite formatZipCode_digits.
  unfold formatZipCode at 2. set (d := digitsOnly value) in *.
  destruct (truncate || (length d <=? 5)%nat) eqn:E5.
  - unfold formatZipCode.
    assert (Hp : digits (padEnd 5 48 (firstn 5 d))) by (apply padEnd_digits; digits_tac).
    assert (Hl : length (padEnd 5 48 (firstn 5 d)) = 5).
    { apply padEnd_length. rewrite length_firstn. lia. }
    rewrite (digitsOnly_id _ Hp), Hl. cbn [Nat.leb]. rewrite orb_true_r.
    rewrite (padEnd_full _ Hl). unfold substring. now rewrite skipn_O, Nat.sub_0_r.
  - apply orb_false_iff in E5 as [Et E5]. apply Nat.leb_gt in E5.
    unfold formatZipCode.
    assert (Hp : digits (firstn 9 d)) by digits_tac.
    rewrite (digitsOnly_id _ Hp), Et. cbn [orb].
    rewrite length_firstn.
    replace (Nat.min 9 (length d) <=? 5)%nat with false
      by (symmetry; apply Nat.leb_gt; lia).
    replace (Nat.min 9 (length d) <=? 9)%nat with true
      by (symmetry; apply Nat.leb_le; lia).
    unfold substring, substringFrom. rewrite !skipn_O, !Nat.sub_0_r.
    rewrite List.firstn_firstn. change (Nat.min 5 9) with 5.
    rewrite List.skipn_firstn_comm. change (9 - 5) with 4.
    destruct (length d <=? 9)%nat eqn:E9; [| reflexivity].
    apply Nat.leb_le in E9. do 2 f_equal. apply firstn_all2.
    rewrite length_skipn. lia.
Qed.

(** X13. The page's ZIP formatter is idempotent; its result starts with the
    first five digits of the input, filled up with zeros, is between 5 and 10
    units long, and is exactly five units long when truncation is on. *)
Theorem formatZipCode_stable (value : jsstring) (truncate : bool) :
  formatZipCode (formatZipCode value truncate) truncate = formatZipCode value truncate /\
  firstn 5 (formatZipCode value truncate) = padEnd 5 48 (firstn 5 (digitsOnly value)) /\
  5 <= length (formatZipCode value truncate) <= 10 /\
  length (formatZipCode value true) = 5.
Proof.
  pose proof (digitsOnly_digits value) as Hd. fold (digits (digitsOnly value)) in Hd.
  split; [apply formatZipCode_twice_eq |].
  assert (Hpad : length (padEnd 5 48 (firstn 5 (digitsOnly value))) = 5).
  { apply padEnd_length. rewrite length_firstn. lia. }
  assert (Hfull : 5 < length (digitsOnly value) ->
                  padEnd 5 48 (firstn 5 (digitsOnly value)) = firstn 5 (digitsOnly value)).
  { intros H. unfold padEnd. rewrite length_firstn.
    replace (5 - Nat.min 5 (length (digitsOnly value))) with 0 by lia.
    apply app_nil_r. }
  unfold formatZipCode. set (d := digitsOnly value) in *.
  unfold substring, substringFrom. rewrite !skipn_O, !Nat.sub_0_r. cbn [orb].
  split; [| split; [| exact Hpad]].
  - destruct (truncate || (length d <=? 5)%nat) eqn:E5.
    + apply firstn_all2. lia.
    + apply orb_false_iff in E5 as [_ E5]. apply Nat.leb_gt in E5.
      rewrite (Hfull E5).
      destruct (length d <=? 9)%nat;
        (rewrite firstn_app, length_firstn;
         replace (5 - Nat.min 5 (length d)) with 0 by lia;
         rewrite firstn_O, app_nil_r; apply firstn_all2; rewrite length_firstn; lia).
  - destruct (truncate || (length d <=? 5)%nat) eqn:E5; [lia |].
    apply orb_false_iff in E5 as [_ E5]. apply Nat.leb_gt in E5.
    destruct (length d <=? 9)%nat eqn:E9.
    + apply Nat.leb_le in E9.
      rewrite !length_app, length_firstn, length_skipn. cbn [length js List.map list_ascii_of_string]. lia.
    + rewrite !length_app, !length_firstn, length_skipn. cbn [length js List.map list_ascii_of_string]. lia.
Qed.

(** The digits of a formatted SSN: the first nine of the input. *)
Lemma formatSSN_digits (value : jsstring) :
  digitsOnly (formatSSN value) = firstn 9 (digitsOnly value).
Proof.
  pose proof (digitsOnly_digits value) as Hd. fold (digits (digitsOnly value)) in Hd.
  unfold formatSSN. set (d := digitsOnly value) in *.
  destruct (length d <=? 3)%nat eqn:E3.
  { apply Nat.leb_le in E3. rewrite firstn_all2 by lia. now apply digitsOnly_id. }
  apply Nat.leb_gt in E3.
  destruct (length d <=? 5)%nat eqn:E5.
  { apply Nat.leb_le in E5. unfold substringFrom.
    rewrite digitsOnly_hyphen, digitsOnly_id by digits_tac.
    rewrite substring_rest by lia. rewrite skipn_O. symmetry. apply firstn_all2. lia. }
  rewrite !digitsOnly_hyphen, digitsOnly_id by digits_tac.
  unfold substring. rewrite skipn_O, !Nat.sub_0_r.
  change (5 - 3) with 2. change (9 - 5) with 4.
  rewrite <- (firstn_skipn 3 (firstn 9 d)), List.firstn_firstn. f_equal.
  rewrite List.skipn_firstn_comm. change (9 - 3) with 6.
  rewrite <- (firstn_skipn 2 (firstn 6 (skipn 3 d))), List.firstn_firstn. f_equal.
  rewrite List.skipn_firstn_comm, List.skipn_skipn. reflexivity.
Qed.

Lemma formatSSN_of_digits (value : jsstring) :
  formatSSN (digitsOnly value) = formatSSN value.
Proof. unfold formatSSN. now rewrite digitsOnly_idem. Qed.

Lemma formatSSN_twice_eq (value : jsstring) :
  formatSSN (formatSSN value) = formatSSN value.
Proof.
  pose proof (digitsOnly_digits value) as Hd. fold (digits (digitsOnly value)) in Hd.
  rewrite <- (formatSSN_of_digits (formatSSN value)), formatSSN_digits.
  unfold formatSSN. set (d := digitsOnly value) in *.
  rewrite (digitsOnly_id (firstn 9 d)) by digits_tac.
  rewrite length_firstn.
  destruct (length d <=? 3)%nat eqn:E3.
  { apply Nat.leb_le in E3.
    replace (Nat.min 9 (length d) <=? 3)%nat with true
      by (symmetry; apply Nat.leb_le; lia).
    apply firstn_all2. lia. }
  apply Nat.leb_gt in E3.
  replace (Nat.min 9 (length d) <=? 3)%nat with false
    by (symmetry; apply Nat.leb_gt; lia).
  unfold substring, substringFrom. rewrite !skipn_O, !Nat.sub_0_r.
  rewrite !List.skipn_firstn_comm, !List.firstn_firstn.
  change (Nat.min 3 9) with 3. change (Nat.min (5 - 3) (9 - 3)) with (5 - 3).
  change (Nat.min (9 - 5) (9 - 5)) with (9 - 5).
  destruct (length d <=? 5)%nat eqn:E5.
  - apply Nat.leb_le in E5.
    replace (Nat.min 9 (length d) <=? 5)%nat with true
      by (symmetry; apply Nat.leb_le; lia).
    do 2 f_equal. apply firstn_all2. rewrite length_skipn. lia.
  - apply Nat.leb_gt in E5.
    replace (Nat.min 9 (length d) <=? 5)%nat with false
      by (symmetry; apply Nat.leb_gt; lia).
    reflexivity.
Qed.

(** X14. The page's SSN formatter is idempotent; its result holds the first
    nine digits of the input and is at most 11 units long. *)
Theorem formatSSN_stable (value : jsstring) :
  formatSSN (formatSSN value) = formatSSN value /\
  digitsOnly (formatSSN value) = firstn 9 (digitsOnly value) /\
  length (formatSSN value) <= 11.
Proof.
  split; [apply formatSSN_twice_eq |]. split; [apply formatSSN_digits |].
  unfold formatSSN. set (d := digitsOnly value).
  destruct (length d <=? 3)%nat eqn:E3; [apply Nat.leb_le in E3; lia |].
  destruct (length d <=? 5)%nat eqn:E5.
  - apply Nat.leb_le in E5. unfold substring, substringFrom.
    rewrite !length_app, length_firstn, !length_skipn.
    cbn [length js List.map list_ascii_of_string]. lia.
  - unfold substring. rewrite !length_app, !length_firstn, !length_skipn.
    cbn [length js List.map list_ascii_of_string]. lia.
Qed.

Lemma formatCurrency_twice_eq (value : jsstring) :
  formatCurrency (formatCurrency value) = formatCurrency value.
Proof.
  unfold formatCurrency. destruct value as [| c value]; [reflexivity |].
  destruct (is_currency_symbol c) eqn:E; [now rewrite E | reflexivity].
Qed.

(** *** Special-character removal *)

Lemma spaced_collapseSpaces (s : jsstring) :
  forall b, spaced b (collapseSpaces b s) = true.
Proof.
  induction s as [| c s IH]; intros b; [reflexivity |]. simpl.
  destruct (is_space c) eqn:Ec.
  - destruct b; [apply IH |]. simpl. apply IH.
  - simpl. rewrite Ec. apply IH.
Qed.

Lemma collapseSpaces_spaced (s : jsstring) :
  forall b, spaced b s = true -> collapseSpaces b s = s.
Proof.
  induction s as [| c s IH]; intros b H; [reflexivity |]. simpl in *.
  destruct (is_space c).
  - apply andb_prop in H as [H Hs]. apply andb_prop in H as [Hc Hb].
    apply N.eqb_eq in Hc. subst c. destruct b; [discriminate |].
    now rewrite IH.
  - now rewrite IH.
Qed.

Lemma spaced_app (p q : jsstring) :
  forall b, spaced b (p ++ q) = true -> spaced b p = true.
Proof.
  induction p as [| c p IH]; intros b H; [reflexivity |]. simpl in *.
  destruct (is_space c).
  - apply andb_prop in H as [H Hs]. rewrite H. now apply IH in Hs.
  - now apply IH in H.
Qed.

Lemma spaced_blank (front : jsstring) (a : N) (rest : jsstring) :
  forall b, spaced b (front ++ a :: rest) = true -> is_space a = true ->
            a = 32%N /\ spaced true rest = true.
Proof.
  induction front as [| c front IH]; intros b H Ha; simpl in H.
  - rewrite Ha in H. apply andb_prop in H as [H Hs]. apply andb_prop in H as [Hc _].
    apply N.eqb_eq in Hc. auto.
  - destruct (is_space c).
    + apply andb_prop in H as [_ H]. now apply IH in H.
    + now apply IH in H.
Qed.

Lemma spaced_after_blank (s : jsstring) :
  spaced true s = true -> spaced false s = true /\ trimStart s = s.
Proof.
  destruct s as [| c s]; [auto |]. simpl.
  destruct (is_space c); [| auto].
  rewrite andb_false_r. discriminate.
Qed.

Lemma spaced_trimStart (s : jsstring) (b : bool) :
  spaced b s = true -> spaced false (trimStart s) = true.
Proof.
  destruct s as [| c s]; [reflexivity |]. simpl.
  destruct (is_space c) eqn:Ec.
  - intros H. apply andb_prop in H as [_ H].
    apply spaced_after_blank in H as [H ->]. exact H.
  - intros H. simpl. now rewrite Ec.
Qed.

Lemma trimStart_suffix (s : jsstring) : exists front, s = front ++ trimStart s.
Proof.
  induction s as [| c s [front IH]]; [now exists [] |]. simpl.
  destruct (is_space c).
  - exists (c :: front). simpl. now rewrite <- IH.
  - now exists [].
Qed.

Lemma trimEnd_prefix (s : jsstring) : exists back, s = trimEnd s ++ back.
Proof.
  unfold trimEnd. destruct (trimStart_suffix (rev s)) as [front H].
  exists (rev front). rewrite <- rev_app_distr, <- H. symmetry. apply rev_involutive.
Qed.

Lemma trimStart_head (s : jsstring) (c : N) (rest : jsstring) :
  trimStart s = c :: rest -> is_space c = false.
Proof.
  induction s as [| d s IH]; simpl; [discriminate |].
  destruct (is_space d) eqn:Ed; [exact IH |]. now intros [= <- _].
Qed.

Lemma trimStart_fixed (s : jsstring) :
  (forall c rest, s = c :: rest -> is_space c = false) -> trimStart s = s.
Proof.
  destruct s as [| c s]; [reflexivity |]. intros H. simpl.
  now rewrite (H c s eq_refl).
Qed.

Lemma trim_head (s : jsstring) (c : N) (rest : jsstring) :
  trim s = c :: rest -> is_space c = false.
Proof.
  unfold trim. destruct (trimEnd_prefix (trimStart s)) as [back H]. intros E.
  rewrite E in H. simpl in H. now apply trimStart_head in H.
Qed.

Lemma trim_last (s front : jsstring) (c : N) :
  trim s = front ++ [c] -> is_space c = false.
Proof.
  unfold trim, trimEnd. intros E.
  apply (f_equal (@rev N)) in E. rewrite rev_involutive, rev_app_distr in E.
  simpl in E. now apply trimStart_head in E.
Qed.

Lemma trim_trim (s : jsstring) : trim (trim s) = trim s.
Proof.
  unfold trim at 1.
  rewrite (trimStart_fixed (trim s)) by apply trim_head.
  unfold trimEnd. rewrite trimStart_fixed; [apply rev_involutive |].
  intros c rest E. apply (f_equal (@rev N)) in E. rewrite rev_involutive in E.
  simpl in E. now apply trim_last in E.
Qed.

Lemma spaced_trim (s : jsstring) (b : bool) :
  spaced b s = true -> spaced false (trim s) = true.
Proof.
  intros H. apply spaced_trimStart in H.
  unfold trim. destruct (trimEnd_prefix (trimStart s)) as [back E].
  rewrite E in H. now apply spaced_app in H.
Qed.

Lemma tidy_trim_spaced (s : jsstring) (b : bool) :
  spaced b s = true -> tidy (trim s).
Proof.
  intros H. apply spaced_trim in H. split; [| split].
  - apply trim_head.
  - apply trim_last.
  - intros front a c rest E Ha. rewrite E in H.
    apply spaced_blank in H as [-> H]; [| exact Ha]. split; [reflexivity |].
    simpl in H. destruct (is_space c); [| reflexivity].
    now rewrite andb_false_r in H.
Qed.

Lemma In_trimStart (s : jsstring) (c : N) : In c (trimStart s) -> In c s.
Proof.
  destruct (trimStart_suffix s) as [front E]. intros H. rewrite E.
  apply in_or_app. now right.
Qed.

Lemma In_trim (s : jsstring) (c : N) : In c (trim s) -> In c s.
Proof.
  unfold trim, trimEnd. intros H. apply in_rev in H. apply In_trimStart in H.
  apply in_rev in H. now apply In_trimStart in H.
Qed.

Lemma In_collapseSpaces (s : jsstring) (c : N) :
  forall b, In c (collapseSpaces b s) -> c = 32%N \/ (In c s /\ is_space c = false).
Proof.
  induction s as [| d s IH]; intros b H; [destruct H |]. simpl in H.
  destruct (is_space d) eqn:Ed.
  - destruct b; [| destruct H as [<- | H]; [now left |]];
      (apply IH in H as [-> | [H Hc]]; [now left | right; split; [now right | exact Hc]]).
  - destruct H as [<- | H]; [right; split; [now left | exact Ed] |].
    apply IH in H as [-> | [H Hc]]; [now left | right; split; [now right | exact Hc]].
Qed.

Lemma kept_space (preserved : jsstring) : kept preserved 32.
Proof. reflexivity. Qed.

Lemma blanked_kept (preserved s : jsstring) : Forall (kept preserved) (blanked preserved s).
Proof.
  unfold blanked. apply List.Forall_forall. intros c H.
  apply in_map_iff in H as (d & <- & _).
  destruct (is_special preserved d) eqn:E; [apply kept_space | exact E].
Qed.

Lemma blanked_fixed (preserved s : jsstring) :
  Forall (kept preserved) s -> blanked preserved s = s.
Proof.
  unfold blanked, kept. induction 1 as [| c s Hc _ IH]; [reflexivity |].
  simpl. now rewrite Hc, IH.
Qed.

Lemma respaced_kept (preserved s : jsstring) : Forall (kept preserved) (respaced preserved s).
Proof.
  apply List.Forall_forall. intros c H. unfold respaced in H.
  apply In_trim, In_collapseSpaces in H as [-> | [H _]]; [apply kept_space |].
  pose proof (blanked_kept preserved s) as Hk.
  rewrite List.Forall_forall in Hk. now apply Hk.
Qed.

Lemma respaced_tidy (preserved s : jsstring) : tidy (respaced preserved s).
Proof. apply (tidy_trim_spaced _ false), spaced_collapseSpaces. Qed.

Lemma respaced_twice (preserved s : jsstring) :
  respaced preserved (respaced preserved s) = respaced preserved s.
Proof.
  unfold respaced at 1.
  rewrite blanked_fixed by apply respaced_kept.
  rewrite collapseSpaces_spaced.
  - apply trim_trim.
  - unfold respaced. apply (spaced_trim _ false), spaced_collapseSpaces.
Qed.

Section Cells.
Context (B : Builtins) (options : SanitizationOptions).
Context (settings : gmap jsstring ColumnSanitizationSettings).
Context (selectedColumns : list jsstring).

Lemma sanitizeUntyped_plain (key s : jsstring) (t : ColumnType) :
  plain t ->
  sanitizeUntyped B options settings key t s =
  if removeSpecialChars options then
    if replaceWithSpace options then respaced (preservedChars settings key) s
    else List.filter (fun c => negb (is_special (preservedChars settings key) c)) s
  else s.
Proof. intros [-> | [-> | ->]]; reflexivity. Qed.

Lemma sanitizeCell_plain (key s : jsstring) (t : ColumnType) :
  selected selectedColumns key = true -> disabled settings key = false ->
  declaredType settings key = Some t -> plain t ->
  sanitizeCell B options settings selectedColumns key (VStr s) =
  if is_empty (trim s) then VStr s
  else VStr (sanitizeUntyped B options settings key t s).
Proof.
  intros Hsel Hdis Htype Ht. unfold sanitizeCell.
  rewrite Hsel, Hdis, Htype. cbn [orb negb].
  destruct (is_empty (trim s)); [reflexivity |].
  now destruct Ht as [-> | [-> | ->]].
Qed.

(** What one pass does to a string that the formatter [f] leaves fixed. *)
Lemma second_pass (f : jsstring -> jsstring) (s : jsstring) :
  f (f s) = f s ->
  (if is_empty (trim (f s)) then VStr (f s) else VStr (f (f s))) = VStr (f s).
Proof. intros ->. now destruct (is_empty _). Qed.

Lemma sanitizeUntyped_twice (key s : jsstring) (t : ColumnType) :
  plain t ->
  sanitizeUntyped B options settings key t (sanitizeUntyped B options settings key t s)
  = sanitizeUntyped B options settings key t s.
Proof.
  intros Ht. rewrite !(sanitizeUntyped_plain _ _ _ Ht).
  destruct (removeSpecialChars options); [| reflexivity].
  destruct (replaceWithSpace options); [apply respaced_twice | apply filter_twice].
Qed.

End Cells.

(** X15. In a selected column declared as text, number or date, with
    special-character removal on, a non-blank string cell comes out made of
    word characters, blanks and the column's preserved characters only, and
    no longer than it was. With replace-with-space it has no blank at either
    end and no two blanks in a row, every blank being a plain space; without
    it, it is the input with units left out, none of them a kept one. *)
Theorem sanitizeCell_special_characters (B : Builtins) (options : SanitizationOptions)
    (settings : gmap jsstring ColumnSanitizationSettings)
    (selectedColumns : list jsstring) (key s : jsstring) (t : ColumnType) :
  selected selectedColumns key = true -> disabled settings key = false ->
  declaredType settings key = Some t -> plain t ->
  removeSpecialChars options = true ->
  is_empty (trim s) = false ->
  exists s',
    sanitizeCell B options settings selectedColumns key (VStr s) = VStr s' /\
    Forall (fun c => is_word c = true \/ is_space c = true
                     \/ In c (preservedChars settings key)) s' /\
    length s' <= length s /\
    (replaceWithSpace options = true -> tidy s') /\
    (replaceWithSpace options = false ->
     sublist s' s /\
     forall c, In c s -> kept (preservedChars settings key) c -> In c s').
Proof.
  intros Hsel Hdis Htype Ht Hon Hblank.
  rewrite (sanitizeCell_plain B options settings selectedColumns key s t) by assumption.
  rewrite Hblank, (sanitizeUntyped_plain _ _ _ _ _ _ Ht), Hon.
  assert (Hkept : forall l, Forall (kept (preservedChars settings key)) l ->
                            Forall (fun c => is_word c = true \/ is_space c = true
                                             \/ In c (preservedChars settings key)) l).
  { intros l. apply List.Forall_impl. intros c Hc. unfold kept, is_special in Hc.
    apply negb_false_iff in Hc. apply orb_prop in Hc as [Hc | Hc].
    - apply orb_prop in Hc as [Hc | Hc]; auto.
    - right. right. apply existsb_exists in Hc as (d & Hd & E).
      apply N.eqb_eq in E. now subst. }
  destruct (replaceWithSpace options).
  - eexists. split; [reflexivity |]. split; [apply Hkept, respaced_kept |].
    split; [| split; [intros _; apply respaced_tidy | discriminate]].
    unfold respaced, trim.
    destruct (trimEnd_prefix (trimStart (collapseSpaces false
                (blanked (preservedChars settings key) s)))) as [back E1].
    destruct (trimStart_suffix (collapseSpaces false
                (blanked (preservedChars settings key) s))) as [front E2].
    assert (Hc : forall l b, length (collapseSpaces b l) <= length l).
    { induction l as [| c l IH]; intros b; simpl; [lia |].
      destruct (is_space c); [destruct b |]; simpl;
        [specialize (IH true) | specialize (IH true) | specialize (IH false)]; lia. }
    specialize (Hc (blanked (preservedChars settings key) s) false).
    assert (Hb : length (blanked (preservedChars settings key) s) = length s)
      by apply length_map.
    apply (f_equal (@length N)) in E1, E2. rewrite length_app in E1, E2. lia.
  - eexists. split; [reflexivity |].
    split; [apply Hkept; apply List.Forall_forall; intros c Hc;
            apply List.filter_In in Hc as [_ Hc]; now apply negb_true_iff in Hc |].
    split; [apply List.filter_length_le |].
    split; [discriminate | intros _].
    split.
    + apply filter_sublist_of.
    + intros c Hin Hc. apply List.filter_In. split; [exact Hin |].
      now apply negb_true_iff.
Qed.

(** [sanitizeCell_special_characters] on a cell of the text column ["ref"]. *)
Lemma sanitizeCell_special_characters_witness :
  exists s',
    sanitizeCell example_builtins strip_on ref_is_text [js "ref"] (js "ref")
      (VStr (js " R&D  (west) #7 ")) = VStr s' /\
    s' = js "R D west 7" /\ tidy s'.
Proof.
  destruct (sanitizeCell_special_characters example_builtins strip_on ref_is_text
              [js "ref"] (js "ref") (js " R&D  (west) #7 ") Text)
    as (s' & E & _ & _ & Htidy & _).
  - vm_compute. reflexivity.
  - vm_compute. reflexivity.
  - vm_compute. reflexivity.
  - left. reflexivity.
  - reflexivity.
  - vm_compute. reflexivity.
  - exists s'. split; [exact E |]. split; [| apply Htidy; reflexivity].
    vm_compute in E. now injection E as <-.
Defined.

(** X16. In a column with a declared type other than [auto] and [email],
    sanitizing a cell that the pass has sanitized changes nothing. *)
Theorem sanitizeCell_idempotent (B : Builtins) (options : SanitizationOptions)
    (settings : gmap jsstring ColumnSanitizationSettings)
    (selectedColumns : list jsstring) (key : jsstring) (v : value) (t : ColumnType) :
  declaredType settings key = Some t -> t <> Auto -> t <> Email ->
  sanitizeCell B options settings selectedColumns key
    (sanitizeCell B options settings selectedColumns key v)
  = sanitizeCell B options settings selectedColumns key v.
Proof.
  intros Htype Hauto Hemail. unfold sanitizeCell.
  destruct (disabled settings key || negb (selected selectedColumns key));
    [reflexivity |].
  rewrite Htype.
  destruct v as [| | b | x | s]; try reflexivity.
  destruct (is_empty (trim s)) eqn:Eb; [now rewrite Eb |].
  destruct t; try congruence.
  - apply (second_pass (sanitizeUntyped B options settings key Text)).
    apply sanitizeUntyped_twice. now left.
  - apply (second_pass (sanitizeUntyped B options settings key Number)).
    apply sanitizeUntyped_twice. right. now left.
  - apply (second_pass (sanitizeUntyped B options settings key Date)).
    apply sanitizeUntyped_twice. right. now right.
  - apply (second_pass (fun s => formatZipCode s (sanitizeZipCodes options))).
    apply formatZipCode_twice_eq.
  - apply (second_pass formatPhoneNumber), formatPhoneNumber_twice_eq.
  - apply (second_pass formatCurrency), formatCurrency_twice_eq.
  - apply (second_pass formatSSN), formatSSN_twice_eq.
Qed.

(** [sanitizeCell_idempotent] on a cell of the text column ["ref"]. *)
Lemma sanitizeCell_idempotent_witness :
  sanitizeCell example_builtins strip_on ref_is_text [js "ref"] (js "ref")
    (sanitizeCell example_builtins strip_on ref_is_text [js "ref"] (js "ref")
       (VStr (js " R&D  (west) #7 ")))
  = sanitizeCell example_builtins strip_on ref_is_text [js "ref"] (js "ref")
      (VStr (js " R&D  (west) #7 ")).
Proof.
  apply (sanitizeCell_idempotent example_builtins strip_on ref_is_text [js "ref"]
           (js "ref") (VStr (js " R&D  (west) #7 ")) Text).
  - vm_compute. reflexivity.
  - discriminate.
  - discriminate.
Defined.

Lemma jsonCell_is_string (v v' : value) :
  jsonCell v = Some v' -> is_string v' = is_string v.
Proof.
  destruct v as [| | b | x | s0]; simpl;
    try destruct (PrimFloat.is_finite x); intros [= <-]; reflexivity.
Qed.

Lemma jsonCell_None (v : value) : jsonCell v = None <-> v = VUndefined.
Proof.
  destruct v as [| | b | x | s0]; simpl; try (split; congruence).
  destruct (PrimFloat.is_finite x); split; congruence.
Qed.

Section Rows.
Context (B : Builtins) (options : SanitizationOptions).
Context (settings : gmap jsstring ColumnSanitizationSettings).
Context (selectedColumns : list jsstring).

Lemma sanitizeCell_is_string (key : jsstring) (v : value) :
  is_string (sanitizeCell B options settings selectedColumns key v) = is_string v.
Proof.
  unfold sanitizeCell. destruct (_ || _); [reflexivity |].
  destruct v; try reflexivity. now destruct (is_empty _).
Qed.

Lemma truncateZipCell_is_string (key : jsstring) (v : value) :
  is_string (truncateZipCell settings selectedColumns key v) = is_string v.
Proof.
  unfold truncateZipCell. destruct (_ || _); [reflexivity |].
  destruct v; try reflexivity. now destruct (test _ _).
Qed.

Lemma sanitizeCell_skipped (key : jsstring) (v : value) :
  disabled settings key = true \/ selected selectedColumns key = false
  \/ is_string v = false ->
  sanitizeCell B options settings selectedColumns key v = v /\
  truncateZipCell settings selectedColumns key v = v.
Proof.
  unfold sanitizeCell, truncateZipCell.
  intros [-> | [-> | H]]; rewrite ?orb_true_r; cbn [orb negb]; [auto | auto |].
  destruct v; try discriminate; now destruct (_ || _), (_ || _).
Qed.

End Rows.

(** X17. A cell of a column that is not selected, or whose sanitisation is
    switched off, and any cell that is not a string, comes out of the pass as
    the JSON copy of what went in. *)
Theorem sanitizeRow_untouched (B : Builtins) (options : SanitizationOptions)
    (settings : gmap jsstring ColumnSanitizationSettings)
    (selectedColumns : list jsstring) (r : gmap jsstring value) (key : jsstring) :
  disabled settings key = true \/ selected selectedColumns key = false
  \/ (forall s, r !! key <> Some (VStr s)) ->
  sanitizeRow B options settings selectedColumns r !! key = r !! key ≫= jsonCell.
Proof.
  intros H. rewrite sanitizeRow_lookup.
  destruct (r !! key) as [v |] eqn:Ev; [| reflexivity]. cbn [mbind option_bind].
  destruct (jsonCell v) as [v' |] eqn:Ej; [| reflexivity]. cbv zeta.
  assert (H' : disabled settings key = true \/ selected selectedColumns key = false
               \/ is_string v' = false).
  { destruct H as [H | [H | H]]; auto. right. right.
    rewrite (jsonCell_is_string _ _ Ej). destruct v; try reflexivity.
    now specialize (H s). }
  destruct (sanitizeCell_skipped B options settings selectedColumns key v' H') as [-> Hz].
  rewrite Hz. now destruct (sanitizeZipCodes options).
Qed.

(** [sanitizeRow_untouched] on the column ["zip"] of the example row, left
    out of the selection: its ZIP+4 text is not cut. *)
Lemma sanitizeRow_untouched_witness :
  sanitizeRow example_builtins zip_on ref_is_text [js "ref"] zip_row !! js "zip"
  = Some (VStr (js "12345-6789")).
Proof.
  apply (sanitizeRow_untouched example_builtins zip_on ref_is_text [js "ref"] zip_row
           (js "zip")).
  right. left. vm_compute. reflexivity.
Defined.

(** X18. The pass keeps the number of rows; each row keeps its keys, but for
    those holding [undefined], which the JSON copy drops; a cell is a string
    after the pass iff it was one before. *)
Theorem sanitizeData_shape (B : Builtins) (options : SanitizationOptions)
    (settings : gmap jsstring ColumnSanitizationSettings)
    (selectedColumns : list jsstring) (data : list (gmap jsstring value)) :
  length (sanitizeData B options settings selectedColumns data) = length data /\
  forall i r, data !! i = Some r ->
    exists r',
      sanitizeData B options settings selectedColumns data !! i = Some r' /\
      (forall key, r' !! key = None <-> r !! key = None \/ r !! key = Some VUndefined) /\
      (forall key v', r' !! key = Some v' ->
         exists v, r !! key = Some v /\ is_string v' = is_string v).
Proof.
  assert (E : sanitizeData B options settings selectedColumns data
              = List.map (sanitizeRow B options settings selectedColumns) data)
    by (unfold sanitizeData; now destruct data).
  rewrite E. split; [apply length_map |].
  intros i r Hi. exists (sanitizeRow B options settings selectedColumns r).
  split; [now rewrite list_lookup_fmap, Hi |].
  split; intros key.
  - rewrite sanitizeRow_lookup.
    destruct (r !! key) as [v |]; cbn [mbind option_bind]; [| tauto].
    destruct (jsonCell v) as [v' |] eqn:Ej.
    + split; [discriminate |]. intros [H | [= ->]]; discriminate.
    + apply jsonCell_None in Ej. subst. tauto.
  - intros v'. rewrite sanitizeRow_lookup.
    destruct (r !! key) as [v |]; cbn [mbind option_bind]; [| discriminate].
    destruct (jsonCell v) as [v0 |] eqn:Ej; [| discriminate].
    cbv zeta. intros [= <-]. exists v. split; [reflexivity |].
    rewrite <- (jsonCell_is_string _ _ Ej).
    destruct (sanitizeZipCodes options);
      now rewrite ?truncateZipCell_is_string, sanitizeCell_is_string.
Qed.

End Sanitization.

(** ** Loading the stored presets ([PresetManager], the mount effect) *)

Module Presets.
Import JS.

(** JSON values: what [JSON.parse] returns and [setPresets] receives. *)
Inductive json : Type :=
| JNull
| JBool (b : bool)
| JNumber (x : float)
| JString (s : jsstring)
| JArray (items : list json)
| JObject (fields : list (jsstring * json)).

(** The text stored under ["transformationPresets"], told apart by what
    [JSON.parse] does with it: it throws on [Unparseable text] and returns [v]
    on [Serialized v], the text [JSON.stringify(v)]. *)
Inductive item : Type :=
| Unparseable (text : jsstring)
| Serialized (v : json).

(** [localStorage.getItem] returns [null] for [None]. *)
Definition storage : Type := option item.

(** What the effect leaves behind: the [presets] state, the store, and the
    lines written with [console.error]. *)
Record loaded : Type := {
  presets : json;
  store : storage;
  errors : list jsstring
}.

Definition field (name : string) (v : json) : jsstring * json := (js name, v).

(** [samplePresets]; [now] is [new Date().toISOString()]. *)
Definition samplePresets (now : jsstring) : json :=
  JArray
    [ JObject
        [ field "id" (JString (js "default-1"));
          field "name" (JString (js "Standard Format"));
          field "description" (JString (js "Basic data sanitization for insurance forms"));
          field "sanitizationOptions"
            (JObject [ field "removeSpecialChars" (JBool true);
                       field "replaceWithSpace" (JBool true);
                       field "sanitizeZipCodes" (JBool true);
                       field "countryFormat" (JString (js "US")) ]);
          field "dateCreated" (JString now) ];
      JObject
        [ field "id" (JString (js "default-2"));
          field "name" (JString (js "Policy Report Format"));
          field "description" (JString (js "Format and standardize policy data"));
          field "sanitizationOptions"
            (JObject [ field "removeSpecialChars" (JBool true);
                       field "formatPolicyNumbers" (JBool true);
                       field "autoDetectPolicyFormat" (JBool true);
                       field "formatSSNs" (JBool true);
                       field "ssnFormat" (JString (js "XXX-XX-****")) ]);
          field "dateCreated" (JString now) ] ].

(** The body of the effect. A text is truthy unless it is empty. *)
Definition loadPresets (localStorage : storage) (now : jsstring) : loaded :=
  match localStorage with
  | Some (Serialized v) =>
      {| presets := v; store := localStorage; errors := [] |}
  | Some (Unparseable (_ :: _)) =>
      {| presets := JArray []; store := localStorage;
         errors := [js "Error loading presets:"] |}
  | Some (Unparseable []) | None =>
      {| presets := samplePresets now;
         store := Some (Serialized (samplePresets now));
         errors := [] |}
  end.

(** [obj[name]] on a parsed object. *)
Fixpoint get (name : jsstring) (fields : list (jsstring * json)) : option json :=
  match fields with
  | [] => None
  | (k, v) :: fields' => if str_eqb k name then Some v else get name fields'
  end.

Definition is_JString (v : option json) : bool :=
  match v with Some (JString _) => true | _ => false end.

Definition is_JObject (v : option json) : bool :=
  match v with Some (JObject _) => true | _ => false end.

(** A value with the required fields of [TransformationPreset]: [id], [name]
    and [dateCreated] strings, [sanitizationOptions] an object. *)
Definition wellFormedPreset (v : json) : bool :=
  match v with
  | JObject fields =>
      is_JString (get (js "id") fields) && is_JString (get (js "name") fields)
      && is_JObject (get (js "sanitizationOptions") fields)
      && is_JString (get (js "dateCreated") fields)
  | _ => false
  end.

(** A stored list whose second entry lacks every field but [id]. *)
Definition half_broken_list : json :=
  JArray
    [ JObject
        [ field "id" (JString (js "preset-1"));
          field "name" (JString (js "Mine"));
          field "sanitizationOptions" (JObject []);
          field "dateCreated" (JString (js "2024-01-01T00:00:00.000Z")) ];
      JObject [ field "id" (JNumber 7) ] ].

(** *** Saving and deleting presets ([handleSavePreset], [handleDeletePreset]) *)

(** [preset.id] for an element of the list: reading a field of [null] throws
    ([None]); a value that is no object has no such field ([undefined]). *)
Definition idOf (preset : json) : option (option json) :=
  match preset with
  | JNull => None
  | JObject fields => Some (get (js "id") fields)
  | _ => Some None
  end.

(** [presets.filter((preset) => preset.id !== id)] on the elements. *)
Fixpoint withoutId (id : jsstring) (items : list json) : option (list json) :=
  match items with
  | [] => Some []
  | preset :: rest =>
      match idOf preset, withoutId id rest with
      | Some (Some (JString s)), Some kept =>
          Some (if str_eqb s id then kept else preset :: kept)
      | Some _, Some kept => Some (preset :: kept)
      | _, _ => None
      end
  end.

(** What a handler leaves: the state and store, and the arguments of the
    calls of [onPresetSelect]. [None] is a [TypeError], thrown before any
    state is set. *)
Definition handled : Type := option (loaded * list jsstring).

(** [handleDeletePreset(id)], with the [selectedPreset] property. *)
Definition handleDeletePreset (id : jsstring) (selectedPreset : option jsstring)
    (st : loaded) : handled :=
  match presets st with
  | JArray items =>
      match withoutId id items with
      | Some updatedPresets =>
          Some ({| presets := JArray updatedPresets;
                   store := Some (Serialized (JArray updatedPresets));
                   errors := errors st |},
                if bool_decide (selectedPreset = Some id) then [[]] else [])
      | None => None
      end
  | _ => None
  end.

(** The elements [...presets] spreads: an array's items, a string's code
    points; nothing else that [JSON.parse] returns can be iterated. *)
Definition is_high (c : N) : bool := ((55296 <=? c) && (c <=? 56319))%N.
Definition is_low (c : N) : bool := ((56320 <=? c) && (c <=? 57343))%N.

Fixpoint codePoints (s : jsstring) : list jsstring :=
  match s with
  | [] => []
  | c :: s' =>
      match s' with
      | d :: s'' => if is_high c && is_low d then [c; d] :: codePoints s''
                    else [c] :: codePoints s'
      | [] => [[c]]
      end
  end.

Definition spread (v : json) : option (list json) :=
  match v with
  | JArray items => Some items
  | JString s => Some (List.map JString (codePoints s))
  | _ => None
  end.

(** The preset [handleSavePreset] builds; [nowMs] is [Date.now()] and [now]
    is [new Date().toISOString()]; the options and the selections are taken
    as the JSON values they are stored as. A field holding [undefined] is
    left out, as [JSON.stringify] leaves it out. *)
Definition newPreset (newPresetName newPresetDescription : jsstring)
    (currentOptions columnSelections : option json) (nowMs : N) (now : jsstring) : json :=
  JObject
    ([ field "id" (JString (js "preset-" ++ N_to_string nowMs));
       field "name" (JString (trim newPresetName)) ]
     ++ (if is_empty (trim newPresetDescription) then []
         else [ field "description" (JString (trim newPresetDescription)) ])
     ++ [ field "sanitizationOptions"
            (match currentOptions with Some o => o | None => JObject [] end);
          field "columnSelections"
            (match columnSelections with Some o => o | None => JObject [] end);
          field "dateCreated" (JString now) ]).

(** [handleSavePreset]; a blank name raises the alert and changes nothing. *)
Definition handleSavePreset (newPresetName newPresetDescription : jsstring)
    (currentOptions columnSelections : option json) (nowMs : N) (now : jsstring)
    (st : loaded) : option loaded :=
  if is_empty (trim newPresetName) then Some st
  else
    match spread (presets st) with
    | Some items =>
        let updatedPresets :=
          JArray (items ++ [newPreset newPresetName newPresetDescription
                              currentOptions columnSelections nowMs now]) in
        Some {| presets := updatedPresets;
                store := Some (Serialized updatedPresets);
                errors := errors st |}
    | None => None
    end.

(** An element with the given [id]. *)
Definition hasId (id : jsstring) (preset : json) : Prop :=
  idOf preset = Some (Some (JString id)).

(** *** Proofs *)

(** C9 (amended). Loading never fails: a stored text that does not parse is
    logged and the preset list degrades to the empty list, the store left as
    it was; a stored text that parses becomes the preset list as parsed, with
    no entry examined, dropped or logged; with nothing stored (or the empty
    text) the two seed presets are installed and stored. *)
Theorem loadPresets_spec (now : jsstring) :
  (forall c text,
      loadPresets (Some (Unparseable (c :: text))) now =
      {| presets := JArray []; store := Some (Unparseable (c :: text));
         errors := [js "Error loading presets:"] |}) /\
  (forall v,
      loadPresets (Some (Serialized v)) now =
      {| presets := v; store := Some (Serialized v); errors := [] |}) /\
  (forall localStorage,
      localStorage = None \/ localStorage = Some (Unparseable []) ->
      exists first second,
        presets (loadPresets localStorage now) = JArray [first; second] /\
        wellFormedPreset first = true /\ wellFormedPreset second = true /\
        store (loadPresets localStorage now) = Some (Serialized (JArray [first; second]))).
Proof.
  split; [| split].
  - reflexivity.
  - reflexivity.
  - intros localStorage [-> | ->]; do 2 eexists; repeat split; reflexivity.
Qed.

(** C9 as stated fails: the malformed second entry of a stored list is not
    skipped; it is loaded with the rest, and nothing is logged. *)
Lemma loadPresets_keeps_malformed_preset :
  exists good bad,
    half_broken_list = JArray [good; bad] /\
    wellFormedPreset good = true /\ wellFormedPreset bad = false /\
    presets (loadPresets (Some (Serialized half_broken_list)) []) = JArray [good; bad] /\
    errors (loadPresets (Some (Serialized half_broken_list)) []) = [].
Proof. do 2 eexists. repeat split; reflexivity. Qed.

(** *** Proofs: saving and deleting *)

Lemma withoutId_spec (id : jsstring) (items : list json) :
  Forall (fun preset => preset <> JNull) items ->
  exists kept,
    withoutId id items = Some kept /\
    sublist kept items /\
    (forall preset, In preset kept <-> In preset items /\ ~ hasId id preset) /\
    withoutId id kept = Some kept.
Proof.
  intros Hitems. induction Hitems as [| preset rest Hp _ IH].
  - exists []. split; [reflexivity |]. split; [constructor |].
    split; [intros p; cbn [In]; tauto | reflexivity].
  - destruct IH as (kept & Hk & Hsub & Hin & Hagain). cbn [withoutId]. rewrite Hk.
    assert (Hid : exists o, idOf preset = Some o)
      by (destruct preset; try congruence; eexists; reflexivity).
    destruct Hid as [o Ho]. rewrite Ho.
    assert (Hcase : (exists s, o = Some (JString s) /\ s = id /\ hasId id preset) \/
                    (~ hasId id preset /\
                     match o with
                     | Some (JString s) =>
                         Some (if str_eqb s id then kept else preset :: kept)
                     | _ => Some (preset :: kept)
                     end = Some (preset :: kept))).
    { unfold hasId. rewrite Ho.
      destruct o as [[| b | x | s | l | fields] |];
        try (right; split; [congruence | reflexivity]).
      unfold str_eqb. destruct (bool_decide (s = id)) eqn:E.
      - apply bool_decide_eq_true in E. left. exists s. subst. auto.
      - apply bool_decide_eq_false in E. right. split; [congruence | reflexivity]. }
    destruct Hcase as [(s & -> & -> & Hhas) | [Hnot ->]].
    + unfold str_eqb. rewrite bool_decide_eq_true_2 by reflexivity.
      exists kept. split; [reflexivity |].
      split; [now constructor |]. split; [| exact Hagain].
      intros p. rewrite Hin. cbn [In]. split; [tauto |].
      intros [[<- | H] Hn]; [contradiction | tauto].
    + exists (preset :: kept). split; [reflexivity |].
      split; [now constructor |]. split.
      * intros p. cbn [In]. rewrite Hin. split; [| tauto].
        intros [<- | H]; tauto.
      * cbn [withoutId]. rewrite Hagain, Ho.
        unfold hasId in Hnot. rewrite Ho in Hnot.
        destruct o as [[| b | x | s | l | fields] |]; try reflexivity.
        unfold str_eqb. rewrite bool_decide_eq_false_2 by congruence. reflexivity.
Qed.

Lemma withoutId_none (id : jsstring) (items : list json) :
  Forall (fun preset => preset <> JNull) items ->
  Forall (fun preset => ~ hasId id preset) items ->
  withoutId id items = Some items.
Proof.
  intros Hnull Hid. induction Hnull as [| preset rest Hp _ IH]; [reflexivity |].
  apply List.Forall_cons_iff in Hid as [Hnot Hid]. cbn [withoutId]. rewrite (IH Hid).
  unfold hasId in Hnot.
  destruct (idOf preset) as [[[| b | x | s | l | fields] |] |] eqn:Ho;
    try reflexivity.
  - unfold str_eqb. rewrite bool_decide_eq_false_2 by congruence. reflexivity.
  - destruct preset; try congruence; discriminate Ho.
Qed.

Lemma withoutId_app (id : jsstring) (items more : list json) :
  withoutId id (items ++ more) =
  match withoutId id items, withoutId id more with
  | Some kept, Some kept' => Some (kept ++ kept')
  | _, _ => None
  end.
Proof.
  induction items as [| preset rest IH]; cbn [app withoutId].
  - now destruct (withoutId id more).
  - rewrite IH.
    destruct (idOf preset) as [[[| b | x | s | l | fields] |] |];
      destruct (withoutId id rest), (withoutId id more); try reflexivity.
    now destruct (str_eqb s id).
Qed.

(** X28. On a preset list that holds no [null], deleting by id keeps exactly
    the presets whose id is another, in their order, and stores the list it
    keeps; the selection is cleared iff the deleted id was selected; deleting
    the same id again changes nothing. *)
Theorem handleDeletePreset_spec (id : jsstring) (selectedPreset : option jsstring)
    (st : loaded) (items : list json) :
  presets st = JArray items ->
  Forall (fun preset => preset <> JNull) items ->
  exists kept calls,
    handleDeletePreset id selectedPreset st
    = Some ({| presets := JArray kept; store := Some (Serialized (JArray kept));
               errors := errors st |}, calls) /\
    sublist kept items /\
    (forall preset, In preset kept <-> In preset items /\ ~ hasId id preset) /\
    (calls = [[]] <-> selectedPreset = Some id) /\
    (calls = [] <-> selectedPreset <> Some id) /\
    handleDeletePreset id selectedPreset
      {| presets := JArray kept; store := Some (Serialized (JArray kept));
         errors := errors st |}
    = Some ({| presets := JArray kept; store := Some (Serialized (JArray kept));
               errors := errors st |}, calls).
Proof.
  intros Hp Hitems.
  destruct (withoutId_spec id items Hitems) as (kept & Hk & Hsub & Hin & Hagain).
  exists kept, (if bool_decide (selectedPreset = Some id) then [[]] else []).
  unfold handleDeletePreset. rewrite Hp, Hk. cbn [presets errors]. rewrite Hagain.
  split; [reflexivity |]. split; [exact Hsub |]. split; [exact Hin |].
  destruct (bool_decide (selectedPreset = Some id)) eqn:E.
  - apply bool_decide_eq_true in E. repeat split; try tauto; try discriminate;
      congruence.
  - apply bool_decide_eq_false in E. repeat split; try tauto; discriminate.
Qed.

(** [handleDeletePreset_spec] on the seed presets, the first one selected. *)
Lemma handleDeletePreset_spec_witness :
  exists kept,
    handleDeletePreset (js "default-1") (Some (js "default-1")) (loadPresets None [])
    = Some ({| presets := JArray kept; store := Some (Serialized (JArray kept));
               errors := [] |}, [[]]) /\
    length kept = 1.
Proof.
  destruct (handleDeletePreset_spec (js "default-1") (Some (js "default-1"))
              (loadPresets None []) _ eq_refl)
    as (kept & calls & E & _ & _ & Hcalls & _).
  - repeat constructor; discriminate.
  - pose proof E as E'. vm_compute in E'. injection E' as Hkept Hcs. subst.
    eexists. split; [exact E | reflexivity].
Defined.

Lemma hasId_newPreset (newPresetName newPresetDescription : jsstring)
    (currentOptions columnSelections : option json) (nowMs : N) (now : jsstring) :
  idOf (newPreset newPresetName newPresetDescription currentOptions columnSelections
          nowMs now)
  = Some (Some (JString (js "preset-" ++ N_to_string nowMs))).
Proof.
  unfold newPreset, idOf. cbn [app get field fst snd].
  unfold str_eqb. now rewrite bool_decide_eq_true_2.
Qed.

(** X29. Saving a preset under a name that is not blank appends it to the
    list and stores the new list; when no preset of the list has its id,
    deleting that id afterwards gives back the list as it was. A blank name
    changes nothing. *)
Theorem handleSavePreset_then_delete (newPresetName newPresetDescription : jsstring)
    (currentOptions columnSelections : option json) (nowMs : N) (now : jsstring)
    (selectedPreset : option jsstring) (st : loaded) (items : list json) :
  presets st = JArray items ->
  Forall (fun preset => preset <> JNull) items ->
  Forall (fun preset => ~ hasId (js "preset-" ++ N_to_string nowMs) preset) items ->
  (is_empty (trim newPresetName) = true ->
   handleSavePreset newPresetName newPresetDescription currentOptions columnSelections
     nowMs now st = Some st) /\
  (is_empty (trim newPresetName) = false ->
   exists saved,
     handleSavePreset newPresetName newPresetDescription currentOptions columnSelections
       nowMs now st = Some saved /\
     presets saved
     = JArray (items ++ [newPreset newPresetName newPresetDescription currentOptions
                           columnSelections nowMs now]) /\
     store saved = Some (Serialized (presets saved)) /\
     exists restored calls,
       handleDeletePreset (js "preset-" ++ N_to_string nowMs) selectedPreset saved
       = Some (restored, calls) /\
       presets restored = JArray items /\
       store restored = Some (Serialized (JArray items))).
Proof.
  intros Hp Hnull Hfresh. unfold handleSavePreset. split; [now intros -> |].
  intros ->. rewrite Hp. cbn [spread]. cbv zeta.
  eexists. split; [reflexivity |]. cbn [presets store].
  split; [reflexivity |]. split; [reflexivity |].
  unfold handleDeletePreset. cbn [presets errors].
  rewrite withoutId_app, (withoutId_none _ _ Hnull Hfresh).
  cbn [withoutId]. rewrite hasId_newPreset.
  unfold str_eqb. rewrite bool_decide_eq_true_2 by reflexivity.
  rewrite app_nil_r. do 2 eexists. split; [reflexivity |]. split; reflexivity.
Qed.

(** [handleSavePreset_then_delete] on the seed presets. *)
Lemma handleSavePreset_then_delete_witness :
  exists saved restored calls,
    handleSavePreset (js " Mine ") [] None None 1700000000000 [] (loadPresets None [])
    = Some saved /\
    handleDeletePreset (js "preset-1700000000000") None saved = Some (restored, calls) /\
    presets restored = samplePresets [].
Proof.
  destruct (handleSavePreset_then_delete (js " Mine ") [] None None 1700000000000 []
              None (loadPresets None []) _ eq_refl) as [_ H].
  - repeat constructor; discriminate.
  - repeat constructor; vm_compute; discriminate.
  - destruct H as (saved & Hs & _ & _ & restored & calls & Hd & Hr & _);
      [vm_compute; reflexivity |].
    exists saved, restored, calls. split; [exact Hs |]. split; [exact Hd | exact Hr].
Defined.

End Presets.

(** ** Uploading a file ([handleFileUpload], TransformationPage.tsx) *)

Module Upload.
Import JS TypeInference HeaderDetection Materialize Sanitization.

(** [getDefaultPreserveCharacters]; the currency set is [$,.€£¥]. *)
Definition getDefaultPreserveCharacters (type : ColumnType)
    (currentPreserved : option jsstring) : jsstring :=
  match type with
  | Zipcode => js "-"
  | Phone => js "()-. "
  | Email => js "@._-"
  | Currency => [36; 44; 46; 8364; 163; 165]%N
  | Ssn => js "-"
  | _ => match currentPreserved with Some s => s | None => [] end
  end.

(** [loadedData.map((row) => row[column]).filter(Boolean)], as far as the
    type detection looks at it: the truthy cells the rows hold under
    [column]. A row without that key reads [undefined], or, under a name
    that [Object.prototype] defines, an inherited object or function, which
    is not a string: [detectColumnType] samples strings only, and its answer
    does not depend on the other values ([detectColumnType_strings]). *)
Definition columnValuesOf (loadedData : list object) (column : jsstring) : list value :=
  List.filter truthy (List.map (fun row => Filters.cellOf (own row) column) loadedData).

(** The type a column of the loaded table is given, if any: "only set type if
    it's not auto or text". *)
Definition detectedTypeOf (loadedData : list object) (column : jsstring)
    : option ColumnType :=
  match detectColumnType (columnValuesOf loadedData column) with
  | Auto | Text => None
  | detectedType => Some detectedType
  end.

(** [detectedColumnTypes], filled by the loop over [Object.keys(loadedData[0])]
    with [detectedColumnTypes[column] = detectedType]. The object starts as
    [{}] and a type is a string: under ["__proto__"] the assignment reaches
    the setter of [Object.prototype], which ignores a string, and no entry is
    made; under every other name the entry is made. *)
Definition detectedColumnTypes (firstRow : object) (loadedData : list object)
    : gmap jsstring ColumnType :=
  map_imap (fun column _ =>
              if str_eqb column proto then None else detectedTypeOf loadedData column)
           (own firstRow).

(** The entry written for a detected column:
    [{ ...newColumnSettings[column], columnType: type, enableSanitization: true,
       preserveCharacters: getDefaultPreserveCharacters(type, ...) }]. *)
Definition detectedSettings (current : option ColumnSanitizationSettings)
    (type : ColumnType) : ColumnSanitizationSettings :=
  {| enableSanitization := true;
     preserveCharacters :=
       Some (getDefaultPreserveCharacters type (current ≫= preserveCharacters));
     columnType := Some type |}.

(** The settings after the loop over [Object.entries(detectedColumnTypes)];
    they are left alone when no type was detected. Each column is written
    once, from its own previous entry; none of them is ["__proto__"], under
    which [detectedColumnTypes] holds no entry. *)
Definition newColumnSettings
    (columnSanitizationSettings : gmap jsstring ColumnSanitizationSettings)
    (detected : gmap jsstring ColumnType) : gmap jsstring ColumnSanitizationSettings :=
  if (size detected =? 0)%nat then columnSanitizationSettings
  else
    merge (fun current type =>
             match type with
             | Some t => Some (detectedSettings current t)
             | None => current
             end)
          columnSanitizationSettings detected.

(** How [handleFileUpload] can end in its [catch] block. *)
Inductive failure : Type :=
| HeaderOutOfBounds (headerRowIndex : nat)
| NoFirstRow.

(** What a successful upload leaves in the page's state; the selected
    columns, [Object.keys(loadedData[0])], as a set. *)
Record uploaded : Type := {
  data : list object;
  selectedColumns : gset jsstring;
  columnSanitizationSettings : gmap jsstring ColumnSanitizationSettings
}.

Section WithBuiltins.
Context (B : Builtins).

(** [handleFileUpload] from the point where the sheet has been read as
    [rawData]: header detection, [loadFile] with the header row (which takes
    the [processSheetWithCustomHeaders] branch), column selection, type
    detection. [Object.keys(loadedData[0])] throws when no row was loaded. *)
Definition handleFileUpload (autoDetectHeaders : bool) (headerRow : nat)
    (settings : gmap jsstring ColumnSanitizationSettings)
    (rawData : list (list value)) : failure + uploaded :=
  let detectedHeaderRow := if autoDetectHeaders then detectHeaderRow rawData else 0 in
  let options :=
    if autoDetectHeaders
    then {| Materialize.headerRow := Some detectedHeaderRow; skipRows := None |}
    else {| Materialize.headerRow := Some headerRow; skipRows := None |} in
  match processSheetWithCustomHeaders B rawData options with
  | OutOfBounds headerRowIndex => inl (HeaderOutOfBounds headerRowIndex)
  | Returned loadedData =>
      match loadedData with
      | [] => inl NoFirstRow
      | firstRow :: _ =>
          inr {| data := loadedData;
                 selectedColumns := keys firstRow;
                 columnSanitizationSettings :=
                   newColumnSettings settings (detectedColumnTypes firstRow loadedData) |}
      end
  end.

End WithBuiltins.



(** A sheet whose first two columns are headed ["__proto__"]; the second
    holds e-mail addresses. *)
Definition proto_mail_grid : list (list value) :=
  [ [VStr proto; VStr proto; VStr (js "n")];
    [VNull; VStr (js "a@b.co"); VNum 1];
    [VNull; VStr (js "c@d.co"); VNum 2];
    [VStr (js "x"); VStr (js "e@f.co"); VNum 3] ].

(** *** Proofs *)

Lemma auto_detect_rows (B : Builtins) (rawData : list (list value)) :
  rawData <> [] ->
  processSheetWithCustomHeaders B rawData
    {| Materialize.headerRow := Some (detectHeaderRow rawData); skipRows := None |}
  = Returned (List.map (rowObject (headersOf B (nth (detectHeaderRow rawData) rawData [])))
                       (skipn (detectHeaderRow rawData + 1) rawData)).
Proof. intros Hne. apply (materialize_Returned B), detectHeaderRow_lt, Hne. Qed.

(** X20. With automatic header detection an upload never fails on the header
    row being out of bounds; it ends in the error branch exactly when no row
    lies below the detected header (an empty sheet included), the first
    loaded row being read where there is none; otherwise it loads every row
    below the header, the keys of each, and the selected columns, being
    among the names the header row gives; when none of these names is
    ["__proto__"], each row has exactly the selected columns as its keys. *)
Theorem handleFileUpload_auto_detect (B : Builtins) (headerRow : nat)
    (settings : gmap jsstring ColumnSanitizationSettings) (rawData : list (list value)) :
  (forall headerRowIndex,
      handleFileUpload B true headerRow settings rawData
      <> inl (HeaderOutOfBounds headerRowIndex)) /\
  (handleFileUpload B true headerRow settings rawData = inl NoFirstRow <->
   length rawData <= S (detectHeaderRow rawData)) /\
  (forall result,
      handleFileUpload B true headerRow settings rawData = inr result ->
      length (data result) = length rawData - S (detectHeaderRow rawData) /\
      selectedColumns result
        ⊆ list_to_set (headersOf B (nth (detectHeaderRow rawData) rawData [])) /\
      (forall r, In r (data result) ->
         keys r ⊆ list_to_set (headersOf B (nth (detectHeaderRow rawData) rawData []))) /\
      (~ In proto (headersOf B (nth (detectHeaderRow rawData) rawData [])) ->
       forall r, In r (data result) -> keys r = selectedColumns result)).
Proof.
  unfold handleFileUpload.
  destruct rawData as [| r0 rawData'].
  { cbn. split; [discriminate |]. split; [split; [lia | reflexivity] | discriminate]. }
  assert (Hne : r0 :: rawData' <> []) by discriminate.
  revert Hne. generalize (r0 :: rawData'). intros rawData Hne.
  rewrite auto_detect_rows by exact Hne.
  set (headers := headersOf B (nth (detectHeaderRow rawData) rawData [])).
  assert (Hlen : length (List.map (rowObject headers)
                           (skipn (detectHeaderRow rawData + 1) rawData))
                 = length rawData - S (detectHeaderRow rawData))
    by (rewrite length_map, length_skipn; lia).
  assert (Hsub : forall r, In r (List.map (rowObject headers)
                                   (skipn (detectHeaderRow rawData + 1) rawData)) ->
                           keys r ⊆ list_to_set headers).
  { intros r Hr. apply in_map_iff in Hr as (cells & <- & _).
    apply keys_rowObject_subseteq. }
  assert (Hdom : ~ In proto headers ->
                 forall r, In r (List.map (rowObject headers)
                                   (skipn (detectHeaderRow rawData + 1) rawData)) ->
                           keys r = list_to_set headers).
  { intros Hp r Hr. apply in_map_iff in Hr as (cells & <- & _).
    now apply keys_rowObject. }
  destruct (List.map (rowObject headers) (skipn (detectHeaderRow rawData + 1) rawData))
    as [| firstRow rest].
  - split; [discriminate |]. split; [| discriminate].
    simpl in Hlen. split; [lia | reflexivity].
  - split; [discriminate |]. split.
    + simpl in Hlen. split; [discriminate | lia].
    + intros result [= <-]. cbn [data selectedColumns]. split; [exact Hlen |].
      split; [apply Hsub; now left |]. split; [exact Hsub |].
      intros Hp r Hr. rewrite (Hdom Hp r Hr). symmetry. apply (Hdom Hp). now left.
Qed.





(** On [proto_mail_grid] the column of e-mail addresses is loaded under the
    key ["__proto__"] and selected, and [detectColumnType] finds e-mail
    addresses in it, yet it is given no type: the settings stay empty. *)
Example handleFileUpload_proto_column :
  exists result,
    handleFileUpload example_builtins false 0 ∅ proto_mail_grid = inr result /\
    selectedColumns result = {[ proto; js "n" ]} /\
    List.map keys (data result) = [ {[ proto; js "n" ]}; {[ proto; js "n" ]}; {[ js "n" ]} ] /\
    detectedTypeOf (data result) proto = Some Email /\
    columnSanitizationSettings result !! proto = None.
Proof.
  eexists. split; [reflexivity |]. repeat split; vm_compute; reflexivity.
Qed.

End Upload.

(** ** The sanitizer classes and their pipeline
       ([DataSanitizers.ts], [BaseTransformer.applySanitizers]) *)

Module SanitizerPipeline.
Import JS Sanitizers.

(** The data a sanitizer maps over: an array of row objects. *)
Definition table : Type := list (gmap jsstring value).

(** [BaseSanitizer.shouldSanitizeColumn] *)
Definition shouldSanitizeColumn (columns : list jsstring) (column : jsstring) : bool :=
  (length columns =? 0)%nat || existsb (str_eqb column) columns.

(** The [sanitize] method of the string sanitizers, which differ in [format]
    only: every row is copied, and in the copy each string cell of a column
    to sanitize is replaced by its formatted text. *)
Definition sanitizeStrings (columns : list jsstring) (format : jsstring -> jsstring)
    (data : table) : table :=
  List.map
    (map_imap (fun key v =>
                 Some match v with
                      | VStr s => if shouldSanitizeColumn columns key
                                  then VStr (format s) else v
                      | _ => v
                      end))
    data.

(** The sanitizer objects: the columns set with [setColumns] and the
    constructor's arguments. *)
Record ZipCodeSanitizer : Type := {
  zipColumns : list jsstring;
  countryFormat : CountryFormat;
  keepExtendedFormat : bool
}.

Record SsnSanitizer : Type := {
  ssnColumns : list jsstring;
  ssnFormat : SsnFormat
}.

Record PolicyNumberSanitizer : Type := {
  policyColumns : list jsstring;
  format : jsstring;
  separator : jsstring;
  autoDetect : bool
}.

Record SpecialCharSanitizer : Type := {
  specialColumns : list jsstring;
  preserveChars : jsstring;
  replaceWithSpace : bool
}.

(** The interface [DataSanitizer]; [None] stands for a rejected promise. *)
Class DataSanitizer (S : Type) : Type := sanitize : S -> table -> option table.

#[export] Instance ZipCodeSanitizer_sanitize : DataSanitizer ZipCodeSanitizer :=
  fun this data =>
    Some (sanitizeStrings (zipColumns this)
            (formatZipCode (countryFormat this) (keepExtendedFormat this)) data).

#[export] Instance SsnSanitizer_sanitize : DataSanitizer SsnSanitizer :=
  fun this data =>
    Some (sanitizeStrings (ssnColumns this) (formatSSN (ssnFormat this)) data).

#[export] Instance PolicyNumberSanitizer_sanitize : DataSanitizer PolicyNumberSanitizer :=
  fun this data =>
    let partLengths := partLengthsOf (format this) (separator this) in
    Some (sanitizeStrings (policyColumns this)
            (fun policy => formatPolicyNumber (separator this) (autoDetect this)
                             policy partLengths) data).

(** [BaseTransformer.applySanitizers]: each sanitizer is awaited in turn; a
    rejection ends the loop. *)
Fixpoint applySanitizers (sanitizers : list (table -> option table)) (data : table)
    : option table :=
  match sanitizers with
  | [] => Some data
  | sanitizer :: rest =>
      match sanitizer data with
      | Some result => applySanitizers rest result
      | None => None
      end
  end.

(** *** The character class of [SpecialCharSanitizer] *)

(** An atom of a character class: one code unit, or the class [\s]. *)
Inductive classAtom : Type :=
| Unit (c : N)
| Whitespace.

Inductive classMember : Type :=
| Single (a : classAtom)
| Range (lo hi : N).

(** What [a-b] denotes in a class: the range between two units, a
    [SyntaxError] ([None]) when they are out of order, and the union of [a],
    the hyphen and [b] when one of them is a class. *)
Definition rangeOrUnion (a b : classAtom) : option (list classMember) :=
  match a, b with
  | Unit lo, Unit hi => if (lo <=? hi)%N then Some [Range lo hi] else None
  | _, _ => Some [Single a; Single (Unit 45); Single b]
  end.

(** The members read from the escaped [preserveChars], after the atom
    [pending] if there is one. [escapeRegExp] puts a backslash before each of
    [.*+?^${}()|[\]\\], which makes it a literal; every other unit is a literal
    as it stands, but for the hyphen, which [escapeRegExp] leaves bare:
    between two atoms it makes a range, at the end it is a literal. *)
Fixpoint classRanges (pending : option classAtom) (rest : jsstring)
    : option (list classMember) :=
  match rest with
  | [] => Some match pending with Some a => [Single a] | None => [] end
  | c :: rest' =>
      match pending with
      | None => classRanges (Some (Unit c)) rest'
      | Some a =>
          if (c =? 45)%N then
            match rest' with
            | [] => Some [Single a; Single (Unit 45)]
            | b :: rest'' =>
                match rangeOrUnion a (Unit b), classRanges None rest'' with
                | Some range, Some members => Some (range ++ members)
                | _, _ => None
                end
            end
          else
            match classRanges (Some (Unit c)) rest' with
            | Some members => Some (Single a :: members)
            | None => None
            end
      end
  end.

Definition inMember (c : N) (m : classMember) : bool :=
  match m with
  | Single (Unit u) => (c =? u)%N
  | Single Whitespace => is_space c
  | Range lo hi => (lo <=? c)%N && (c <=? hi)%N
  end.

Definition inAtom (c : N) (a : classAtom) : bool := inMember c (Single a).

(** [new RegExp(`[^a-zA-Z0-9\\s${escaped}]`, "g")]: the units the expression
    matches, given the members read after [a-zA-Z0-9], from [\s] on. *)
Definition preservePattern (preserveChars : jsstring) : option (N -> bool) :=
  match classRanges (Some Whitespace) preserveChars with
  | Some members => Some (fun c => negb (is_alnum c || existsb (inMember c) members))
  | None => None
  end.

(** What [sanitize] does to a string cell, given the units to remove. *)
Definition stripSpecial (regex : N -> bool) (replaceWithSpace : bool) (s : jsstring)
    : jsstring :=
  if replaceWithSpace
  then trim (Sanitization.collapseSpaces false
               (List.map (fun c => if regex c then 32%N else c) s))
  else List.filter (fun c => negb (regex c)) s.

#[export] Instance SpecialCharSanitizer_sanitize : DataSanitizer SpecialCharSanitizer :=
  fun this data =>
    match preservePattern (preserveChars this) with
    | Some regex =>
        Some (sanitizeStrings (specialColumns this)
                (stripSpecial regex (replaceWithSpace this)) data)
    | None => None
    end.

(** The preserved characters hold a hyphen at most as their last unit. *)
Definition hyphenLast (preserveChars : jsstring) : Prop :=
  Forall (fun c => c <> 45%N) (removelast preserveChars).

Example preservePattern_examples :
  (exists regex, preservePattern (js "._-") = Some regex /\
                 regex 95%N = false /\ regex 45%N = false /\ regex 47%N = true) /\
  (exists regex, preservePattern (js ".-_") = Some regex /\
                 regex 45%N = true /\ regex 47%N = false /\ regex 64%N = false) /\
  preservePattern (js "_-.") = None /\
  (exists regex, preservePattern (js "-_") = Some regex /\
                 regex 45%N = false /\ regex 95%N = false /\ regex 47%N = true).
Proof.
  repeat split; try (eexists; split; [reflexivity |]; repeat split); reflexivity.
Qed.

(** *** Proofs *)

Lemma sanitizeStrings_commute (columns1 columns2 : list jsstring)
    (format1 format2 : jsstring -> jsstring) (data : table) :
  (forall key, shouldSanitizeColumn columns1 key = true ->
               shouldSanitizeColumn columns2 key = false) ->
  sanitizeStrings columns1 format1 (sanitizeStrings columns2 format2 data)
  = sanitizeStrings columns2 format2 (sanitizeStrings columns1 format1 data).
Proof.
  intros Hdisjoint. unfold sanitizeStrings. rewrite !List.map_map.
  apply List.map_ext. intros row. apply map_eq. intros key.
  rewrite !map_lookup_imap.
  destruct (row !! key) as [v |]; [| reflexivity]. cbn [mbind option_bind].
  destruct v as [| | b | x | s]; try reflexivity.
  pose proof (Hdisjoint key) as Hkey.
  destruct (shouldSanitizeColumn columns1 key) eqn:E1,
           (shouldSanitizeColumn columns2 key) eqn:E2;
    cbn [mbind option_bind]; rewrite ?E1, ?E2; try reflexivity.
  discriminate (Hkey eq_refl).
Qed.

Lemma shouldSanitizeColumn_In (columns : list jsstring) (column : jsstring) :
  columns <> [] -> shouldSanitizeColumn columns column = true <-> In column columns.
Proof.
  intros Hne. unfold shouldSanitizeColumn.
  destruct columns as [| c0 columns']; [congruence |]. cbn [length Nat.eqb orb].
  rewrite existsb_exists. split.
  - intros (c & Hin & E). unfold str_eqb in E. apply bool_decide_eq_true in E.
    now subst.
  - intros Hin. exists column. split; [exact Hin |].
    unfold str_eqb. now apply bool_decide_eq_true.
Qed.

(** X22. Two string sanitizers whose column lists are not empty and share no
    column can be put in the pipeline in either order: the sanitized table
    is the same. *)
Theorem applySanitizers_disjoint_columns (zip : ZipCodeSanitizer) (ssn : SsnSanitizer)
    (data : table) :
  zipColumns zip <> [] -> ssnColumns ssn <> [] ->
  (forall column, In column (zipColumns zip) -> ~ In column (ssnColumns ssn)) ->
  applySanitizers [sanitize zip; sanitize ssn] data
  = applySanitizers [sanitize ssn; sanitize zip] data /\
  forall format1 format2,
    sanitizeStrings (zipColumns zip) format1
      (sanitizeStrings (ssnColumns ssn) format2 data)
    = sanitizeStrings (ssnColumns ssn) format2
        (sanitizeStrings (zipColumns zip) format1 data).
Proof.
  intros Hz Hs Hdisjoint.
  assert (H : forall key, shouldSanitizeColumn (zipColumns zip) key = true ->
                          shouldSanitizeColumn (ssnColumns ssn) key = false).
  { intros key Hk. apply (shouldSanitizeColumn_In _ _ Hz) in Hk.
    apply not_true_is_false. intros Hk'.
    apply (shouldSanitizeColumn_In _ _ Hs) in Hk'. now apply (Hdisjoint key). }
  split.
  - cbn [applySanitizers]. unfold sanitize, ZipCodeSanitizer_sanitize, SsnSanitizer_sanitize.
    f_equal. symmetry. now apply sanitizeStrings_commute.
  - intros format1 format2. now apply sanitizeStrings_commute.
Qed.

Lemma applySanitizers_disjoint_columns_witness :
  applySanitizers
    [sanitize {| zipColumns := [js "zip"]; countryFormat := US;
                 keepExtendedFormat := false |};
     sanitize {| ssnColumns := [js "ssn"]; ssnFormat := Masked |}]
    [ {[ js "zip" := VStr (js "12345-6789"); js "ssn" := VStr (js "123456789") ]} ]
  = Some [ {[ js "zip" := VStr (js "12345"); js "ssn" := VStr (js "123-45-****") ]} ].
Proof.
  destruct (applySanitizers_disjoint_columns
              {| zipColumns := [js "zip"]; countryFormat := US;
                 keepExtendedFormat := false |}
              {| ssnColumns := [js "ssn"]; ssnFormat := Masked |}
              [ {[ js "zip" := VStr (js "12345-6789");
                   js "ssn" := VStr (js "123456789") ]} ]) as [-> _].
  - discriminate.
  - discriminate.
  - intros column [<- | []] [E | []]. vm_compute in E. discriminate.
  - vm_compute. reflexivity.
Defined.

Lemma sanitizeStrings_twice (columns : list jsstring) (format : jsstring -> jsstring)
    (data : table) :
  (forall s, format (format s) = format s) ->
  sanitizeStrings columns format (sanitizeStrings columns format data)
  = sanitizeStrings columns format data.
Proof.
  intros Hf. unfold sanitizeStrings. rewrite List.map_map.
  apply List.map_ext. intros row. apply map_eq. intros key.
  rewrite !map_lookup_imap.
  destruct (row !! key) as [v |]; [| reflexivity]. cbn [mbind option_bind].
  destruct v as [| | b | x | s]; try reflexivity.
  destruct (shouldSanitizeColumn columns key) eqn:E; cbn [mbind option_bind];
    rewrite ?E, ?Hf; reflexivity.
Qed.

Lemma formatSSN_again (format : SsnFormat) (ssn : jsstring) :
  formatSSN format (formatSSN format ssn) = formatSSN format ssn.
Proof.
  unfold formatSSN at 2 3.
  destruct (length (digitsOf ssn) =? 0)%nat eqn:E.
  - unfold formatSSN. now rewrite E.
  - rewrite paddedDigits_firstn.
    apply renderSSN_stable; [apply paddedDigits_length | apply paddedDigits_digits].
Qed.

Lemma formatZipCode_again (countryFormat : CountryFormat) (keep : bool) (zip : jsstring) :
  countryFormat <> CA ->
  formatZipCode countryFormat keep (formatZipCode countryFormat keep zip)
  = formatZipCode countryFormat keep zip.
Proof.
  intros Hcase.
  destruct zip as [| z zip]; [reflexivity |].
  rewrite (formatZipCode_nonempty countryFormat keep (z :: zip)) by discriminate.
  assert (Hc : alnum (cleanAlnum (z :: zip))) by apply filter_Forall.
  destruct countryFormat; [| congruence | |].
  - now apply formatCleanZip_US_stable.
  - now apply formatCleanZip_UK_stable.
  - now apply formatCleanZip_other_stable.
Qed.

Lemma formatPolicyNumber_again (separator : jsstring) (autoDetect : bool)
    (policy : jsstring) (partLengths : list nat) :
  cleanAlnum separator = [] ->
  formatPolicyNumber separator autoDetect
    (formatPolicyNumber separator autoDetect policy partLengths) partLengths
  = formatPolicyNumber separator autoDetect policy partLengths.
Proof.
  intros Hs.
  rewrite <- (formatPolicyNumber_of_clean separator autoDetect
                (formatPolicyNumber separator autoDetect policy partLengths)).
  rewrite formatPolicyNumber_clean by exact Hs.
  apply formatPolicyNumber_of_clean.
Qed.

(** X23. Running the SSN sanitizer twice in the pipeline gives the table that
    running it once gives; so does the ZIP sanitizer for every country format
    but the Canadian one, and the policy-number sanitizer when its separator
    holds no letter or digit. *)
Theorem applySanitizers_twice (data : table) :
  (forall ssn : SsnSanitizer,
      applySanitizers [sanitize ssn; sanitize ssn] data = sanitize ssn data) /\
  (forall zip : ZipCodeSanitizer,
      countryFormat zip <> CA ->
      applySanitizers [sanitize zip; sanitize zip] data = sanitize zip data) /\
  (forall policy : PolicyNumberSanitizer,
      cleanAlnum (separator policy) = [] ->
      applySanitizers [sanitize policy; sanitize policy] data = sanitize policy data).
Proof.
  split; [| split].
  - intros ssn. cbn [applySanitizers]. unfold sanitize, SsnSanitizer_sanitize.
    f_equal. apply sanitizeStrings_twice, formatSSN_again.
  - intros zip Hcase. cbn [applySanitizers]. unfold sanitize, ZipCodeSanitizer_sanitize.
    f_equal. apply sanitizeStrings_twice. intros s. now apply formatZipCode_again.
  - intros policy Hs. cbn [applySanitizers].
    unfold sanitize, PolicyNumberSanitizer_sanitize. cbv zeta.
    f_equal. apply sanitizeStrings_twice. intros s. now apply formatPolicyNumber_again.
Qed.

(** *** Proofs: the character class *)

Lemma hyphenLast_cons (c : N) (preserved : jsstring) :
  hyphenLast (c :: preserved) ->
  hyphenLast preserved /\ (c = 45%N -> preserved = []).
Proof.
  unfold hyphenLast. destruct preserved as [| c' preserved]; [now split |].
  change (removelast (c :: c' :: preserved)) with (c :: removelast (c' :: preserved)).
  intros H. apply List.Forall_cons_iff in H as [Hc H]. split; [exact H | congruence].
Qed.

Lemma classRanges_hyphenLast (preserved : jsstring) :
  hyphenLast preserved ->
  forall a, exists members,
    classRanges (Some a) preserved = Some members /\
    forall c, existsb (inMember c) members = inAtom c a || existsb (N.eqb c) preserved.
Proof.
  induction preserved as [| c0 preserved IH]; intros Hlast a.
  - eexists. split; [reflexivity |]. intros c. cbn. now rewrite !orb_false_r.
  - apply hyphenLast_cons in Hlast as [Htail Hlone].
    cbn [classRanges]. destruct (c0 =? 45)%N eqn:E0.
    + apply N.eqb_eq in E0. subst c0. rewrite (Hlone eq_refl).
      eexists. split; [reflexivity |]. intros c. cbn. now rewrite !orb_false_r.
    + destruct (IH Htail (Unit c0)) as (members & -> & Hm).
      eexists. split; [reflexivity |]. intros c. cbn [existsb]. rewrite Hm.
      reflexivity.
Qed.

(** X24. When the preserved characters of a [SpecialCharSanitizer] hold a
    hyphen at most as their last unit, its expression is built, and it
    removes a unit iff the unit is no letter, digit or blank and none of
    the preserved characters. *)
Theorem preservePattern_hyphenLast (preserved : jsstring) :
  hyphenLast preserved ->
  exists regex,
    preservePattern preserved = Some regex /\
    forall c, regex c = negb (is_alnum c || is_space c || existsb (N.eqb c) preserved).
Proof.
  intros Hlast. unfold preservePattern.
  destruct (classRanges_hyphenLast preserved Hlast Whitespace) as (members & -> & Hm).
  eexists. split; [reflexivity |]. intros c. cbv beta. rewrite Hm.
  now rewrite orb_assoc.
Qed.

Lemma preservePattern_hyphenLast_witness :
  exists regex,
    preservePattern (js "@._-") = Some regex /\
    regex 45%N = false /\ regex 64%N = false /\ regex 35%N = true.
Proof.
  destruct (preservePattern_hyphenLast (js "@._-")) as (regex & E & Hr).
  - repeat constructor; discriminate.
  - exists regex. split; [exact E |]. rewrite !Hr. repeat split; reflexivity.
Defined.

Lemma classRanges_range (lo hi : N) (rest : jsstring) (front : jsstring) :
  Forall (fun c => c <> 45%N) front -> lo <> 45%N ->
  forall a,
    classRanges (Some a) (front ++ lo :: 45%N :: hi :: rest) =
    match (if (lo <=? hi)%N then classRanges None rest else None) with
    | Some members =>
        Some (List.map Single (a :: List.map Unit front) ++ Range lo hi :: members)
    | None => None
    end.
Proof.
  intros Hfront Hlo. induction Hfront as [| c0 front Hc0 _ IH]; intros a.
  - cbn [app classRanges].
    replace (lo =? 45)%N with false by (symmetry; now apply N.eqb_neq).
    cbn [N.eqb Pos.eqb rangeOrUnion].
    destruct (lo <=? hi)%N; [| reflexivity].
    now destruct (classRanges None rest).
  - cbn [app classRanges].
    replace (c0 =? 45)%N with false by (symmetry; now apply N.eqb_neq).
    rewrite IH. destruct (if (lo <=? hi)%N then classRanges None rest else None);
      reflexivity.
Qed.

(** X25. A hyphen that stands between two preserved characters makes a range
    of them: when the first is the greater one the expression cannot be
    built and [sanitize] fails; otherwise every unit between the two is
    kept, preserved or not. *)
Theorem preservePattern_range (front : jsstring) (lo hi : N) (rest : jsstring) :
  Forall (fun c => c <> 45%N) front -> lo <> 45%N ->
  ((hi < lo)%N ->
   forall (this : SpecialCharSanitizer) (data : table),
     preserveChars this = front ++ lo :: 45%N :: hi :: rest ->
     sanitize this data = None) /\
  (forall regex,
      preservePattern (front ++ lo :: 45%N :: hi :: rest) = Some regex ->
      (lo <= hi)%N /\ forall c, (lo <= c <= hi)%N -> regex c = false).
Proof.
  intros Hfront Hlo.
  pose proof (classRanges_range lo hi rest front Hfront Hlo Whitespace) as Hr.
  split.
  - intros Hlt this data Hp.
    unfold sanitize, SpecialCharSanitizer_sanitize, preservePattern.
    rewrite Hp, Hr.
    replace (lo <=? hi)%N with false by (symmetry; apply N.leb_gt; exact Hlt).
    reflexivity.
  - intros regex. unfold preservePattern. rewrite Hr.
    destruct (lo <=? hi)%N eqn:Ele; [| discriminate].
    apply N.leb_le in Ele.
    destruct (classRanges None rest) as [members |]; [| discriminate].
    intros [= <-]. split; [exact Ele |]. intros c [Hc1 Hc2]. cbv beta.
    apply negb_false_iff. rewrite !orb_true_iff. right. right.
    apply existsb_exists. exists (Range lo hi). split.
    + apply in_or_app. right. now left.
    + apply andb_true_iff. split; now apply N.leb_le.
Qed.

Lemma preservePattern_range_witness :
  sanitize {| specialColumns := []; preserveChars := js "_-."; replaceWithSpace := false |}
           [ {[ js "name" := VStr (js "a_b") ]} ] = None /\
  exists regex, preservePattern (js ".-_") = Some regex /\ regex 64%N = false.
Proof.
  split.
  - destruct (preservePattern_range [] 95 46 []) as [H _];
      [constructor | discriminate |].
    apply H; [reflexivity | reflexivity].
  - destruct (preservePattern (js ".-_")) as [regex |] eqn:E; [| discriminate E].
    exists regex. split; [reflexivity |].
    destruct (preservePattern_range [] 46 95 []) as [_ H];
      [constructor | discriminate |].
    apply (H regex E). split; discriminate.
Defined.

End SanitizerPipeline.

(** ** Column selection with undo and redo ([DataPreview.tsx]) *)

Module ColumnHistory.
Import JS.

(** The component's state that the column menu and the undo and redo buttons
    work on; [allColumns] is [Object.keys(data[0])] of the current data. A
    [HistoryState] holds the selected columns only. *)
Record state : Type := {
  allColumns : list jsstring;
  selectedColumns : list jsstring;
  history : list (list jsstring);
  historyIndex : nat
}.

(** The initial values of the [useState] calls. *)
Definition initial (columns : list jsstring) : state :=
  {| allColumns := columns; selectedColumns := columns;
     history := [columns]; historyIndex := 0 |}.

(** [const newHistory = history.slice(0, historyIndex + 1);
     newHistory.push({ selectedColumns: updatedColumns });
     setHistory(newHistory); setHistoryIndex(newHistory.length - 1);
     setSelectedColumns(updatedColumns)] *)
Definition push (updatedColumns : list jsstring) (s : state) : state :=
  let newHistory := firstn (historyIndex s + 1) (history s) ++ [updatedColumns] in
  {| allColumns := allColumns s; selectedColumns := updatedColumns;
     history := newHistory; historyIndex := length newHistory - 1 |}.

Definition toggleColumn (column : jsstring) (s : state) : state :=
  let updatedColumns :=
    if existsb (str_eqb column) (selectedColumns s)
    then List.filter (fun col => negb (str_eqb col column)) (selectedColumns s)
    else selectedColumns s ++ [column] in
  push updatedColumns s.

(** [handleUndo] and [handleRedo]; reading [history[newIndex].selectedColumns]
    throws when [history[newIndex]] is [undefined] ([None]). *)
Definition handleUndo (s : state) : option state :=
  if (0 <? historyIndex s)%nat then
    let newIndex := historyIndex s - 1 in
    match history s !! newIndex with
    | Some entry =>
        Some {| allColumns := allColumns s; selectedColumns := entry;
                history := history s; historyIndex := newIndex |}
    | None => None
    end
  else Some s.

Definition handleRedo (s : state) : option state :=
  if (historyIndex s <? length (history s) - 1)%nat then
    let newIndex := historyIndex s + 1 in
    match history s !! newIndex with
    | Some entry =>
        Some {| allColumns := allColumns s; selectedColumns := entry;
                history := history s; historyIndex := newIndex |}
    | None => None
    end
  else Some s.

Definition selectAllColumns (s : state) : state := push (allColumns s) s.

Definition deselectAllColumns (s : state) : state := push [] s.

(** The effect that runs when [data] changes to a table with at least one
    row, whose first row has the keys [availableColumns]. *)
Definition dataChanged (availableColumns : list jsstring) (s : state) : state :=
  let available col := existsb (str_eqb col) availableColumns in
  if (length (selectedColumns s) =? 0)%nat || negb (existsb available (selectedColumns s))
  then {| allColumns := availableColumns; selectedColumns := availableColumns;
          history := [availableColumns]; historyIndex := 0 |}
  else
    let validSelectedColumns := List.filter available (selectedColumns s) in
    if negb (length validSelectedColumns =? length (selectedColumns s))%nat
    then
      let newHistory := firstn (historyIndex s + 1) (history s) ++ [validSelectedColumns] in
      {| allColumns := availableColumns; selectedColumns := validSelectedColumns;
         history := newHistory; historyIndex := length newHistory - 1 |}
    else
      {| allColumns := availableColumns; selectedColumns := selectedColumns s;
         history := history s; historyIndex := historyIndex s |}.

(** [data] changes to the empty table: [allColumns] is [[]], and the effect
    does nothing. *)
Definition dataEmptied (s : state) : state :=
  {| allColumns := []; selectedColumns := selectedColumns s;
     history := history s; historyIndex := historyIndex s |}.

(** What the user and the parent component can do. *)
Inductive action : Type :=
| Toggle (column : jsstring)
| Undo
| Redo
| SelectAll
| DeselectAll
| NewData (availableColumns : list jsstring)
| NoData.

Definition step (a : action) (s : state) : option state :=
  match a with
  | Toggle column => Some (toggleColumn column s)
  | Undo => handleUndo s
  | Redo => handleRedo s
  | SelectAll => Some (selectAllColumns s)
  | DeselectAll => Some (deselectAllColumns s)
  | NewData availableColumns => Some (dataChanged availableColumns s)
  | NoData => Some (dataEmptied s)
  end.

Fixpoint run (actions : list action) (s : state) : option state :=
  match actions with
  | [] => Some s
  | a :: rest =>
      match step a s with
      | Some s' => run rest s'
      | None => None
      end
  end.

(** The history entry under the index is the current selection. *)
Definition consistent (s : state) : Prop :=
  history s !! historyIndex s = Some (selectedColumns s).

(** *** Proofs *)

Lemma push_consistent (updatedColumns : list jsstring) (s : state) :
  consistent (push updatedColumns s).
Proof.
  unfold consistent, push. cbn [history historyIndex selectedColumns].
  rewrite length_app. cbn [length].
  rewrite lookup_app_r by lia.
  replace (_ - _) with 0 by lia. reflexivity.
Qed.

Lemma step_consistent (a : action) (s : state) :
  consistent s -> exists s', step a s = Some s' /\ consistent s'.
Proof.
  intros Hs. destruct a as [column | | | | | availableColumns |]; cbn [step].
  - eexists. split; [reflexivity | apply push_consistent].
  - unfold handleUndo. destruct (0 <? historyIndex s)%nat eqn:E; [| eauto].
    assert (Hlt : historyIndex s - 1 < length (history s)).
    { apply lookup_lt_Some in Hs. lia. }
    apply lookup_lt_is_Some in Hlt as [entry He]. cbv zeta. rewrite He.
    eexists. split; [reflexivity | exact He].
  - unfold handleRedo.
    destruct (historyIndex s <? length (history s) - 1)%nat eqn:E; [| eauto].
    apply Nat.ltb_lt in E.
    assert (Hlt : historyIndex s + 1 < length (history s)) by lia.
    apply lookup_lt_is_Some in Hlt as [entry He]. cbv zeta. rewrite He.
    eexists. split; [reflexivity | exact He].
  - eexists. split; [reflexivity | apply push_consistent].
  - eexists. split; [reflexivity | apply push_consistent].
  - eexists. split; [reflexivity |]. unfold dataChanged. cbv zeta.
    destruct (_ || _); [reflexivity |].
    destruct (negb _); [| exact Hs].
    apply (push_consistent _ s).
  - eexists. split; [reflexivity | exact Hs].
Qed.

Lemma run_from_consistent (actions : list action) :
  forall s, consistent s -> exists s', run actions s = Some s' /\ consistent s'.
Proof.
  induction actions as [| a rest IH]; intros s Hs; [now exists s |].
  cbn [run]. destruct (step_consistent a s Hs) as (s' & -> & Hs'). now apply IH.
Qed.

(** X26. Whatever the user does with the column menu and the undo and redo
    buttons, and whatever data arrives, no handler fails on a missing history
    entry; the index stays inside the history, and the history entry under
    it is the current selection. *)
Theorem run_consistent (columns : list jsstring) (actions : list action) :
  exists s,
    run actions (initial columns) = Some s /\
    historyIndex s < length (history s) /\
    history s !! historyIndex s = Some (selectedColumns s).
Proof.
  destruct (run_from_consistent actions (initial columns)) as (s & Hrun & Hs);
    [reflexivity |].
  exists s. split; [exact Hrun |]. split; [| exact Hs].
  now apply lookup_lt_Some in Hs.
Qed.

Lemma undo_push (updatedColumns : list jsstring) (s : state) :
  consistent s ->
  handleUndo (push updatedColumns s)
  = Some {| allColumns := allColumns s; selectedColumns := selectedColumns s;
            history := history (push updatedColumns s);
            historyIndex := historyIndex s |}.
Proof.
  intros Hs. pose proof (lookup_lt_Some _ _ _ Hs) as Hlt.
  unfold handleUndo, push. cbn [history historyIndex allColumns].
  rewrite length_app, length_take. cbn [length].
  replace (Nat.min (historyIndex s + 1) (length (history s)) + 1 - 1)
    with (S (historyIndex s)) by lia.
  cbn [Nat.ltb Nat.leb]. cbv zeta.
  replace (S (historyIndex s) - 1) with (historyIndex s) by lia.
  rewrite lookup_app_l by (rewrite length_take; lia).
  rewrite lookup_take_lt by lia. now rewrite Hs.
Qed.

Lemma redo_undo_push (updatedColumns : list jsstring) (s : state) :
  consistent s ->
  handleRedo {| allColumns := allColumns s; selectedColumns := selectedColumns s;
                history := history (push updatedColumns s);
                historyIndex := historyIndex s |}
  = Some (push updatedColumns s).
Proof.
  intros Hs. pose proof (lookup_lt_Some _ _ _ Hs) as Hlt.
  unfold handleRedo, push. cbn [history historyIndex allColumns].
  rewrite length_app, length_take. cbn [length].
  replace (historyIndex s <? Nat.min (historyIndex s + 1) (length (history s)) + 1 - 1)%nat
    with true by (symmetry; apply Nat.ltb_lt; lia).
  cbv zeta. rewrite lookup_app_r by (rewrite length_take; lia).
  rewrite length_take.
  replace (historyIndex s + 1 - Nat.min (historyIndex s + 1) (length (history s)))
    with 0 by lia.
  cbn [lookup list_lookup]. do 2 f_equal. lia.
Qed.

(** X27. In a state the component can reach: undoing a column toggle brings
    back the selection and the index, and redoing then restores the toggled
    state; redo undoes undo and undo undoes redo wherever the buttons are
    enabled; toggling a column twice selects the same columns as before. *)
Theorem undo_redo (columns : list jsstring) (actions : list action) (s : state)
    (column : jsstring) :
  run actions (initial columns) = Some s ->
  (exists u,
      handleUndo (toggleColumn column s) = Some u /\
      selectedColumns u = selectedColumns s /\ historyIndex u = historyIndex s /\
      handleRedo u = Some (toggleColumn column s)) /\
  (0 < historyIndex s -> exists u, handleUndo s = Some u /\ handleRedo u = Some s) /\
  (historyIndex s < length (history s) - 1 ->
   exists r, handleRedo s = Some r /\ handleUndo r = Some s) /\
  (forall col, In col (selectedColumns (toggleColumn column (toggleColumn column s)))
               <-> In col (selectedColumns s)).
Proof.
  intros Hrun.
  assert (Hs : consistent s).
  { destruct (run_from_consistent actions (initial columns) eq_refl) as (s' & E & H).
    congruence. }
  pose proof (lookup_lt_Some _ _ _ Hs) as Hlt.
  split; [| split; [| split]].
  - unfold toggleColumn. cbv zeta.
    eexists. split; [apply (undo_push _ s Hs) |].
    split; [reflexivity |]. split; [reflexivity |].
    apply (redo_undo_push _ s Hs).
  - intros Hpos. unfold handleUndo.
    replace (0 <? historyIndex s)%nat with true by (symmetry; apply Nat.ltb_lt; lia).
    cbv zeta.
    assert (Hprev : historyIndex s - 1 < length (history s)) by lia.
    apply lookup_lt_is_Some in Hprev as [entry He]. rewrite He.
    eexists. split; [reflexivity |].
    unfold handleRedo. cbn [history historyIndex allColumns].
    replace (historyIndex s - 1 <? length (history s) - 1)%nat with true
      by (symmetry; apply Nat.ltb_lt; lia).
    cbv zeta. replace (historyIndex s - 1 + 1) with (historyIndex s) by lia.
    unfold consistent in Hs. rewrite Hs. now destruct s.
  - intros Hnext. unfold handleRedo.
    replace (historyIndex s <? length (history s) - 1)%nat with true
      by (symmetry; apply Nat.ltb_lt; lia).
    cbv zeta.
    assert (Hn : historyIndex s + 1 < length (history s)) by lia.
    apply lookup_lt_is_Some in Hn as [entry He]. rewrite He.
    eexists. split; [reflexivity |].
    unfold handleUndo. cbn [history historyIndex allColumns].
    replace (0 <? historyIndex s + 1)%nat with true by (symmetry; apply Nat.ltb_lt; lia).
    cbv zeta. replace (historyIndex s + 1 - 1) with (historyIndex s) by lia.
    unfold consistent in Hs. rewrite Hs. now destruct s.
  - intros col. unfold toggleColumn at 1. cbv zeta.
    cbn [push selectedColumns]. unfold toggleColumn.
    cbn [push selectedColumns]. cbv zeta.
    assert (Heq : forall a b, str_eqb a b = true <-> a = b)
      by (intros a b; unfold str_eqb; apply bool_decide_eq_true).
    destruct (existsb (str_eqb column) (selectedColumns s)) eqn:Ein.
    + replace (existsb (str_eqb column)
                 (List.filter (fun col0 => negb (str_eqb col0 column)) (selectedColumns s)))
        with false.
      * rewrite in_app_iff, List.filter_In. cbn [In].
        apply existsb_exists in Ein as (c & Hc & E). apply Heq in E. subst c.
        destruct (str_eqb col column) eqn:Ec.
        -- apply Heq in Ec. subst col. cbn [negb]. intuition.
        -- split; [intros [[H _] | [H | []]]; [exact H |] | intros H; left; auto].
           subst col. rewrite (proj2 (Heq column column) eq_refl) in Ec. discriminate.
      * symmetry. apply not_true_is_false. intros H.
        apply existsb_exists in H as (c & Hc & E). apply Heq in E. subst c.
        apply List.filter_In in Hc as [_ Hc].
        rewrite (proj2 (Heq column column) eq_refl) in Hc. discriminate.
    + replace (existsb (str_eqb column) (selectedColumns s ++ [column])) with true.
      * rewrite List.filter_In, in_app_iff. cbn [In].
        split.
        -- intros [[H | [H | []]] Hc]; [exact H |]. subst col.
           rewrite (proj2 (Heq column column) eq_refl) in Hc. discriminate.
        -- intros H. split; [now left |].
           apply negb_true_iff, not_true_is_false. intros E. apply Heq in E. subst col.
           assert (Hex : existsb (str_eqb column) (selectedColumns s) = true).
           { apply existsb_exists. exists column. split; [exact H |]. now apply Heq. }
           congruence.
      * symmetry. apply existsb_exists. exists column.
        split; [apply in_or_app; right; now left | now apply Heq].
Qed.

(** [undo_redo] after two toggles and an undo. *)
Lemma undo_redo_witness :
  exists u,
    handleUndo (toggleColumn (js "a")
                  {| allColumns := [js "a"; js "b"]; selectedColumns := [js "a"];
                     history := [[js "a"; js "b"]; [js "a"]; [js "a"; js "b"]];
                     historyIndex := 1 |}) = Some u /\
    selectedColumns u = [js "a"].
Proof.
  destruct (undo_redo [js "a"; js "b"] [Toggle (js "b"); Toggle (js "b"); Undo]
              {| allColumns := [js "a"; js "b"]; selectedColumns := [js "a"];
                 history := [[js "a"; js "b"]; [js "a"]; [js "a"; js "b"]];
                 historyIndex := 1 |} (js "a"))
    as [(u & Hu & Hsel & _) _].
  - vm_compute. reflexivity.
  - exists u. split; [exact Hu | exact Hsel].
Defined.

End ColumnHistory.

(** ** Pruning on a selection change ([handleColumnSelectionChange],
       TransformationPage.tsx) *)

Module ColumnSelection.
Import JS Filters Sanitization.

(** The page's state that [handleColumnSelectionChange] reads and sets. *)
Record page : Type := {
  selectedColumns : list jsstring;
  filters : list ColumnFilter;
  columnSanitizationSettings : gmap jsstring ColumnSanitizationSettings
}.

(** [columns.includes(col)] *)
Definition among (columns : list jsstring) (col : jsstring) : bool :=
  existsb (str_eqb col) columns.

(** [handleColumnSelectionChange(columns)] *)
Definition handleColumnSelectionChange (columns : list jsstring) (st : page) : page :=
  let previousSelection := selectedColumns st in
  if (length columns <? length previousSelection)%nat then
    let removedColumns :=
      List.filter (fun col => negb (among columns col)) previousSelection in
    {| selectedColumns := columns;
       filters :=
         if (0 <? length removedColumns)%nat
            && existsb (fun f => among removedColumns (column f)) (filters st)
         then List.filter (fun f => negb (among removedColumns (column f))) (filters st)
         else filters st;
       columnSanitizationSettings :=
         if (0 <? length removedColumns)%nat
            && existsb (among removedColumns)
                       (elements (dom (columnSanitizationSettings st)))
         then fold_left (fun updatedSettings col => delete col updatedSettings)
                        removedColumns (columnSanitizationSettings st)
         else columnSanitizationSettings st |}
  else
    {| selectedColumns := columns; filters := filters st;
       columnSanitizationSettings := columnSanitizationSettings st |}.

(** The preview reports its selection to the page: the effect that calls
    [onColumnsChange(selectedColumns)]. *)
Definition report (preview : ColumnHistory.state) (st : page) : page :=
  handleColumnSelectionChange (ColumnHistory.selectedColumns preview) st.

(** *** Proofs *)

Lemma among_In (columns : list jsstring) (col : jsstring) :
  among columns col = true <-> In col columns.
Proof.
  unfold among. rewrite existsb_exists. split.
  - intros (c & Hc & E). unfold str_eqb in E. apply bool_decide_eq_true in E. now subst.
  - intros H. exists col. split; [exact H |]. unfold str_eqb.
    now apply bool_decide_eq_true.
Qed.

Lemma among_false (columns : list jsstring) (col : jsstring) :
  among columns col = false <-> ~ In col columns.
Proof. rewrite <- among_In. now destruct (among columns col). Qed.

Lemma filter_shorter {A : Type} (p : A -> bool) (l : list A) (x : A) :
  In x l -> p x = false -> length (List.filter p l) < length l.
Proof.
  induction l as [| y l IH]; intros Hin Hx; [destruct Hin |].
  pose proof (List.filter_length_le p l) as Hle. simpl.
  destruct Hin as [-> | Hin].
  - rewrite Hx. lia.
  - specialize (IH Hin Hx). destruct (p y); simpl; lia.
Qed.

Lemma lookup_fold_delete (removed : list jsstring)
    (settings : gmap jsstring ColumnSanitizationSettings) (col : jsstring) :
  fold_left (fun updatedSettings c => delete c updatedSettings) removed settings !! col
  = if among removed col then None else settings !! col.
Proof.
  revert settings. induction removed as [| c removed IH]; intros settings; [reflexivity |].
  cbn [fold_left]. rewrite IH. unfold among. cbn [existsb].
  fold (among removed col). destruct (among removed col); [now rewrite orb_true_r |].
  rewrite orb_false_r. unfold str_eqb.
  destruct (bool_decide (col = c)) eqn:E.
  - apply bool_decide_eq_true in E. subst. apply lookup_delete_eq.
  - apply bool_decide_eq_false in E. now apply lookup_delete_ne.
Qed.

Section Deselect.
Context (previous : list jsstring) (column : jsstring).
Hypothesis selected : In column previous.

Let columns : list jsstring :=
  List.filter (fun col => negb (str_eqb col column)) previous.
Let removedColumns : list jsstring :=
  List.filter (fun col => negb (among columns col)) previous.

Lemma str_eqb_eq (a b : jsstring) : str_eqb a b = true <-> a = b.
Proof. unfold str_eqb. apply bool_decide_eq_true. Qed.

Lemma columns_In (col : jsstring) : In col columns <-> In col previous /\ col <> column.
Proof.
  unfold columns. rewrite List.filter_In, negb_true_iff.
  rewrite <- not_true_iff_false, str_eqb_eq. tauto.
Qed.

Lemma columns_shorter : length columns < length previous.
Proof.
  apply (filter_shorter _ previous column selected).
  apply negb_false_iff, str_eqb_eq. reflexivity.
Qed.

Lemma removedColumns_among (col : jsstring) :
  among removedColumns col = true <-> col = column.
Proof.
  rewrite among_In. unfold removedColumns.
  rewrite List.filter_In, negb_true_iff, among_false, columns_In. split.
  - intros [Hin Hn]. destruct (decide (col = column)) as [-> | Hne]; tauto.
  - intros ->. tauto.
Qed.

Lemma removedColumns_nonempty : (0 <? length removedColumns)%nat = true.
Proof.
  apply Nat.ltb_lt.
  assert (H : In column removedColumns) by (apply among_In, removedColumns_among; auto).
  destruct removedColumns; [destruct H | simpl; lia].
Qed.

End Deselect.

Lemma handleColumnSelectionChange_prunes (st : page) (column : jsstring) :
  In column (selectedColumns st) ->
  let st' := handleColumnSelectionChange
               (List.filter (fun col => negb (str_eqb col column)) (selectedColumns st)) st in
  selectedColumns st'
  = List.filter (fun col => negb (str_eqb col column)) (selectedColumns st) /\
  (forall f, In f (filters st') <-> In f (filters st) /\ Filters.column f <> column) /\
  columnSanitizationSettings st' !! column = None /\
  (forall col, col <> column ->
     columnSanitizationSettings st' !! col = columnSanitizationSettings st !! col).
Proof.
  intros Hin. cbv zeta.
  pose proof (columns_shorter (selectedColumns st) column Hin) as Hshort.
  pose proof (removedColumns_among (selectedColumns st) column Hin) as Hrem.
  pose proof (removedColumns_nonempty (selectedColumns st) column Hin) as Hne.
  unfold handleColumnSelectionChange. cbv zeta.
  replace (_ <? length (selectedColumns st))%nat with true
    by (symmetry; apply Nat.ltb_lt; exact Hshort).
  cbn [selectedColumns filters columnSanitizationSettings].
  rewrite Hne. cbn [andb].
  split; [reflexivity |]. split; [| split].
  - intros f. destruct (existsb _ (filters st)) eqn:Eex.
    + rewrite List.filter_In, negb_true_iff.
      rewrite <- not_true_iff_false, Hrem. tauto.
    + split; [| tauto]. intros Hf. split; [exact Hf |]. intros Hc.
      rewrite <- not_true_iff_false in Eex. apply Eex.
      apply existsb_exists. exists f. split; [exact Hf |]. now apply Hrem.
  - destruct (existsb _ (elements _)) eqn:Eex.
    + rewrite lookup_fold_delete.
      match goal with |- context [among ?r column] =>
        replace (among r column) with true by (symmetry; now apply Hrem) end.
      reflexivity.
    + apply not_elem_of_dom. intros Hd.
      rewrite <- not_true_iff_false in Eex. apply Eex.
      apply existsb_exists. exists column. split.
      * now apply list_elem_of_In, elem_of_elements.
      * now apply Hrem.
  - intros col Hcol. destruct (existsb _ (elements _)); [| reflexivity].
    rewrite lookup_fold_delete.
    match goal with |- context [among ?r col] => destruct (among r col) eqn:E end;
      [| reflexivity].
    apply Hrem in E. contradiction.
Qed.

Lemma handleColumnSelectionChange_grows (st : page) (columns : list jsstring) :
  length (selectedColumns st) <= length columns ->
  handleColumnSelectionChange columns st
  = {| selectedColumns := columns; filters := filters st;
       columnSanitizationSettings := columnSanitizationSettings st |}.
Proof.
  intros H. unfold handleColumnSelectionChange. cbv zeta.
  now replace (length columns <? length (selectedColumns st))%nat with false
    by (symmetry; apply Nat.ltb_ge; exact H).
Qed.

(** X30. When a selected column is switched off in the preview and the
    selection reported to the page, the page drops exactly the filters on
    that column and the column's sanitisation settings, and keeps those of
    every other column; switching the column on again brings it back into
    the selection, but neither its filters nor its settings. *)
Theorem deselect_prunes (preview : ColumnHistory.state) (st : page) (column : jsstring) :
  selectedColumns st = ColumnHistory.selectedColumns preview ->
  In column (selectedColumns st) ->
  let off := ColumnHistory.toggleColumn column preview in
  let st' := report off st in
  let st'' := report (ColumnHistory.toggleColumn column off) st' in
  (forall col, In col (selectedColumns st') <-> In col (selectedColumns st) /\ col <> column) /\
  (forall f, In f (filters st') <-> In f (filters st) /\ Filters.column f <> column) /\
  columnSanitizationSettings st' !! column = None /\
  (forall col, col <> column ->
     columnSanitizationSettings st' !! col = columnSanitizationSettings st !! col) /\
  In column (selectedColumns st'') /\
  filters st'' = filters st' /\
  columnSanitizationSettings st'' = columnSanitizationSettings st'.
Proof.
  intros Hsync Hin. cbv zeta.
  assert (Hamong : among (ColumnHistory.selectedColumns preview) column = true)
    by (apply among_In; congruence).
  assert (Hoff : ColumnHistory.selectedColumns (ColumnHistory.toggleColumn column preview)
                 = List.filter (fun col => negb (str_eqb col column)) (selectedColumns st)).
  { unfold ColumnHistory.toggleColumn. cbv zeta.
    cbn [ColumnHistory.push ColumnHistory.selectedColumns].
    fold (among (ColumnHistory.selectedColumns preview) column).
    now rewrite Hamong, Hsync. }
  assert (Hon : ColumnHistory.selectedColumns
                  (ColumnHistory.toggleColumn column
                     (ColumnHistory.toggleColumn column preview))
                = List.filter (fun col => negb (str_eqb col column)) (selectedColumns st)
                  ++ [column]).
  { unfold ColumnHistory.toggleColumn at 1. cbv zeta.
    cbn [ColumnHistory.push ColumnHistory.selectedColumns]. rewrite Hoff.
    match goal with |- context [existsb (str_eqb column) ?l] =>
      fold (among l column);
      replace (among l column) with false; [reflexivity |] end.
    symmetry. apply among_false. rewrite (columns_In (selectedColumns st) column). tauto. }
  unfold report. rewrite Hon, Hoff.
  destruct (handleColumnSelectionChange_prunes st column Hin) as (Hsel & Hf & Hs & Hother).
  cbv zeta in Hsel, Hf, Hs, Hother.
  set (st' := handleColumnSelectionChange
                (List.filter (fun col => negb (str_eqb col column)) (selectedColumns st)) st)
    in *.
  split; [intros col; rewrite Hsel; apply columns_In |].
  split; [exact Hf |]. split; [exact Hs |]. split; [exact Hother |].
  rewrite handleColumnSelectionChange_grows
    by (rewrite Hsel, length_app; lia).
  cbn [selectedColumns filters columnSanitizationSettings].
  split; [apply in_or_app; right; now left | split; reflexivity].
Qed.

(** [deselect_prunes] on a page with a filter on the column switched off. *)
Lemma deselect_prunes_witness :
  columnSanitizationSettings
    (report (ColumnHistory.toggleColumn (js "amount")
               (ColumnHistory.initial [js "amount"; js "day"]))
            {| selectedColumns := [js "amount"; js "day"];
               filters := [between_from_0; dateRange_open];
               columnSanitizationSettings :=
                 {[ js "amount" := {| enableSanitization := true;
                                      preserveCharacters := None;
                                      columnType := Some TypeInference.Currency |} ]} |})
    !! js "amount" = None.
Proof.
  pose proof (deselect_prunes (ColumnHistory.initial [js "amount"; js "day"])
           {| selectedColumns := [js "amount"; js "day"];
              filters := [between_from_0; dateRange_open];
              columnSanitizationSettings :=
                {[ js "amount" := {| enableSanitization := true;
                                     preserveCharacters := None;
                                     columnType := Some TypeInference.Currency |} ]} |}
           (js "amount") eq_refl (or_introl eq_refl)) as H.
  cbv zeta in H. destruct H as (_ & _ & H & _). exact H.
Defined.

End ColumnSelection.
